(** * Loopring market connector: order submission, nonces, quantization

    A shallow embedding of [hummingbot/market/loopring/loopring_market.pyx]
    (class [LoopringMarket]) and the properties its specification states.

    Layout:
    - Python values, exceptions and insertion-ordered dictionaries;
    - [decimal.Decimal] under the default context (precision 28, traps on
      InvalidOperation and Overflow), as far as the connector uses it;
    - the connector's state ([World]) and a state-and-exception monad in which
      the methods are written statement by statement;
    - the methods themselves (submission, cancellation, order updates, the
      stream listener, the status poll, the refresh of the trading rules,
      saving and restoring the registry) and the helpers of the module, and
      two concrete settings to run them in;
    - the properties the specification states, then further properties of
      the methods, each with a worked run where it has preconditions. *)

From Stdlib Require Import ZArith NArith QArith Qabs Qpower List FinFun String Ascii Bool Lia.
Import ListNotations.

Set Warnings "-register-all".

Local Open Scope string_scope.
Local Open Scope Z_scope.

(** ** Python values *)

(** JSON-shaped Python values: what [response.json()] yields and what the
    connector stores in its request dictionaries.  Floats do not occur in the
    payloads the modelled methods read. *)
Inductive PyVal : Type :=
| PNone
| PBool (b : bool)
| PInt (z : Z)
| PStr (s : string)
| PList (l : list PyVal)
| PDict (d : list (string * PyVal)).

(** [decimal.Decimal] values; their arithmetic is below. *)
Inductive Decimal : Type :=
| Fin (sign : bool) (coeff : N) (exp : Z)
| Inf (sign : bool)
| NaN (signalling : bool).

(** Fragments of a formatted message (an f-string before rendering). *)
Inductive Frag : Type :=
| FStr (s : string)
| FVal (v : PyVal)
| FDec (d : Decimal).

Definition Msg := list Frag.

(** The exception classes that the modelled code can meet.  Every one of
    them is a subclass of [Exception]; only [ValueError] is caught by class. *)
Inductive Exn : Type :=
| KeyError (key : PyVal)
| ValueError (msg : Msg)
| TypeError (msg : string)
| AttributeError (msg : string)
| NameError (name : string)
| UnboundLocalError (name : string)
| IOError (msg : string)
| InvalidOperation (msg : string)
| DecimalOverflow
| OverflowError (msg : string)
| PlainException (msg : Msg).

(** [isinstance(e, ValueError)] *)
Definition is_ValueError (e : Exn) : bool :=
  match e with ValueError _ => true | _ => false end.

Inductive Res (A : Type) : Type :=
| Ok (a : A)
| Raise (e : Exn).
Arguments Ok {A} a.
Arguments Raise {A} e.

(** ** Dictionaries

    A Python [dict] keeps insertion order: assigning to a present key keeps
    its position, a new key goes last.  Iteration order is observable
    ([cancel_all] walks the registry, [_encode_request] walks the parameters),
    so a dictionary is an association list with unique keys. *)

Class EqKey (K : Type) : Type := { keqb : K -> K -> bool }.

#[export] Instance EqKey_string : EqKey string := {| keqb := String.eqb |}.

#[export] Instance EqKey_Z : EqKey Z := {| keqb := Z.eqb |}.

Definition Dict (K V : Type) : Type := list (K * V).

Section DictOps.
Context {K V : Type} `{EqKey K}.

(** [d.get(k)] *)
Fixpoint dict_get (d : Dict K V) (k : K) : option V :=
  match d with
  | [] => None
  | (k', v) :: r => if keqb k k' then Some v else dict_get r k
  end.

(** [d[k] = v] *)
Fixpoint dict_set (d : Dict K V) (k : K) (v : V) : Dict K V :=
  match d with
  | [] => [(k, v)]
  | (k', v') :: r =>
      if keqb k k' then (k, v) :: r else (k', v') :: dict_set r k v
  end.

(** [del d[k]] for a key known to be present; absent keys leave [d] alone,
    which is the only way the connector deletes ([if k in d: del d[k]]). *)
Definition dict_del (d : Dict K V) (k : K) : Dict K V :=
  filter (fun kv => negb (keqb k (fst kv))) d.

(** [k in d] *)
Definition dict_mem (d : Dict K V) (k : K) : bool :=
  match dict_get d k with Some _ => true | None => false end.

(** [d.update(e)] *)
Definition dict_update (d e : Dict K V) : Dict K V :=
  fold_left (fun acc kv => dict_set acc (fst kv) (snd kv)) e d.

Definition dict_keys (d : Dict K V) : list K := map fst d.

End DictOps.

(** ** Strings and integers as Python renders and reads them *)

Definition digit_char (d : Z) : ascii := ascii_of_nat (Z.to_nat (48 + d)).

Fixpoint render_digits (fuel : nat) (n : Z) (acc : string) : string :=
  match fuel with
  | O => acc
  | S f =>
      let acc' := String (digit_char (n mod 10)) acc in
      if n <? 10 then acc' else render_digits f (n / 10) acc'
  end.

(** [str(n)] for an [int] *)
Definition str_of_Z (n : Z) : string :=
  if n <? 0
  then String "-" (render_digits (S (Z.to_nat (Z.log2 (- n)))) (- n) "")
  else render_digits (S (Z.to_nat (Z.log2 n))) n "".

Definition is_digit (c : ascii) : bool :=
  let n := Z.of_nat (nat_of_ascii c) in (48 <=? n) && (n <=? 57).

Definition is_space (c : ascii) : bool :=
  let n := Z.of_nat (nat_of_ascii c) in
  (n =? 32) || ((9 <=? n) && (n <=? 13)).

Fixpoint lstrip (s : string) : string :=
  match s with
  | String c r => if is_space c then lstrip r else s
  | EmptyString => s
  end.

Fixpoint rstrip (s : string) : string :=
  match s with
  | EmptyString => EmptyString
  | String c r =>
      match rstrip r with
      | EmptyString => if is_space c then EmptyString else String c EmptyString
      | r' => String c r'
      end
  end.

(** Digits with single underscores between them, read left to right;
    [after_digit] says whether the previous character was a digit. *)
Fixpoint read_digits (s : string) (acc : Z) (after_digit : bool) : option Z :=
  match s with
  | EmptyString => if after_digit then Some acc else None
  | String c r =>
      if is_digit c
      then read_digits r (10 * acc + (Z.of_nat (nat_of_ascii c) - 48)) true
      else if Ascii.eqb c "_" && after_digit
           then match r with
                | String c' _ => if is_digit c' then read_digits r acc false else None
                | EmptyString => None
                end
           else None
  end.

(** [int(s)] for a [str] in base 10: surrounding white space, an optional
    sign, digits. *)
Definition int_of_string (s : string) : Res Z :=
  let body := rstrip (lstrip s) in
  let bad := ValueError [FStr "invalid literal for int() with base 10: "; FVal (PStr s)] in
  match body with
  | String "-" r =>
      match read_digits r 0 false with Some n => Ok (- n) | None => Raise bad end
  | String "+" r =>
      match read_digits r 0 false with Some n => Ok n | None => Raise bad end
  | _ =>
      match read_digits body 0 false with Some n => Ok n | None => Raise bad end
  end.

(** [int(v)] *)
Definition py_int (v : PyVal) : Res Z :=
  match v with
  | PInt z => Ok z
  | PBool b => Ok (if b then 1 else 0)
  | PStr s => int_of_string s
  | _ => Raise (TypeError "int() argument must be a string, a bytes-like object or a number")
  end.

(** [str(v)] for [None], a [bool], an [int] or a [str] (empty otherwise) *)
Definition py_str_scalar (v : PyVal) : string :=
  match v with
  | PNone => "None"
  | PBool true => "True"
  | PBool false => "False"
  | PInt z => str_of_Z z
  | PStr s => s
  | _ => ""
  end.

(** [v == s] for a string literal [s] *)
Definition py_eq_str (v : PyVal) (s : string) : bool :=
  match v with PStr t => String.eqb t s | _ => false end.

(** [s.split(sep)] for a one-character separator *)
Fixpoint split_on (sep : ascii) (s : string) : list string :=
  match s with
  | EmptyString => [EmptyString]
  | String c r =>
      if Ascii.eqb c sep then EmptyString :: split_on sep r
      else match split_on sep r with
           | h :: t => String c h :: t
           | [] => [String c EmptyString]
           end
  end.

Fixpoint forallb_string (f : ascii -> bool) (s : string) : bool :=
  match s with
  | EmptyString => true
  | String c r => f c && forallb_string f r
  end.

(** [s.replace(c, "")] *)
Fixpoint drop_char (c : ascii) (s : string) : string :=
  match s with
  | EmptyString => EmptyString
  | String a r => if Ascii.eqb a c then drop_char c r else String a (drop_char c r)
  end.

(** ["sep".join(parts)] *)
Fixpoint join (sep : string) (parts : list string) : string :=
  match parts with
  | [] => EmptyString
  | [p] => p
  | p :: r => p ++ sep ++ join sep r
  end.

(** [v[k]] for a string key: only a [dict] can be subscripted by one. *)
Definition py_getitem (v : PyVal) (k : string) : Res PyVal :=
  match v with
  | PDict d =>
      match dict_get d k with
      | Some x => Ok x
      | None => Raise (KeyError (PStr k))
      end
  | PNone => Raise (TypeError "'NoneType' object is not subscriptable")
  | PList _ => Raise (TypeError "list indices must be integers or slices, not str")
  | PStr _ => Raise (TypeError "string indices must be integers")
  | _ => Raise (TypeError "object is not subscriptable")
  end.

(** [k in v.keys()] *)
Definition py_has_key (v : PyVal) (k : string) : Res bool :=
  match v with
  | PDict d => Ok (dict_mem d k)
  | _ => Raise (AttributeError "object has no attribute 'keys'")
  end.

(** [v + 1] *)
Definition py_add1 (v : PyVal) : Res PyVal :=
  match v with
  | PInt z => Ok (PInt (z + 1))
  | PBool b => Ok (PInt ((if b then 1 else 0) + 1))
  | PStr _ => Raise (TypeError "can only concatenate str (not 'int') to str")
  | _ => Raise (TypeError "unsupported operand type(s) for +")
  end.

(** [v == True] *)
Definition py_eq_True (v : PyVal) : bool :=
  match v with
  | PBool b => b
  | PInt z => z =? 1
  | _ => false
  end.

(** Hashable JSON values as dictionary keys.  [True] and [1] are the same
    key, lists and dictionaries are unhashable. *)
Inductive HKey : Type :=
| HNone
| HInt (z : Z)
| HStr (s : string).

Definition hkey_eqb (a b : HKey) : bool :=
  match a, b with
  | HNone, HNone => true
  | HInt x, HInt y => x =? y
  | HStr x, HStr y => String.eqb x y
  | _, _ => false
  end.

#[export] Instance EqKey_HKey : EqKey HKey := {| keqb := hkey_eqb |}.

(** [hash(v)], as far as it decides which key [v] is *)
Definition to_key (v : PyVal) : Res HKey :=
  match v with
  | PNone => Ok HNone
  | PBool b => Ok (HInt (if b then 1 else 0))
  | PInt z => Ok (HInt z)
  | PStr s => Ok (HStr s)
  | PList _ => Raise (TypeError "unhashable type: 'list'")
  | PDict _ => Raise (TypeError "unhashable type: 'dict'")
  end.

(** [urllib.parse.quote(s, safe='')]: every byte outside the unreserved set
    (letters, digits, [_.-~]) becomes [%XX] in upper-case hexadecimal. *)
Definition is_unreserved (c : ascii) : bool :=
  let n := Z.of_nat (nat_of_ascii c) in
  ((65 <=? n) && (n <=? 90)) || ((97 <=? n) && (n <=? 122))
  || ((48 <=? n) && (n <=? 57))
  || (n =? 95) || (n =? 46) || (n =? 45) || (n =? 126).

Definition hex_digit (d : Z) : ascii :=
  ascii_of_nat (Z.to_nat (if d <? 10 then 48 + d else 55 + d)).

Fixpoint quote (s : string) : string :=
  match s with
  | EmptyString => EmptyString
  | String c r =>
      if is_unreserved c then String c (quote r)
      else
        let n := Z.of_nat (nat_of_ascii c) in
        String "%" (String (hex_digit (n / 16)) (String (hex_digit (n mod 16)) (quote r)))
  end.

(** ** decimal.Decimal

    Amounts and prices are [decimal.Decimal] objects.  A finite decimal is a
    sign, a coefficient and an exponent and stands for
    [(-1)^sign * coeff * 10^exp]; the special values are the infinities and
    the quiet and signalling NaN.  All operations run under the module's
    default context: 28 digits, exponents within [-999999, 999999], rounding
    half-even, and the signals InvalidOperation and Overflow trapped, that is
    raised as exceptions. *)

Definition prec : Z := 28.
Definition Emax : Z := 999999.
Definition Emin : Z := -999999.
Definition Etiny : Z := Emin - prec + 1.
Definition Etop : Z := Emax - prec + 1.

(** [Decimal(0)], the module-level [s_decimal_0] *)
Definition s_decimal_0 : Decimal := Fin false 0 0.

Fixpoint ndigits_fuel (fuel : nat) (c : N) : Z :=
  match fuel with
  | O => 1
  | S f => if (c <? 10)%N then 1 else 1 + ndigits_fuel f (c / 10)%N
  end.

(** [len(self._int)]: the number of decimal digits of the coefficient *)
Definition ndigits (c : N) : Z := ndigits_fuel (N.to_nat (N.size c)) c.

(** [self.adjusted()]: the exponent of the leading digit *)
Definition adjusted (c : N) (e : Z) : Z := e + ndigits c - 1.

Definition pow10 (k : Z) : N := Z.to_N (10 ^ k).

(** [self._rescale(t, ROUND_DOWN)] on a coefficient: pad with zeros when the
    exponent goes down, drop digits when it goes up. *)
Definition rescale_down (c : N) (e t : Z) : N :=
  if t <=? e then (c * pow10 (e - t))%N else (c / pow10 (t - e))%N.

(** [self.quantize(q, rounding=ROUND_DOWN)]: the value of [self] with the
    exponent of [q], digits beyond it dropped.  Only the exponent of [q]
    matters.  A result that needs more than [prec] digits is an
    InvalidOperation. *)
Definition quantize_down (self q : Decimal) : Res Decimal :=
  match self, q with
  | NaN true, _ => Raise (InvalidOperation "sNaN")
  | _, NaN true => Raise (InvalidOperation "sNaN")
  | NaN false, _ => Ok (NaN false)
  | _, NaN false => Ok (NaN false)
  | Inf s, Inf _ => Ok (Inf s)
  | Inf _, Fin _ _ _ => Raise (InvalidOperation "quantize with one INF")
  | Fin _ _ _, Inf _ => Raise (InvalidOperation "quantize with one INF")
  | Fin s c e, Fin _ _ t =>
      if negb ((Etiny <=? t) && (t <=? Emax))
      then Raise (InvalidOperation "target exponent out of bounds in quantize")
      else if (c =? 0)%N then Ok (Fin s 0 t)
      else if adjusted c e >? Emax
      then Raise (InvalidOperation "exponent of quantize result too large for current context")
      else if adjusted c e - t + 1 >? prec
      then Raise (InvalidOperation "quantize result has too many digits for current context")
      else
        let c' := rescale_down c e t in
        if adjusted c' t >? Emax
        then Raise (InvalidOperation "exponent of quantize result too large for current context")
        else if ndigits c' >? prec
        then Raise (InvalidOperation "quantize result has too many digits for current context")
        else Ok (Fin s c' t)
  end.

Definition signed (s : bool) (c : N) : Z :=
  if s then - Z.of_N c else Z.of_N c.

(** [self._cmp(other)] on operands that are not NaN: the order of the values,
    an infinity beyond every finite number. *)
Definition dec_cmp (a b : Decimal) : comparison :=
  match a, b with
  | Fin s1 c1 e1, Fin s2 c2 e2 =>
      let m := Z.min e1 e2 in
      Z.compare (signed s1 c1 * 10 ^ (e1 - m)) (signed s2 c2 * 10 ^ (e2 - m))
  | Inf s1, Inf s2 =>
      match s1, s2 with
      | true, false => Lt
      | false, true => Gt
      | _, _ => Eq
      end
  | Inf s, _ => if s then Lt else Gt
  | _, Inf s => if s then Gt else Lt
  | _, _ => Eq
  end.

Definition is_nan (d : Decimal) : bool :=
  match d with NaN _ => true | _ => false end.

(** [a < b]: an ordering comparison with a NaN signals InvalidOperation. *)
Definition dec_lt (a b : Decimal) : Res bool :=
  if is_nan a || is_nan b then Raise (InvalidOperation "comparison involving NaN")
  else Ok (match dec_cmp a b with Lt => true | _ => false end).

(** [a > b] *)
Definition dec_gt (a b : Decimal) : Res bool :=
  if is_nan a || is_nan b then Raise (InvalidOperation "comparison involving NaN")
  else Ok (match dec_cmp a b with Gt => true | _ => false end).

(** [Decimal._fix]: round a finite result to the context (half-even at
    [prec] digits, subnormals at [Etiny]); beyond [Emax] is an Overflow. *)
Definition dec_fix (s : bool) (c : N) (e : Z) : Res Decimal :=
  if (c =? 0)%N then Ok (Fin s 0 (Z.min (Z.max e Etiny) Emax))
  else
    let exp_min0 := ndigits c + e - prec in
    if exp_min0 >? Etop then Raise DecimalOverflow
    else
      let exp_min := if exp_min0 <? Etiny then Etiny else exp_min0 in
      if e <? exp_min then
        let digits := ndigits c + e - exp_min in
        let '(c0, e0) := if digits <? 0 then (1%N, exp_min - 1) else (c, e) in
        let unit := pow10 (exp_min - e0) in
        let kept := (c0 / unit)%N in
        let rest := (c0 mod unit)%N in
        let half := (5 * pow10 (exp_min - e0 - 1))%N in
        let up := (half <? rest)%N || ((rest =? half)%N && N.odd kept) in
        let coeff := if up then (kept + 1)%N else kept in
        let carry := up && (ndigits coeff >? prec) in
        let coeff' := if carry then (coeff / 10)%N else coeff in
        let exp' := if carry then exp_min + 1 else exp_min in
        if exp' >? Etop then Raise DecimalOverflow else Ok (Fin s coeff' exp')
      else Ok (Fin s c e).

Definition is_zero (d : Decimal) : bool :=
  match d with Fin _ c _ => (c =? 0)%N | _ => false end.

Definition dec_sign (d : Decimal) : bool :=
  match d with Fin s _ _ => s | Inf s => s | NaN _ => false end.

(** [a * b] *)
Definition dec_mul (a b : Decimal) : Res Decimal :=
  match a, b with
  | NaN true, _ => Raise (InvalidOperation "sNaN")
  | _, NaN true => Raise (InvalidOperation "sNaN")
  | NaN false, _ => Ok (NaN false)
  | _, NaN false => Ok (NaN false)
  | Inf s, o =>
      if is_zero o then Raise (InvalidOperation "(+-)INF * 0")
      else Ok (Inf (xorb s (dec_sign o)))
  | o, Inf s =>
      if is_zero o then Raise (InvalidOperation "0 * (+-)INF")
      else Ok (Inf (xorb (dec_sign o) s))
  | Fin s1 c1 e1, Fin s2 c2 e2 => dec_fix (xorb s1 s2) (c1 * c2)%N (e1 + e2)
  end.

(** White space as the [Decimal] constructor strips it: the characters
    below U+0100 that [str.isspace] accepts. *)
Definition is_unicode_space (c : ascii) : bool :=
  let n := Z.of_nat (nat_of_ascii c) in
  (n =? 32) || ((9 <=? n) && (n <=? 13)) || ((28 <=? n) && (n <=? 31))
  || (n =? 133) || (n =? 160).

Fixpoint rstrip_unicode (s : string) : string :=
  match s with
  | EmptyString => EmptyString
  | String c r =>
      match rstrip_unicode r with
      | EmptyString => if is_unicode_space c then EmptyString else String c EmptyString
      | r' => String c r'
      end
  end.

(** The exponent of a decimal built from a string is exact down to the
    [Etiny] of the largest context, [MIN_EMIN - (MAX_PREC - 1)] of the C
    implementation on a 64-bit build; below it the constructor would have to
    round, and signals InvalidOperation. *)
Definition MAX_PREC : Z := 999999999999999999.
Definition MIN_EMIN : Z := -999999999999999999.
Definition MIN_ETINY : Z := MIN_EMIN - (MAX_PREC - 1).

(** [Decimal("1e-" + digits)] once the digits are read as [p] *)
Definition decimal_1e_minus_digits (p : Z) : Res Decimal :=
  if MIN_ETINY <=? - p
  then Ok (Fin false 1 (- p))
  else Raise (InvalidOperation "InvalidOperation").

(** [Decimal(f"1e-{v}")] for a JSON value [v]: the string is a decimal
    literal exactly when [v] renders as a run of digits; anything else is a
    conversion-syntax InvalidOperation, and so is an exponent out of
    range. *)
Definition decimal_1e_minus (v : PyVal) : Res Decimal :=
  let bad := Raise (InvalidOperation "ConversionSyntax") in
  match v with
  | PInt p => if 0 <=? p then decimal_1e_minus_digits p else bad
  | PStr s =>
      (* the constructor strips white space and drops underscores *)
      let t := drop_char "_" (rstrip_unicode s) in
      if forallb_string is_digit t
      then match read_digits t 0 false with
           | Some p => decimal_1e_minus_digits p
           | None => bad
           end
      else bad
  | _ => bad
  end.

(** [10^e] as a rational *)
Definition ten_to (e : Z) : Q := Qpower (inject_Z 10) e.

(** The value of a finite decimal as a rational (zero on special values). *)
Definition dec_Q (d : Decimal) : Q :=
  match d with
  | Fin s c e => inject_Z (signed s c) * ten_to e
  | _ => 0%Q
  end.

Definition finite (d : Decimal) : Prop :=
  match d with Fin _ _ _ => True | _ => False end.

(** ** Market data types *)

Inductive TradeType : Type := BUY | SELL.

(** [OrderType], as this version of the framework has it *)
Inductive OrderType : Type := MARKET | LIMIT.

Definition TradeType_eqb (a b : TradeType) : bool :=
  match a, b with BUY, BUY | SELL, SELL => true | _, _ => false end.

Definition OrderType_eqb (a b : OrderType) : bool :=
  match a, b with MARKET, MARKET | LIMIT, LIMIT => true | _, _ => false end.

Definition TradeType_name (t : TradeType) : string :=
  match t with BUY => "BUY" | SELL => "SELL" end.

Definition OrderType_name (t : OrderType) : string :=
  match t with MARKET => "MARKET" | LIMIT => "LIMIT" end.

(** [TradingRule], with the fields the connector sets *)
Record TradingRule : Type := mkTradingRule {
  trading_pair : string;
  min_order_size : Decimal;
  max_order_size : Decimal;
  min_price_increment : Decimal;
  min_base_amount_increment : Decimal;
  min_quote_amount_increment : Decimal;
  min_notional_size : Decimal;
  supports_limit_orders : bool;
  supports_market_orders : bool
}.

(** The members of [MarketEvent] the connector triggers or matches on. *)
Inductive MarketEvent : Type :=
| BuyOrderCompleted
| SellOrderCompleted
| OrderCancelled
| OrderExpired
| OrderFilled
| OrderFailure
| BuyOrderCreated
| SellOrderCreated
| OtherMarketEvent (value : Z).

Definition MarketEvent_eqb (a b : MarketEvent) : bool :=
  match a, b with
  | BuyOrderCompleted, BuyOrderCompleted
  | SellOrderCompleted, SellOrderCompleted
  | OrderCancelled, OrderCancelled
  | OrderExpired, OrderExpired
  | OrderFilled, OrderFilled
  | OrderFailure, OrderFailure
  | BuyOrderCreated, BuyOrderCreated
  | SellOrderCreated, SellOrderCreated => true
  | OtherMarketEvent x, OtherMarketEvent y => x =? y
  | _, _ => false
  end.

Definition BUY_ORDER_COMPLETED_EVENT := BuyOrderCompleted.
Definition SELL_ORDER_COMPLETED_EVENT := SellOrderCompleted.
Definition ORDER_CANCELLED_EVENT := OrderCancelled.
Definition ORDER_EXPIRED_EVENT := OrderExpired.
Definition ORDER_FILLED_EVENT := OrderFilled.
Definition ORDER_FAILURE_EVENT := OrderFailure.
Definition BUY_ORDER_CREATED_EVENT := BuyOrderCreated.
Definition SELL_ORDER_CREATED_EVENT := SellOrderCreated.

(** The event objects handed to [c_trigger_event]. *)
Inductive EventObj : Type :=
| BuyOrderCreatedEvent (timestamp : Z) (type : OrderType) (pair : string)
    (amount price : Decimal) (order_id : string)
| SellOrderCreatedEvent (timestamp : Z) (type : OrderType) (pair : string)
    (amount price : Decimal) (order_id : string)
| MarketOrderFailureEvent (timestamp : Z) (order_id : string) (type : OrderType)
| OrderCancelledEvent (timestamp : Z) (order_id : string)
| OrderExpiredEvent (timestamp : Z) (order_id : string)
| OrderFilledEvent (timestamp : Z) (order_id : string) (pair : string)
    (side : TradeType) (type : OrderType) (price amount : Decimal)
    (fee_asset : string) (fee : Decimal) (exchange_trade_id : string)
| BuyOrderCompletedEvent (timestamp : Z) (order_id : string)
    (base quote fee_asset : string) (base_amount quote_amount fee : Decimal)
    (type : OrderType)
| SellOrderCompletedEvent (timestamp : Z) (order_id : string)
    (base quote fee_asset : string) (base_amount quote_amount fee : Decimal)
    (type : OrderType).

(** [CancellationResult(order_id, success)] *)
Record CancellationResult : Type := mkCancellationResult {
  cr_order_id : string;
  cr_success : bool
}.

Inductive LogLevel : Type := DEBUG | INFO | WARNING | ERROR | NETWORK.

(** What [sell_buy_amounts] of the token configuration returns: the four
    entries it adds to an order. *)
Record OrderDetails : Type := mkOrderDetails {
  tokenSId : Z;
  tokenBId : Z;
  amountS : Z;
  amountB : Z
}.

(** An HTTP request as [api_request] hands it to the shared client session
    (every call carries [API_CALL_TIMEOUT]). *)
Record Request : Type := mkRequest {
  rq_method : string;
  rq_url : string;
  rq_data : option (Dict string PyVal);
  rq_params : option (Dict string PyVal);
  rq_headers : Dict string string
}.

(** What comes back: a transport failure (time-out, connection error), or a
    response with a status and the outcome of decoding its JSON body. *)
Inductive NetOutcome : Type :=
| Transport (e : Exn)
| Http (status : Z) (body : Res PyVal).

(** Invocations of the signing engine. *)
Inductive CryptoCall : Type :=
| PoseidonHash (preimage : list Z)
| Sha256Hash (message : string)
| EdDSASign (msg_hash : Z) (private_scalar : Z).

(** ** Collaborators

    Components the connector uses and this file does not contain: the
    in-flight order class, the token configuration, the signing primitives
    and the authentication header.  They are an interface here; each
    function may raise. *)
Class Collaborators : Type := {
  (* LoopringInFlightOrder *)
  InFlightOrder : Type;
  io_client_order_id : InFlightOrder -> string;
  io_exchange_order_id : InFlightOrder -> string;
  io_trading_pair : InFlightOrder -> string;
  io_trade_type : InFlightOrder -> TradeType;
  io_order_type : InFlightOrder -> OrderType;
  io_base_asset : InFlightOrder -> string;
  io_quote_asset : InFlightOrder -> string;
  io_fee_asset : InFlightOrder -> option string;
  io_executed_amount_base : InFlightOrder -> Decimal;
  io_executed_amount_quote : InFlightOrder -> Decimal;
  io_fee_paid : InFlightOrder -> Decimal;
  io_is_done : InFlightOrder -> bool;
  io_is_failure : InFlightOrder -> bool;
  io_is_cancelled : InFlightOrder -> bool;
  io_description : InFlightOrder -> string;
  (* [order.update(event)]: the events to issue, each with the new amount,
     price and fee, and the order as mutated *)
  io_update : InFlightOrder -> PyVal ->
              Res (list (MarketEvent * Decimal * Decimal * Decimal) * InFlightOrder);
  from_loopring_order : TradeType -> string -> Z -> PyVal -> string ->
                        Decimal -> Decimal -> Res InFlightOrder;
  (* LoopringAPITokenConfigurationDataSource *)
  get_tokenid : string -> Res Z;
  sell_buy_amounts : Z -> Z -> Decimal -> Decimal -> TradeType -> Res OrderDetails;
  unpad : PyVal -> PyVal -> Res Decimal;
  (* ethsnarks2 *)
  SNARK_SCALAR_FIELD : Z;
  poseidon : list Z -> Res Z;
  eddsa_sign : Z -> Z -> Res (Z * Z * Z);
  (* hashlib.sha256(s.encode('utf-8')), the digest read as an integer *)
  sha256_int : string -> Z;
  (* LoopringAuth.generate_auth_dict() *)
  generate_auth_dict : Dict string string;
  (* json.loads *)
  json_loads : string -> Res PyVal;
  (* str(v) for a list or a dict *)
  repr_container : PyVal -> string
}.

(** ** The connector's state, and the remote side *)

Section Connector.
Context {C : Collaborators}.

(** The fields of a [LoopringMarket] that the modelled methods touch,
    together with what they do to the outside: requests sent, events
    triggered, log records, signing-engine calls.  [remote] is the exchange:
    it answers a request given the requests sent before it.  [clock] is
    [int(time.time())]. *)
Record World : Type := mkWorld {
  loopring_accountid : Z;
  loopring_exchangeid : Z;
  loopring_private_key : string;
  _trading_rules : Dict string TradingRule;
  _in_flight_orders : Dict string InFlightOrder;
  _next_order_id : Dict Z PyVal;
  _current_timestamp : Z;
  (* the one dictionary behind [api_request]'s default [headers={}] *)
  default_headers : Dict string string;
  clock : Z;
  remote : list Request -> Request -> NetOutcome;
  requests : list Request;
  events : list (MarketEvent * EventObj);
  logs : list (LogLevel * Msg);
  crypto_calls : list CryptoCall
}.

Definition with_trading_rules (v : Dict string TradingRule) (w : World) : World :=
  mkWorld (loopring_accountid w) (loopring_exchangeid w) (loopring_private_key w)
    v (_in_flight_orders w) (_next_order_id w) (_current_timestamp w)
    (default_headers w) (clock w) (remote w) (requests w) (events w) (logs w)
    (crypto_calls w).

Definition with_in_flight_orders (v : Dict string InFlightOrder) (w : World) : World :=
  mkWorld (loopring_accountid w) (loopring_exchangeid w) (loopring_private_key w)
    (_trading_rules w) v (_next_order_id w) (_current_timestamp w)
    (default_headers w) (clock w) (remote w) (requests w) (events w) (logs w)
    (crypto_calls w).

Definition with_next_order_id (v : Dict Z PyVal) (w : World) : World :=
  mkWorld (loopring_accountid w) (loopring_exchangeid w) (loopring_private_key w)
    (_trading_rules w) (_in_flight_orders w) v (_current_timestamp w)
    (default_headers w) (clock w) (remote w) (requests w) (events w) (logs w)
    (crypto_calls w).

Definition with_default_headers (v : Dict string string) (w : World) : World :=
  mkWorld (loopring_accountid w) (loopring_exchangeid w) (loopring_private_key w)
    (_trading_rules w) (_in_flight_orders w) (_next_order_id w) (_current_timestamp w)
    v (clock w) (remote w) (requests w) (events w) (logs w) (crypto_calls w).

Definition with_requests (v : list Request) (w : World) : World :=
  mkWorld (loopring_accountid w) (loopring_exchangeid w) (loopring_private_key w)
    (_trading_rules w) (_in_flight_orders w) (_next_order_id w) (_current_timestamp w)
    (default_headers w) (clock w) (remote w) v (events w) (logs w) (crypto_calls w).

Definition with_events (v : list (MarketEvent * EventObj)) (w : World) : World :=
  mkWorld (loopring_accountid w) (loopring_exchangeid w) (loopring_private_key w)
    (_trading_rules w) (_in_flight_orders w) (_next_order_id w) (_current_timestamp w)
    (default_headers w) (clock w) (remote w) (requests w) v (logs w) (crypto_calls w).

Definition with_logs (v : list (LogLevel * Msg)) (w : World) : World :=
  mkWorld (loopring_accountid w) (loopring_exchangeid w) (loopring_private_key w)
    (_trading_rules w) (_in_flight_orders w) (_next_order_id w) (_current_timestamp w)
    (default_headers w) (clock w) (remote w) (requests w) (events w) v (crypto_calls w).

Definition with_crypto_calls (v : list CryptoCall) (w : World) : World :=
  mkWorld (loopring_accountid w) (loopring_exchangeid w) (loopring_private_key w)
    (_trading_rules w) (_in_flight_orders w) (_next_order_id w) (_current_timestamp w)
    (default_headers w) (clock w) (remote w) (requests w) (events w) (logs w) v.

(** ** Statements: state and exceptions

    A method body is a function from the state to a result and a state; an
    exception keeps the state reached when it was raised, so a handler sees
    what the failed block had already done. *)
Definition M (A : Type) : Type := World -> Res A * World.

Definition ret {A} (a : A) : M A := fun w => (Ok a, w).

Definition raise {A} (e : Exn) : M A := fun w => (Raise e, w).

Definition bind {A B} (m : M A) (k : A -> M B) : M B :=
  fun w =>
    match m w with
    | (Ok a, w') => k a w'
    | (Raise e, w') => (Raise e, w')
    end.

Definition lift {A} (r : Res A) : M A := fun w => (r, w).

Definition gets {A} (f : World -> A) : M A := fun w => (Ok (f w), w).

Definition modify (f : World -> World) : M unit := fun w => (Ok tt, f w).

(** [try: m  except <class> as e: h e], where [catches] says which
    exceptions the clause names. *)
Definition try_except {A} (m : M A) (catches : Exn -> bool) (h : Exn -> M A) : M A :=
  fun w =>
    match m w with
    | (Ok a, w') => (Ok a, w')
    | (Raise e, w') => if catches e then h e w' else (Raise e, w')
    end.

(** [except Exception]: every modelled exception. *)
Definition any_Exception (e : Exn) : bool := true.

End Connector.

Declare Scope stmt_scope.
Delimit Scope stmt_scope with stmt.
Notation "x <- m ;; k" := (bind m (fun x => k))
  (at level 61, m at next level, right associativity) : stmt_scope.
Notation "m ;; k" := (bind m (fun _ => k))
  (at level 61, right associativity) : stmt_scope.
Notation "' pat <- m ;; k" := (bind m (fun x => match x with pat => k end))
  (at level 61, pat pattern, m at next level, right associativity) : stmt_scope.

(** ** The methods of [LoopringMarket] *)

Section Methods.
Context {C : Collaborators}.
Local Open Scope stmt_scope.

Definition MAINNET_API_REST_ENDPOINT : string := "https://api.loopring.io/".
Definition API_REST_ENDPOINT : string := MAINNET_API_REST_ENDPOINT.
Definition MARKETS_INFO_ROUTE : string := "api/v2/exchange/markets".
Definition TOKENS_INFO_ROUTE : string := "api/v2/exchange/tokens".
Definition NEXT_ORDER_ID : string := "api/v2/orderId".
Definition ORDER_ROUTE : string := "api/v2/order".
Definition ORDER_CANCEL_ROUTE : string := "api/v2/orders".

(** [self.logger().<level>(msg)] *)
Definition log (level : LogLevel) (msg : Msg) : M unit :=
  modify (fun w => with_logs (logs w ++ [(level, msg)]) w).

(** [self.c_trigger_event(tag, obj)] *)
Definition c_trigger_event (tag : MarketEvent) (obj : EventObj) : M unit :=
  modify (fun w => with_events (events w ++ [(tag, obj)]) w).

Definition record_crypto (c : CryptoCall) : M unit :=
  modify (fun w => with_crypto_calls (crypto_calls w ++ [c]) w).

(** [now()]: [int(time.time()) * 1000] *)
Definition now : M Z := gets (fun w => clock w * 1000).

(** The request goes out and the exchange answers. *)
Definition send (rq : Request) : M NetOutcome :=
  fun w => (Ok (remote w (requests w) rq), with_requests (requests w ++ [rq]) w).

(** [str(e)] and friends are kept unrendered. *)
Definition exn_msg (e : Exn) : Msg :=
  match e with
  | KeyError k => [FVal k]
  | ValueError m => m
  | TypeError s => [FStr s]
  | AttributeError s => [FStr s]
  | NameError n => [FStr "name '"; FStr n; FStr "' is not defined"]
  | UnboundLocalError n =>
      [FStr "local variable '"; FStr n; FStr "' referenced before assignment"]
  | IOError s => [FStr s]
  | InvalidOperation s => [FStr s]
  | DecimalOverflow => [FStr "Overflow"]
  | OverflowError s => [FStr s]
  | PlainException m => m
  end.

(** [str(v)] *)
Definition py_str (v : PyVal) : string :=
  match v with
  | PNone => "None"
  | PBool true => "True"
  | PBool false => "False"
  | PInt z => str_of_Z z
  | PStr s => s
  | _ => repr_container v
  end.

(** [_encode_request(self, url, method, params)] *)
Definition _encode_request (url method : string)
    (params : option (Dict string PyVal)) : Res string :=
  let url := quote url in
  match params with
  | None => Raise (AttributeError "'NoneType' object has no attribute 'items'")
  | Some ps =>
      let data :=
        quote (join "&" (map (fun kv => fst kv ++ "=" ++ py_str (snd kv)) ps)) in
      Ok (join "&" [method; url; data])
  end.

(** [headers] names either a dictionary of the caller's or the shared
    default; an update of the shared one is seen by every later call. *)
Definition save_headers (is_default : bool) (h : Dict string string) : M unit :=
  if is_default then modify (with_default_headers h) else ret tt.

(** [api_request(self, http_method, url, data, params, headers, secure)];
    [headers = None] stands for the argument left out. *)
Definition api_request (http_method url : string)
    (data params : option (Dict string PyVal))
    (headers : option (Dict string string)) (secure : bool) : M PyVal :=
  shared <- gets default_headers ;;
  let post :=
    match data with Some _ => String.eqb http_method "POST" | None => false end in
  let '(hdrs, is_default) :=
    if post then ([("Content-Type", "application/json")], false)
    else match headers with
         | Some h => (h, false)
         | None => (shared, true)
         end in
  let hdrs := dict_update hdrs generate_auth_dict in
  save_headers is_default hdrs ;;
  let full_url := API_REST_ENDPOINT ++ url in
  (* Signs requests for secure requests *)
  hdrs <- (if secure then
             ordered_data <- lift (_encode_request full_url http_method params) ;;
             record_crypto (Sha256Hash ordered_data) ;;
             let msgHash := sha256_int ordered_data mod SNARK_SCALAR_FIELD in
             key <- (private_key <- gets loopring_private_key ;;
                     lift (int_of_string private_key)) ;;
             record_crypto (EdDSASign msgHash key) ;;
             ' (rx, ry, s) <- lift (eddsa_sign msgHash key) ;;
             let signature := join "," [str_of_Z rx; str_of_Z ry; str_of_Z s] in
             let hdrs' := dict_update hdrs [("X-API-SIG", signature)] in
             save_headers is_default hdrs' ;;
             ret hdrs'
           else ret hdrs) ;;
  outcome <- send (mkRequest http_method full_url data params hdrs) ;;
  match outcome with
  | Transport e => raise e
  | Http status body =>
      if negb (status =? 200) then
        log INFO [FStr "Issue with Loopring API "; FStr http_method; FStr " to ";
                  FStr url; FStr ", response: "] ;;
        (* [await response.text]: the method itself, not its result *)
        raise (TypeError "object method can't be used in 'await' expression")
      else lift body
  end.

(** The local counter counts as missing when [.get(token)] is [None]. *)
Definition counter_missing (stored : option PyVal) : bool :=
  match stored with
  | None | Some PNone => true
  | Some _ => false
  end.

(** [_get_next_order_id(self, token, force_sync)].  The whole body runs
    under [self._order_id_lock], so calls do not interleave: one call is one
    step here.  [next_id] is a local that only the two assignments bind. *)
Definition _get_next_order_id (token : Z) (force_sync : bool) : M PyVal :=
  stored <- gets (fun w => dict_get (_next_order_id w) token) ;;
  next_id <-
    (if force_sync || counter_missing stored then
       try_except
         (account <- gets loopring_accountid ;;
          temp <- api_request "GET" NEXT_ORDER_ID None
                    (Some [("accountId", PInt account); ("tokenSId", PInt token)])
                    None false ;;
          next_id <- lift (py_getitem temp "data") ;;
          modify (fun w => with_next_order_id (dict_set (_next_order_id w) token next_id) w) ;;
          ret (Some next_id))
         any_Exception
         (fun e =>
            log INFO (exn_msg e) ;;
            log INFO [FStr "Error getting the next order id from Loopring"] ;;
            ret None)
     else
       match stored with
       | Some next_id =>
           next <- lift (py_add1 next_id) ;;
           modify (fun w => with_next_order_id (dict_set (_next_order_id w) token next) w) ;;
           ret (Some next_id)
       | None => raise (KeyError (PInt token))
       end) ;;
  match next_id with
  | Some v => ret v
  | None => raise (UnboundLocalError "next_id")
  end.

(** [_serialize_order(self, order)] *)
Definition _serialize_order (order : Dict string PyVal) : Res (list Z) :=
  let item (k : string) : Res PyVal :=
    match dict_get order k with
    | Some v => Ok v
    | None => Raise (KeyError (PStr k))
    end in
  let int_item (k : string) (rest : Z -> Res (list Z)) : Res (list Z) :=
    match item k with
    | Ok v => match py_int v with Ok z => rest z | Raise e => Raise e end
    | Raise e => Raise e
    end in
  let flag_item (k : string) (rest : Z -> Res (list Z)) : Res (list Z) :=
    match item k with
    | Ok v => rest (if py_eq_str v "true" then 1 else 0)
    | Raise e => Raise e
    end in
  int_item "exchangeId" (fun exchangeId =>
  int_item "orderId" (fun orderId =>
  int_item "accountId" (fun accountId =>
  int_item "tokenSId" (fun tokenSId =>
  int_item "tokenBId" (fun tokenBId =>
  int_item "amountS" (fun amountS =>
  int_item "amountB" (fun amountB =>
  flag_item "allOrNone" (fun allOrNone =>
  int_item "validSince" (fun validSince =>
  int_item "validUntil" (fun validUntil =>
  int_item "maxFeeBips" (fun maxFeeBips =>
  flag_item "buy" (fun buy =>
  int_item "label" (fun label =>
  Ok [exchangeId; orderId; accountId; tokenSId; tokenBId; amountS; amountB;
      allOrNone; validSince; validUntil; maxFeeBips; buy; label]))))))))))))).

(** [base, quote = trading_pair.split('-')] *)
Definition split_pair (pair : string) : Res (string * string) :=
  match split_on "-" pair with
  | [base; quote] => Ok (base, quote)
  | [_] => Raise (ValueError [FStr "not enough values to unpack (expected 2, got 1)"])
  | _ => Raise (ValueError [FStr "too many values to unpack (expected 2)"])
  end.

(** The order dictionary of [place_order] before it is signed: the literal
    entries in the order written, then [**order_details]. *)
Definition order_dict (exchange account : Z) (order_id : PyVal) (validSince : Z)
    (order_side : TradeType) (client_order_id : string)
    (order_details : OrderDetails) : Dict string PyVal :=
  dict_update
    [("exchangeId", PInt exchange);
     ("orderId", order_id);
     ("accountId", PInt account);
     ("allOrNone", PStr "false");
     ("validSince", PInt validSince);
     ("validUntil", PInt (validSince + 604800 * 5));
     ("maxFeeBips", PInt 63);
     ("label", PInt 20);
     ("buy", PStr (match order_side with BUY => "true" | SELL => "false" end));
     ("clientOrderId", PStr client_order_id)]
    [("tokenSId", PInt (tokenSId order_details));
     ("tokenBId", PInt (tokenBId order_details));
     ("amountS", PInt (amountS order_details));
     ("amountB", PInt (amountB order_details))].

(** [place_order(self, client_order_id, trading_pair, amount, is_buy,
    order_type, price)] *)
Definition place_order (client_order_id pair : string) (amount : Decimal)
    (is_buy : bool) (order_type : OrderType) (price : Decimal) : M PyVal :=
  let order_side := if is_buy then BUY else SELL in
  ' (base, quote) <- lift (split_pair pair) ;;
  baseid <- lift (get_tokenid base) ;;
  quoteid <- lift (get_tokenid quote) ;;
  validSince <- gets (fun w => clock w - 3600) ;;
  order_details <- lift (sell_buy_amounts baseid quoteid amount price order_side) ;;
  let token_s_id := tokenSId order_details in
  order_id <- _get_next_order_id token_s_id false ;;
  exchange <- gets loopring_exchangeid ;;
  account <- gets loopring_accountid ;;
  let order :=
    order_dict exchange account order_id validSince order_side client_order_id
      order_details in
  serialized_message <- lift (_serialize_order order) ;;
  record_crypto (PoseidonHash serialized_message) ;;
  msgHash <- lift (poseidon serialized_message) ;;
  fq_obj <- (private_key <- gets loopring_private_key ;;
             lift (int_of_string private_key)) ;;
  record_crypto (EdDSASign msgHash fq_obj) ;;
  ' (rx, ry, s) <- lift (eddsa_sign msgHash fq_obj) ;;
  (* Update with signature *)
  let order :=
    dict_update order
      [("hash", PStr (str_of_Z msgHash));
       ("signatureRx", PStr (str_of_Z rx));
       ("signatureRy", PStr (str_of_Z ry));
       ("signatureS", PStr (str_of_Z s))] in
  api_request "POST" ORDER_ROUTE (Some order) (Some order) None false.

(** [self._trading_rules[trading_pair]] *)
Definition trading_rule_of (pair : string) : M TradingRule :=
  rules <- gets _trading_rules ;;
  match dict_get rules pair with
  | Some r => ret r
  | None => raise (KeyError (PStr pair))
  end.

(** [c_get_order_price_quantum(self, trading_pair, price)] *)
Definition c_get_order_price_quantum (pair : string) (price : Decimal) : M Decimal :=
  r <- trading_rule_of pair ;; ret (min_price_increment r).

(** [c_get_order_size_quantum(self, trading_pair, order_size)] *)
Definition c_get_order_size_quantum (pair : string) (order_size : Decimal) : M Decimal :=
  r <- trading_rule_of pair ;; ret (min_base_amount_increment r).

(** [c_quantize_order_price(self, trading_pair, price)] *)
Definition c_quantize_order_price (pair : string) (price : Decimal) : M Decimal :=
  quantum <- c_get_order_price_quantum pair price ;;
  lift (quantize_down price quantum).

(** [c_quantize_order_amount(self, trading_pair, amount, price = 0.0)];
    [price = None] stands for the argument left out, the float [0.0], for
    which [price > 0] is false. *)
Definition c_quantize_order_amount (pair : string) (amount : Decimal)
    (price : option Decimal) : M Decimal :=
  quantum <- c_get_order_size_quantum pair amount ;;
  quantized_amount <- lift (quantize_down amount quantum) ;;
  rules <- trading_rule_of pair ;;
  below_min <- lift (dec_lt quantized_amount (min_order_size rules)) ;;
  if below_min then ret s_decimal_0
  else
    below_notional <-
      match price with
      | None => ret false
      | Some p =>
          positive <- lift (dec_gt p (Fin false 0 0)) ;;
          if positive then
            notional <- lift (dec_mul p quantized_amount) ;;
            lift (dec_lt notional (min_notional_size rules))
          else ret false
      end ;;
    if below_notional then ret s_decimal_0 else ret quantized_amount.

(** [start_tracking(self, in_flight_order)] *)
Definition start_tracking (in_flight_order : InFlightOrder) : M unit :=
  modify (fun w =>
    with_in_flight_orders
      (dict_set (_in_flight_orders w) (io_client_order_id in_flight_order) in_flight_order) w).

(** [stop_tracking(self, client_order_id)] *)
Definition stop_tracking (client_order_id : string) : M unit :=
  modify (fun w =>
    if dict_mem (_in_flight_orders w) client_order_id
    then with_in_flight_orders (dict_del (_in_flight_orders w) client_order_id) w
    else w).

(** [c_stop_tracking_order(self, order_id)] *)
Definition c_stop_tracking_order (order_id : string) : M unit :=
  modify (fun w =>
    if dict_mem (_in_flight_orders w) order_id
    then with_in_flight_orders (dict_del (_in_flight_orders w) order_id) w
    else w).

(** [execute_order(self, order_side, client_order_id, trading_pair, amount,
    order_type, price)] *)
Definition execute_order (order_side : TradeType) (client_order_id pair : string)
    (amount : Decimal) (order_type : OrderType) (price : Decimal) : M unit :=
  (* Quantize order *)
  amount <- c_quantize_order_amount pair amount None ;;
  price <- c_quantize_order_price pair price ;;
  (* Check trading rules *)
  trading_rule <- trading_rule_of pair ;;
  (if OrderType_eqb order_type LIMIT && negb (supports_limit_orders trading_rule)
   then raise (ValueError [FStr "LIMIT orders are not supported"])
   else if OrderType_eqb order_type MARKET && negb (supports_market_orders trading_rule)
   then raise (ValueError [FStr "MARKET orders are not supported"])
   else ret tt) ;;
  too_small <- lift (dec_lt amount (min_order_size trading_rule)) ;;
  (if too_small
   then raise (ValueError [FStr "Order amount("; FDec amount;
                           FStr ") is less than the minimum allowable amount(";
                           FDec (min_order_size trading_rule); FStr ")"])
   else ret tt) ;;
  too_large <- lift (dec_gt amount (max_order_size trading_rule)) ;;
  (if too_large
   then raise (ValueError [FStr "Order amount("; FDec amount;
                           FStr ") is greater than the maximum allowable amount(";
                           FDec (max_order_size trading_rule); FStr ")"])
   else ret tt) ;;
  notional <- lift (dec_mul amount price) ;;
  too_cheap <- lift (dec_lt notional (min_notional_size trading_rule)) ;;
  (if too_cheap
   then raise (ValueError [FStr "Order notional value("; FDec notional;
                           FStr ") is less than the minimum allowable notional value for an order (";
                           FDec (min_notional_size trading_rule); FStr ")"])
   else ret tt) ;;
  try_except
    (created_at <- gets clock ;;
     creation_response <-
       place_order client_order_id pair amount (TradeType_eqb order_side BUY)
         order_type price ;;
     (* Verify the response from the exchange *)
     has_data <- lift (py_has_key creation_response "data") ;;
     (if negb has_data then
        info <- lift (py_getitem creation_response "resultInfo") ;;
        message <- lift (py_getitem info "message") ;;
        raise (PlainException [FVal message])
      else ret tt) ;;
     loopring_order <- lift (py_getitem creation_response "data") ;;
     (* Begin tracking order *)
     in_flight_order <-
       lift (from_loopring_order order_side client_order_id created_at
               loopring_order pair price amount) ;;
     start_tracking in_flight_order ;;
     log INFO [FStr "Created "; FStr (io_description in_flight_order); FStr " order ";
               FStr client_order_id; FStr " for "; FDec amount; FStr " "; FStr pair;
               FStr "."])
    any_Exception
    (fun e =>
       log WARNING [FStr "Error submitting "; FStr (TradeType_name order_side); FStr " ";
                    FStr (OrderType_name order_type); FStr " order to Loopring for ";
                    FDec amount; FStr " "; FStr pair; FStr " at "; FDec price; FStr "."] ;;
       log INFO (exn_msg e) ;;
       (* Re-sync our next order id after this failure *)
       ' (base, quote) <- lift (split_pair pair) ;;
       token_sell_id <-
         lift (match order_side with
               | SELL => get_tokenid base
               | BUY => get_tokenid quote
               end) ;;
       _get_next_order_id token_sell_id true ;;
       (* Stop tracking this order *)
       stop_tracking client_order_id ;;
       ts <- now ;;
       c_trigger_event ORDER_FAILURE_EVENT
         (MarketOrderFailureEvent ts client_order_id order_type)).

(** [execute_buy(self, order_id, trading_pair, amount, order_type, price)] *)
Definition execute_buy (order_id pair : string) (amount : Decimal)
    (order_type : OrderType) (price : Decimal) : M unit :=
  try_except
    (execute_order BUY order_id pair amount order_type price ;;
     ts <- now ;;
     c_trigger_event BUY_ORDER_CREATED_EVENT
       (BuyOrderCreatedEvent ts order_type pair amount price order_id))
    is_ValueError
    (fun e =>
       (* Stop tracking this order *)
       stop_tracking order_id ;;
       ts <- now ;;
       c_trigger_event ORDER_FAILURE_EVENT (MarketOrderFailureEvent ts order_id order_type) ;;
       raise e).

(** [execute_sell(self, order_id, trading_pair, amount, order_type, price)] *)
Definition execute_sell (order_id pair : string) (amount : Decimal)
    (order_type : OrderType) (price : Decimal) : M unit :=
  try_except
    (execute_order SELL order_id pair amount order_type price ;;
     ts <- now ;;
     c_trigger_event SELL_ORDER_CREATED_EVENT
       (SellOrderCreatedEvent ts order_type pair amount price order_id))
    is_ValueError
    (fun e =>
       (* Stop tracking this order *)
       stop_tracking order_id ;;
       ts <- now ;;
       c_trigger_event ORDER_FAILURE_EVENT (MarketOrderFailureEvent ts order_id order_type) ;;
       raise e).

(** [cancel_order(self, client_order_id)] *)
Definition cancel_order (client_order_id : string) : M unit :=
  in_flight_order <- gets (fun w => dict_get (_in_flight_orders w) client_order_id) ;;
  ts <- now ;;
  let cancellation_event := OrderCancelledEvent ts client_order_id in
  match in_flight_order with
  | None => c_trigger_event ORDER_CANCELLED_EVENT cancellation_event
  | Some _ =>
      try_except
        (account <- gets loopring_accountid ;;
         let cancellation_payload :=
           [("accountId", PInt account); ("clientOrderId", PStr client_order_id)] in
         api_request "DELETE" ORDER_CANCEL_ROUTE None (Some cancellation_payload)
           None true ;;
         log INFO [FStr "Successfully cancelled order "; FStr client_order_id] ;;
         stop_tracking client_order_id ;;
         c_trigger_event ORDER_CANCELLED_EVENT cancellation_event)
        any_Exception
        (fun e =>
           log INFO [FStr "Failed to cancel order "; FStr client_order_id] ;;
           log DEBUG (exn_msg e))
  end.

(** The loop of [cancel_all] over the copied registry. *)
Fixpoint cancel_each (queue : list (string * InFlightOrder))
    (results : list CancellationResult) : M (list CancellationResult) :=
  match queue with
  | [] => ret results
  | (order_id, in_flight) :: rest =>
      results <-
        try_except
          (cancel_order order_id ;;
           ret (results ++ [mkCancellationResult order_id true])%list)
          any_Exception
          (fun _ => ret (results ++ [mkCancellationResult order_id false])%list) ;;
      cancel_each rest results
  end.

(** [cancel_all(self, timeout_seconds)] *)
Definition cancel_all (timeout_seconds : Q) : M (list CancellationResult) :=
  cancellation_queue <- gets _in_flight_orders ;;
  cancel_each cancellation_queue [].

(** One round of the loop of [_update_inflight_order]: issue the event, then
    complete the order if it is done.  [tracked_order] is the order as
    [update] left it. *)
Definition issue_event (tracked_order : InFlightOrder)
    (issuable : MarketEvent * Decimal * Decimal * Decimal) : M unit :=
  let '(market_event, new_amount, new_price, new_fee) := issuable in
  let id := io_client_order_id tracked_order in
  ts <- gets _current_timestamp ;;
  (if MarketEvent_eqb market_event OrderCancelled then
     (* the event is built from [client_order_id], a name this method never binds *)
     raise (NameError "client_order_id")
   else if MarketEvent_eqb market_event OrderFilled then
     c_trigger_event ORDER_FILLED_EVENT
       (OrderFilledEvent ts id (io_trading_pair tracked_order)
          (io_trade_type tracked_order) (io_order_type tracked_order)
          new_price new_amount (io_quote_asset tracked_order) new_fee id)
   else if MarketEvent_eqb market_event OrderExpired then
     c_trigger_event ORDER_EXPIRED_EVENT (OrderExpiredEvent ts id)
   else if MarketEvent_eqb market_event OrderFailure then
     c_trigger_event ORDER_FAILURE_EVENT
       (MarketOrderFailureEvent ts id (io_order_type tracked_order))
   else ret tt) ;;
  (* Complete the order if relevent *)
  if io_is_done tracked_order then
    (if negb (io_is_failure tracked_order) then
       let fee_asset :=
         match io_fee_asset tracked_order with
         | Some (String c r) => String c r
         | _ => io_quote_asset tracked_order
         end in
       match io_trade_type tracked_order with
       | BUY =>
           log INFO [FStr "The market buy order "; FStr id;
                     FStr " has completed according to user stream."] ;;
           c_trigger_event BUY_ORDER_COMPLETED_EVENT
             (BuyOrderCompletedEvent ts id (io_base_asset tracked_order)
                (io_quote_asset tracked_order) fee_asset
                (io_executed_amount_base tracked_order)
                (io_executed_amount_quote tracked_order)
                (io_fee_paid tracked_order) (io_order_type tracked_order))
       | SELL =>
           log INFO [FStr "The market sell order "; FStr id;
                     FStr " has completed according to user stream."] ;;
           c_trigger_event SELL_ORDER_COMPLETED_EVENT
             (SellOrderCompletedEvent ts id (io_base_asset tracked_order)
                (io_quote_asset tracked_order) fee_asset
                (io_executed_amount_base tracked_order)
                (io_executed_amount_quote tracked_order)
                (io_fee_paid tracked_order) (io_order_type tracked_order))
       end
     else if io_is_cancelled tracked_order then
       tracked <- gets (fun w => dict_mem (_in_flight_orders w) id) ;;
       if tracked
       then log INFO [FStr "Successfully cancelled order "; FStr id; FStr "."]
       else ret tt
     else
       log INFO [FStr "The market order "; FStr id;
                 FStr " has failed according to order status API."]) ;;
    c_stop_tracking_order id
  else ret tt.

Fixpoint issue_events (tracked_order : InFlightOrder)
    (issuable_events : list (MarketEvent * Decimal * Decimal * Decimal)) : M unit :=
  match issuable_events with
  | [] => ret tt
  | ev :: rest => issue_event tracked_order ev ;; issue_events tracked_order rest
  end.

(** [_update_inflight_order(self, tracked_order, event)].  The order object
    is the one the registry holds, so it is named here by the key it is
    stored under, and [update]'s mutation lands in the registry. *)
Definition _update_inflight_order (key : string) (tracked_order : InFlightOrder)
    (event : PyVal) : M unit :=
  ' (issuable_events, updated) <- lift (io_update tracked_order event) ;;
  modify (fun w =>
    if dict_mem (_in_flight_orders w) key
    then with_in_flight_orders (dict_set (_in_flight_orders w) key updated) w
    else w) ;;
  (* Issue relevent events *)
  issue_events updated issuable_events.

(** An assignment to a local annotated [str]: a string or [None]. *)
Definition as_str (v : PyVal) : Res (option string) :=
  match v with
  | PStr s => Ok (Some s)
  | PNone => Ok None
  | _ => Raise (TypeError "Expected str")
  end.

(** The body of the loop of [_user_stream_event_listener], for one message
    taken from the user stream. *)
Definition user_stream_step (event_message : string) : M unit :=
  try_except
    (event <- lift (json_loads event_message) ;;
     topic_obj <- lift (py_getitem event "topic") ;;
     topic_val <- lift (py_getitem topic_obj "topic") ;;
     topic <- lift (as_str topic_val) ;;
     data <- lift (py_getitem event "data") ;;
     match topic with
     | Some "account" =>
         (* [self._set_balances([data])] builds a coroutine that is never
            awaited: nothing runs *)
         ret tt
     | Some "order" =>
         id_val <- lift (py_getitem data "clientOrderId") ;;
         client_order_id <- lift (as_str id_val) ;;
         tracked_order <-
           gets (fun w =>
                   match client_order_id with
                   | Some id => dict_get (_in_flight_orders w) id
                   | None => None
                   end) ;;
         match client_order_id, tracked_order with
         | Some id, Some order =>
             (* update the tracked order *)
             _update_inflight_order id order data
         | _, _ =>
             log DEBUG [FStr "Unrecognized order ID from user stream: "; FVal id_val;
                        FStr "."] ;;
             log DEBUG [FStr "Event: "; FStr event_message]
             (* continue *)
         end
     | Some "sub" => ret tt
     | Some "unsub" => ret tt
     | _ =>
         log DEBUG [FStr "Unrecognized user stream event topic: "; FVal topic_val;
                    FStr "."]
     end)
    any_Exception
    (fun _ => log ERROR [FStr "Unexpected error in user stream listener loop."]).

(** [asyncio.gather(m1, m2)]: both requests go out, in this order; the
    first exception, if any, is the one raised. *)
Definition gather2 {A B} (m1 : M A) (m2 : M B) : M (A * B) :=
  fun w =>
    let '(r1, w1) := m1 w in
    let '(r2, w2) := m2 w1 in
    match r1, r2 with
    | Ok a, Ok b => (Ok (a, b), w2)
    | Raise e, _ => (Raise e, w2)
    | _, Raise e => (Raise e, w2)
    end.

(** [for x in v] *)
Fixpoint chars (s : string) : list PyVal :=
  match s with
  | EmptyString => []
  | String c r => PStr (String c EmptyString) :: chars r
  end.

Definition py_iter (v : PyVal) : Res (list PyVal) :=
  match v with
  | PList l => Ok l
  | PDict d => Ok (map (fun kv => PStr (fst kv)) d)
  | PStr s => Ok (chars s)
  | _ => Raise (TypeError "object is not iterable")
  end.

(** [{t['tokenId']: t for t in tokens_info}] *)
Fixpoint tokens_by_id (tokens : list PyVal) (acc : Dict HKey PyVal) : Res (Dict HKey PyVal) :=
  match tokens with
  | [] => Ok acc
  | t :: rest =>
      match py_getitem t "tokenId" with
      | Raise e => Raise e
      | Ok id =>
          match to_key id with
          | Raise e => Raise e
          | Ok k => tokens_by_id rest (dict_set acc k t)
          end
      end
  end.

(** [tokens_info[id]] *)
Definition token_info (tokens_info : Dict HKey PyVal) (id : PyVal) : Res PyVal :=
  match to_key id with
  | Raise e => Raise e
  | Ok k =>
      match dict_get tokens_info k with
      | Some t => Ok t
      | None => Raise (KeyError id)
      end
  end.

(** The [TradingRule(...)] of one market, its arguments evaluated in the
    order written.  [trading_pair] is a [str] parameter of a compiled class:
    it takes a [str] or [None] and refuses anything else.  The table is kept
    at its [str] keys, the ones a trading pair looks up; a rule whose market
    name is [None] is built and filed under [None], which leaves these keys
    as they are, and is returned here as [None]. *)
Definition market_rule (tokens_info : Dict HKey PyVal) (market baseid quoteid : PyVal)
    : M (option TradingRule) :=
  name_val <- lift (py_getitem market "market") ;;
  base_info <- lift (token_info tokens_info baseid) ;;
  min_amount <- lift (py_getitem base_info "minOrderAmount") ;;
  v_min_order_size <- lift (unpad min_amount baseid) ;;
  base_info <- lift (token_info tokens_info baseid) ;;
  max_amount <- lift (py_getitem base_info "maxOrderAmount") ;;
  v_max_order_size <- lift (unpad max_amount baseid) ;;
  price_precision <- lift (py_getitem market "precisionForPrice") ;;
  v_min_price_increment <- lift (decimal_1e_minus price_precision) ;;
  base_info <- lift (token_info tokens_info baseid) ;;
  base_precision <- lift (py_getitem base_info "precision") ;;
  v_min_base_amount_increment <- lift (decimal_1e_minus base_precision) ;;
  quote_info <- lift (token_info tokens_info quoteid) ;;
  quote_precision <- lift (py_getitem quote_info "precision") ;;
  v_min_quote_amount_increment <- lift (decimal_1e_minus quote_precision) ;;
  quote_info <- lift (token_info tokens_info quoteid) ;;
  min_quote <- lift (py_getitem quote_info "minOrderAmount") ;;
  v_min_notional_size <- lift (unpad min_quote quoteid) ;;
  match name_val with
  | PStr name =>
      ret (Some (mkTradingRule name v_min_order_size v_max_order_size
                   v_min_price_increment v_min_base_amount_increment
                   v_min_quote_amount_increment v_min_notional_size
                   true    (* supports_limit_orders *)
                   false   (* supports_market_orders *)))
  | PNone => ret None
  | _ => raise (TypeError "Argument 'trading_pair' has incorrect type")
  end.

(** The loop of [_update_trading_rules] over the markets. *)
Fixpoint update_rules_each (tokens_info : Dict HKey PyVal) (markets : list PyVal) : M unit :=
  match markets with
  | [] => ret tt
  | market :: rest =>
      enabled <- lift (py_getitem market "enabled") ;;
      (if py_eq_True enabled then
         baseid <- lift (py_getitem market "baseTokenId") ;;
         quoteid <- lift (py_getitem market "quoteTokenId") ;;
         try_except
           (rule <- market_rule tokens_info market baseid quoteid ;;
            match rule with
            | Some rule =>
                modify (fun w =>
                  with_trading_rules
                    (dict_set (_trading_rules w) (trading_pair rule) rule) w)
            | None => ret tt
            end)
           any_Exception
           (fun e =>
              log DEBUG [FStr "Error updating trading rules"] ;;
              log DEBUG (exn_msg e))
       else ret tt) ;;
      update_rules_each tokens_info rest
  end.

(** [_update_trading_rules(self)] *)
Definition _update_trading_rules : M unit :=
  ' (markets_info, tokens_info) <-
    gather2 (api_request "GET" MARKETS_INFO_ROUTE None None None false)
            (api_request "GET" TOKENS_INFO_ROUTE None None None false) ;;
  (* Loopring fees not available from api *)
  markets_info <- lift (py_getitem markets_info "data") ;;
  tokens_info <- lift (py_getitem tokens_info "data") ;;
  tokens <- lift (py_iter tokens_info) ;;
  tokens_info <- lift (tokens_by_id tokens []) ;;
  markets <- lift (py_iter markets_info) ;;
  update_rules_each tokens_info markets.

End Methods.

(** ** Further methods, and the helpers of the module *)

(** [NetworkStatus], the two members the connector returns *)
Inductive NetworkStatus : Type := NOT_CONNECTED | CONNECTED.

(** The loop of [Decimal.normalize]: drop trailing zeros of the coefficient
    while the exponent is below [exp_max].  A coefficient that is not zero
    has fewer trailing zeros than bits, which bounds the loop. *)
Fixpoint strip_zeros (fuel : nat) (c : N) (e exp_max : Z) : N * Z :=
  match fuel with
  | O => (c, e)
  | S f =>
      if ((c mod 10 =? 0)%N && (e <? exp_max))%bool
      then strip_zeros f (c / 10)%N (e + 1) exp_max
      else (c, e)
  end.

(** [self.normalize()]: round to the context, then reduce to the shortest
    coefficient; a zero becomes [0] with exponent 0. *)
Definition normalize (d : Decimal) : Res Decimal :=
  match d with
  | NaN true => Raise (InvalidOperation "sNaN")
  | NaN false => Ok (NaN false)
  | Inf s => Ok (Inf s)
  | Fin s c e =>
      match dec_fix s c e with
      | Raise err => Raise err
      | Ok (Fin s' c' e') =>
          if (c' =? 0)%N then Ok (Fin s' 0 0)
          else
            let '(c'', e'') := strip_zeros (N.to_nat (N.size c')) c' e' Emax in
            Ok (Fin s' c'' e'')
      | Ok dup => Ok dup
      end
  end.

(** [num_d(amount)] for a [Decimal] argument, which [Decimal(amount)] hands
    back as it is.  The exponent of an infinity or a NaN is a letter, and
    [abs] of it a TypeError. *)
Definition num_d (amount : Decimal) : Res Z :=
  match normalize amount with
  | Raise err => Raise err
  | Ok (Fin _ _ e) => Ok (Z.abs e)
  | Ok _ => Raise (TypeError "bad operand type for abs(): 'str'")
  end.

Section FurtherMethods.
Context {C : Collaborators}.
Local Open Scope stmt_scope.

Definition GET_ORDER_ROUTE : string := "/api/v2/order".
Definition EXCHANGE_INFO_ROUTE : string := "api/v2/timestamp".

(** [check_network(self)] *)
Definition check_network : M NetworkStatus :=
  early <-
    try_except
      (api_request "GET" EXCHANGE_INFO_ROUTE None None None false ;;
       ret None)
      any_Exception
      (fun _ => ret (Some NOT_CONNECTED)) ;;
  match early with
  | Some status => ret status
  | None => ret CONNECTED
  end.

(** The loop of [_update_order_status] over the copied registry.  The copy
    is shallow: [tracked_order] is the object the registry holds under
    [client_order_id], and within one run nothing else touches it before its
    turn.  The last log line reads the order after [update] has run on it. *)
Fixpoint update_status_each (tracked_orders : list (string * InFlightOrder)) : M unit :=
  match tracked_orders with
  | [] => ret tt
  | (client_order_id, tracked_order) :: rest =>
      data <-
        try_except
          (account <- gets loopring_accountid ;;
           loopring_order_request <-
             api_request "GET" GET_ORDER_ROUTE None
               (Some [("accountId", PInt account);
                      ("orderHash", PStr (io_exchange_order_id tracked_order))])
               None false ;;
           data <- lift (py_getitem loopring_order_request "data") ;;
           ret (Some data))
          any_Exception
          (fun _ =>
             log WARNING [FStr "Failed to fetch tracked Loopring order ";
                          FStr (io_exchange_order_id tracked_order);
                          FStr " from api"] ;;
             ret None (* continue *)) ;;
      match data with
      | None => ret tt
      | Some data =>
          try_except
            (_update_inflight_order client_order_id tracked_order data)
            any_Exception
            (fun e =>
               let after :=
                 match io_update tracked_order data with
                 | Ok (_, updated) => updated
                 | Raise _ => tracked_order
                 end in
               log WARNING [FStr "Failed to update Loopring order ";
                            FStr (io_exchange_order_id after)] ;;
               log ERROR (exn_msg e))
      end ;;
      update_status_each rest
  end.

(** [_update_order_status(self)] *)
Definition _update_order_status : M unit :=
  tracked_orders <- gets _in_flight_orders ;;
  update_status_each tracked_orders.

(** [<int64_t> n] for a Python [int]: the value itself when it fits 64
    bits, [OverflowError] when it does not. *)
Definition INT64_MIN : Z := - 2 ^ 63.
Definition INT64_MAX : Z := 2 ^ 63 - 1.

Definition as_int64 (n : Z) : Res Z :=
  if (INT64_MIN <=? n) && (n <=? INT64_MAX) then Ok n
  else Raise (OverflowError "Python int too large to convert to C long").

(** [c_buy(self, trading_pair, amount, order_type, price)]: the client order
    id that is returned and the submission that is scheduled under it.
    [nonce] is what [get_tracking_nonce()] returned; when it does not fit
    the [int64_t] local the method raises, returns no id and schedules
    nothing. *)
Definition c_buy (pair : string) (amount : Decimal) (order_type : OrderType)
    (price : Decimal) (nonce : Z) : Res (string * M unit) :=
  match as_int64 nonce with
  | Raise e => Raise e
  | Ok tracking_nonce =>
      let client_order_id := "buy-" ++ pair ++ "-" ++ str_of_Z tracking_nonce in
      Ok (client_order_id, execute_buy client_order_id pair amount order_type price)
  end.

(** [c_sell(self, trading_pair, amount, order_type, price)] *)
Definition c_sell (pair : string) (amount : Decimal) (order_type : OrderType)
    (price : Decimal) (nonce : Z) : Res (string * M unit) :=
  match as_int64 nonce with
  | Raise e => Raise e
  | Ok tracking_nonce =>
      let client_order_id := "sell-" ++ pair ++ "-" ++ str_of_Z tracking_nonce in
      Ok (client_order_id, execute_sell client_order_id pair amount order_type price)
  end.

(** The saved form of an order is the in-flight order class's business:
    [to_json] and [from_json] are its two methods. *)
Section TrackingStates.
Context {Json : Type}.
Variable to_json : InFlightOrder -> Json.
Variable from_json : Json -> Res InFlightOrder.

(** [tracking_states(self)] *)
Definition tracking_states : M (Dict string Json) :=
  registry <- gets _in_flight_orders ;;
  ret (fold_left (fun acc kv => dict_set acc (fst kv) (to_json (snd kv))) registry []).

(** The loop of [restore_tracking_states]. *)
Fixpoint restore_each (saved_states : list (string * Json)) : M unit :=
  match saved_states with
  | [] => ret tt
  | (order_id, in_flight_json) :: rest =>
      order <- lift (from_json in_flight_json) ;;
      modify (fun w =>
        with_in_flight_orders (dict_set (_in_flight_orders w) order_id order) w) ;;
      restore_each rest
  end.

(** [restore_tracking_states(self, saved_states)] *)
Definition restore_tracking_states (saved_states : Dict string Json) : M unit :=
  restore_each saved_states.

End TrackingStates.

End FurtherMethods.

(** ** A concrete setting

    To run the methods, the collaborators need bodies.  The ones below are
    small stand-ins with the right interfaces: token ids from a fixed table,
    amounts padded to 18 decimals, and arithmetic in place of the
    cryptographic primitives.  General statements never mention them; they
    serve the worked runs. *)

Record DemoOrder : Type := mkDemoOrder {
  demo_client_order_id : string;
  demo_exchange_order_id : string;
  demo_pair : string;
  demo_side : TradeType;
  demo_type : OrderType;
  demo_price : Decimal;
  demo_amount : Decimal
}.

(** The amount in units of [10^-18], as an integer *)
Definition demo_pad (d : Decimal) : Z :=
  match d with
  | Fin s c e => signed s (rescale_down c e (-18))
  | _ => 0
  end.

Definition demo_unpad (raw token : PyVal) : Res Decimal :=
  match py_int raw with
  | Ok z => Ok (Fin (z <? 0) (Z.to_N (Z.abs z)) (-18))
  | Raise e => Raise e
  end.

Definition demo_get_tokenid (symbol : string) : Res Z :=
  if String.eqb symbol "ETH" then Ok 0
  else if String.eqb symbol "LRC" then Ok 2
  else if String.eqb symbol "USDT" then Ok 3
  else Raise (KeyError (PStr symbol)).

Definition demo_sell_buy_amounts (baseid quoteid : Z) (amount price : Decimal)
    (side : TradeType) : Res OrderDetails :=
  match dec_mul amount price with
  | Raise e => Raise e
  | Ok quote_amount =>
      match side with
      | SELL => Ok (mkOrderDetails baseid quoteid (demo_pad amount) (demo_pad quote_amount))
      | BUY => Ok (mkOrderDetails quoteid baseid (demo_pad quote_amount) (demo_pad amount))
      end
  end.

Definition demo_field : Z :=
  21888242871839275222246405745257275088548364400416034343698204186575808495617.

Fixpoint string_sum (s : string) : Z :=
  match s with
  | EmptyString => 0
  | String c r => Z.of_nat (nat_of_ascii c) + 256 * string_sum r
  end.

(** The one push message the stand-in decoder knows: an update on topic
    [order] for the client order id [buy-LRC-ETH-9]. *)
Definition demo_push_message : string := "order-update:buy-LRC-ETH-9".

Definition demo_push_event : PyVal :=
  PDict [("topic", PDict [("topic", PStr "order"); ("market", PStr "LRC-ETH")]);
         ("data", PDict [("clientOrderId", PStr "buy-LRC-ETH-9");
                         ("status", PStr "processing")])].

Definition demo : Collaborators := {|
  InFlightOrder := DemoOrder;
  io_client_order_id := demo_client_order_id;
  io_exchange_order_id := demo_exchange_order_id;
  io_trading_pair := demo_pair;
  io_trade_type := demo_side;
  io_order_type := demo_type;
  io_base_asset := fun o => hd "" (split_on "-" (demo_pair o));
  io_quote_asset := fun o => hd "" (tl (split_on "-" (demo_pair o)));
  io_fee_asset := fun _ => None;
  io_executed_amount_base := fun _ => s_decimal_0;
  io_executed_amount_quote := fun _ => s_decimal_0;
  io_fee_paid := fun _ => s_decimal_0;
  io_is_done := fun _ => false;
  io_is_failure := fun _ => false;
  io_is_cancelled := fun _ => false;
  io_description := fun o => OrderType_name (demo_type o);
  io_update := fun o _ => Ok ([], o);
  from_loopring_order := fun side id created_at loopring_order pair price amount =>
    Ok (mkDemoOrder id (py_str_scalar loopring_order) pair side LIMIT price amount);
  get_tokenid := demo_get_tokenid;
  sell_buy_amounts := demo_sell_buy_amounts;
  unpad := demo_unpad;
  SNARK_SCALAR_FIELD := demo_field;
  poseidon := fun l => Ok (fold_left Z.add l 0 mod demo_field);
  eddsa_sign := fun h k => Ok (h, k, (h + k) mod demo_field);
  sha256_int := string_sum;
  generate_auth_dict := [("X-API-KEY", "demo-api-key")];
  json_loads := fun s =>
    if String.eqb s demo_push_message then Ok demo_push_event
    else Raise (ValueError [FStr "Expecting value"]);
  repr_container := fun _ => "..."
|}.

Section Fixtures.
#[local] Existing Instance demo.

(** 0.01 granularity for amounts, 1e-6 for prices, at least 1 LRC and a
    notional of at least 0.01 ETH per order: what [_update_trading_rules]
    writes for such a market. *)
Definition lrc_eth_rule : TradingRule :=
  mkTradingRule "LRC-ETH"
    (Fin false 1000000000000000000 (-18))        (* min_order_size = 1 *)
    (Fin false 1000000000000000000000000 (-18))  (* max_order_size = 1000000 *)
    (Fin false 1 (-6))
    (Fin false 1 (-2))
    (Fin false 1 (-18))
    (Fin false 10000000000000000 (-18))           (* min_notional_size = 0.01 *)
    true false.

(** The exchange is unreachable: every request times out. *)
Definition remote_down : list Request -> Request -> NetOutcome :=
  fun _ _ => Transport (IOError "timeout").

(** The exchange answers every request with [{"data": n}]. *)
Definition remote_data (v : PyVal) : list Request -> Request -> NetOutcome :=
  fun _ _ => Http 200 (Ok (PDict [("data", v)])).

Definition demo_markets : PyVal :=
  PDict [("data", PList [
    PDict [("market", PStr "LRC-ETH"); ("enabled", PBool true);
           ("baseTokenId", PInt 2); ("quoteTokenId", PInt 0);
           ("precisionForPrice", PInt 6)];
    PDict [("market", PStr "LRC-USDT"); ("enabled", PBool false);
           ("baseTokenId", PInt 2); ("quoteTokenId", PInt 3);
           ("precisionForPrice", PInt 4)]])].

Definition demo_tokens : PyVal :=
  PDict [("data", PList [
    PDict [("tokenId", PInt 0); ("symbol", PStr "ETH"); ("precision", PInt 18);
           ("minOrderAmount", PStr "10000000000000000");
           ("maxOrderAmount", PStr "1000000000000000000000")];
    PDict [("tokenId", PInt 2); ("symbol", PStr "LRC"); ("precision", PInt 2);
           ("minOrderAmount", PStr "1000000000000000000");
           ("maxOrderAmount", PStr "1000000000000000000000000")]])].

(** The exchange serves the market and token tables. *)
Definition remote_exchange_info : list Request -> Request -> NetOutcome :=
  fun _ rq =>
    if String.eqb (rq_url rq) (API_REST_ENDPOINT ++ MARKETS_INFO_ROUTE)
    then Http 200 (Ok demo_markets)
    else if String.eqb (rq_url rq) (API_REST_ENDPOINT ++ TOKENS_INFO_ROUTE)
    then Http 200 (Ok demo_tokens)
    else Http 404 (Ok PNone).

(** A connector for account 1234 on exchange 2, at time 1600000000, that has
    sent nothing yet. *)
Definition demo_world (rules : Dict string TradingRule)
    (registry : Dict string DemoOrder) (counters : Dict Z PyVal)
    (exchange : list Request -> Request -> NetOutcome) : World :=
  mkWorld 1234 2 "987654321" rules registry counters 1600000000 []
    1600000000 exchange [] [] [] [].

Definition demo_order (id : string) : DemoOrder :=
  mkDemoOrder id "0xabc" "LRC-ETH" BUY LIMIT (Fin false 1 (-3)) (Fin false 5 0).

End Fixtures.

(** ** A second setting, in which orders move

    [update] reads the status and the fills of the exchange's order record,
    and the decoder knows three push messages. *)

Record LiveOrder : Type := mkLiveOrder {
  live_client_order_id : string;
  live_exchange_order_id : string;
  live_pair : string;
  live_side : TradeType;
  live_status : string
}.

Definition live_fill (v : PyVal) : MarketEvent * Decimal * Decimal * Decimal :=
  (OrderFilled,
   match v with PInt z => Fin false (Z.to_N z) 0 | _ => s_decimal_0 end,
   Fin false 1 (-3),
   s_decimal_0).

Definition live_update (o : LiveOrder) (event : PyVal)
    : Res (list (MarketEvent * Decimal * Decimal * Decimal) * LiveOrder) :=
  match py_getitem event "status" with
  | Raise e => Raise e
  | Ok status =>
      let fills :=
        match py_getitem event "fills" with
        | Ok (PList l) => map live_fill l
        | _ => []
        end in
      let closing :=
        if py_eq_str status "cancelled"
        then [(OrderCancelled, s_decimal_0, s_decimal_0, s_decimal_0)]
        else if py_eq_str status "expired"
        then [(OrderExpired, s_decimal_0, s_decimal_0, s_decimal_0)]
        else if py_eq_str status "failed"
        then [(OrderFailure, s_decimal_0, s_decimal_0, s_decimal_0)]
        else [] in
      Ok ((fills ++ closing)%list,
          mkLiveOrder (live_client_order_id o) (live_exchange_order_id o)
            (live_pair o) (live_side o) (py_str_scalar status))
  end.

Definition live_account_event : PyVal :=
  PDict [("topic", PDict [("topic", PStr "account")]);
         ("data", PDict [("tokenId", PInt 2); ("totalAmount", PStr "5000000000000000000");
                         ("amountLocked", PStr "0")])].

Definition live_order_event (status : string) (fills : list PyVal) : PyVal :=
  PDict [("topic", PDict [("topic", PStr "order"); ("market", PStr "LRC-ETH")]);
         ("data", PDict [("clientOrderId", PStr "o1"); ("status", PStr status);
                         ("fills", PList fills)])].

Definition live_json_loads (s : string) : Res PyVal :=
  if String.eqb s "account-update" then Ok live_account_event
  else if String.eqb s "o1-cancelled" then Ok (live_order_event "cancelled" [])
  else if String.eqb s "o1-processed" then Ok (live_order_event "processed" [PInt 3; PInt 2])
  else Raise (ValueError [FStr "Expecting value"]).

Definition live : Collaborators := {|
  InFlightOrder := LiveOrder;
  io_client_order_id := live_client_order_id;
  io_exchange_order_id := live_exchange_order_id;
  io_trading_pair := live_pair;
  io_trade_type := live_side;
  io_order_type := fun _ => LIMIT;
  io_base_asset := fun o => hd "" (split_on "-" (live_pair o));
  io_quote_asset := fun o => hd "" (tl (split_on "-" (live_pair o)));
  io_fee_asset := fun _ => None;
  io_executed_amount_base := fun _ => s_decimal_0;
  io_executed_amount_quote := fun _ => s_decimal_0;
  io_fee_paid := fun _ => s_decimal_0;
  io_is_done := fun o =>
    existsb (String.eqb (live_status o)) ["processed"; "cancelled"; "expired"; "failed"];
  io_is_failure := fun o =>
    existsb (String.eqb (live_status o)) ["cancelled"; "expired"; "failed"];
  io_is_cancelled := fun o => String.eqb (live_status o) "cancelled";
  io_description := fun _ => "LIMIT";
  io_update := live_update;
  from_loopring_order := fun side id created_at loopring_order pair price amount =>
    Ok (mkLiveOrder id (py_str_scalar loopring_order) pair side "processing");
  get_tokenid := demo_get_tokenid;
  sell_buy_amounts := demo_sell_buy_amounts;
  unpad := demo_unpad;
  SNARK_SCALAR_FIELD := demo_field;
  poseidon := fun l => Ok (fold_left Z.add l 0 mod demo_field);
  eddsa_sign := fun h k => Ok (h, k, (h + k) mod demo_field);
  sha256_int := string_sum;
  generate_auth_dict := [("X-API-KEY", "demo-api-key")];
  json_loads := live_json_loads;
  repr_container := fun _ => "..."
|}.

Section LiveFixtures.
#[local] Existing Instance live.

Definition live_order (id : string) : LiveOrder :=
  mkLiveOrder id ("0x" ++ id) "LRC-ETH" BUY "processing".

(** A connector as [demo_world], with orders that move. *)
Definition live_world (registry : Dict string LiveOrder)
    (exchange : list Request -> Request -> NetOutcome) : World :=
  mkWorld 1234 2 "987654321" [] registry [] 1600000000 []
    1600000000 exchange [] [] [] [].

(** The exchange reports every order it is asked about in the given
    status, without fills. *)
Definition remote_status (status : string) : list Request -> Request -> NetOutcome :=
  fun _ _ => Http 200 (Ok (PDict [("data", PDict [("status", PStr status)])])).

(** The exchange answers everything with an error status. *)
Definition remote_refuses : list Request -> Request -> NetOutcome :=
  fun _ _ => Http 500 (Ok PNone).

(** The exchange times out on every order that is posted and answers
    everything else with [{"data": 9}]. *)
Definition remote_rejects_orders : list Request -> Request -> NetOutcome :=
  fun _ rq =>
    if String.eqb (rq_method rq) "POST" then Transport (IOError "timeout")
    else Http 200 (Ok (PDict [("data", PInt 9)])).

(** The token table of [demo_tokens], by token id. *)
Definition demo_token_table : Dict HKey PyVal :=
  [(HInt 0,
    PDict [("tokenId", PInt 0); ("symbol", PStr "ETH"); ("precision", PInt 18);
           ("minOrderAmount", PStr "10000000000000000");
           ("maxOrderAmount", PStr "1000000000000000000000")]);
   (HInt 2,
    PDict [("tokenId", PInt 2); ("symbol", PStr "LRC"); ("precision", PInt 2);
           ("minOrderAmount", PStr "1000000000000000000");
           ("maxOrderAmount", PStr "1000000000000000000000000")])].

(** The two entries of [demo_markets]. *)
Definition demo_market_lrc_eth : PyVal :=
  PDict [("market", PStr "LRC-ETH"); ("enabled", PBool true);
         ("baseTokenId", PInt 2); ("quoteTokenId", PInt 0);
         ("precisionForPrice", PInt 6)].

Definition demo_market_lrc_usdt : PyVal :=
  PDict [("market", PStr "LRC-USDT"); ("enabled", PBool false);
         ("baseTokenId", PInt 2); ("quoteTokenId", PInt 3);
         ("precisionForPrice", PInt 4)].

(** A saved form for the orders of this setting, and its reader. *)
Definition live_to_json (o : LiveOrder) : PyVal :=
  PDict [("client_order_id", PStr (live_client_order_id o));
         ("exchange_order_id", PStr (live_exchange_order_id o));
         ("trading_pair", PStr (live_pair o));
         ("trade_type", PStr (TradeType_name (live_side o)));
         ("last_state", PStr (live_status o))].

Definition live_from_json (j : PyVal) : Res LiveOrder :=
  match py_getitem j "client_order_id", py_getitem j "exchange_order_id",
        py_getitem j "trading_pair", py_getitem j "trade_type",
        py_getitem j "last_state" with
  | Ok (PStr id), Ok (PStr hash), Ok (PStr market), Ok (PStr side), Ok (PStr status) =>
      Ok (mkLiveOrder id hash market (if String.eqb side "BUY" then BUY else SELL) status)
  | _, _, _, _, _ => Raise (KeyError (PStr "client_order_id"))
  end.

End LiveFixtures.

(** ** Vocabulary of the specification *)

Section Vocabulary.
Context {C : Collaborators}.
Local Open Scope stmt_scope.

(** [n] calls of the allocator in a row for one token, none forcing a
    resync; the values they return, in call order. *)
Fixpoint allocate_many (n : nat) (token : Z) : M (list PyVal) :=
  match n with
  | O => ret []
  | S k =>
      v <- _get_next_order_id token false ;;
      vs <- allocate_many k token ;;
      ret (v :: vs)
  end.

(** The parameters of the allocator's remote query. *)
Definition next_id_params (w : World) (token : Z) : Dict string PyVal :=
  [("accountId", PInt (loopring_accountid w)); ("tokenSId", PInt token)].

(** An increment of the form [1e<t>], which is what [Decimal(f"1e-{p}")]
    yields. *)
Definition power_of_ten (d : Decimal) : Prop := exists t : Z, d = Fin false 1 t.

(** What every rule built by [_update_trading_rules] looks like. *)
Definition written_rule (r : TradingRule) : Prop :=
  supports_limit_orders r = true /\
  supports_market_orders r = false /\
  power_of_ten (min_price_increment r) /\
  power_of_ten (min_base_amount_increment r) /\
  power_of_ten (min_quote_amount_increment r).

Definition rules_written (rules : Dict string TradingRule) : Prop :=
  forall pair r, dict_get rules pair = Some r -> written_rule r.


(** [q] is [x] rounded toward zero to a multiple of [step]. *)
Definition toward_zero (x step q : Decimal) : Prop :=
  (exists k : Z, dec_Q q == inject_Z k * dec_Q step)%Q /\
  (Qabs (dec_Q q) <= Qabs (dec_Q x))%Q /\
  (Qabs (dec_Q x) - Qabs (dec_Q q) < dec_Q step)%Q /\
  (0 <= dec_Q x * dec_Q q)%Q.

(** The order-failure events among [evs] that name [order_id]. *)
Definition failure_events (order_id : string) (evs : list (MarketEvent * EventObj))
    : list (MarketEvent * EventObj) :=
  filter (fun ev =>
            match ev with
            | (OrderFailure, MarketOrderFailureEvent _ id _) => String.eqb id order_id
            | _ => false
            end) evs.

(** The parameters rendered as [key=value], joined by ["&"]. *)
Definition params_string (params : Dict string PyVal) : string :=
  join "&" (map (fun kv => fst kv ++ "=" ++ py_str (snd kv)) params).

(** The canonical string of a signed request:
    [METHOD&urlencode(URL)&urlencode(params)]. *)
Definition canonical_string (method full_url : string) (params : Dict string PyVal) : string :=
  method ++ "&" ++ quote full_url ++ "&" ++ quote (params_string params).

(** What [stop_tracking] leaves of a state. *)
Definition untracked (id : string) (w : World) : World :=
  if dict_mem (_in_flight_orders w) id
  then with_in_flight_orders (dict_del (_in_flight_orders w) id) w
  else w.



(** The canonical order record of an order placed by [place_order]. *)
Definition canonical_order_record (exchange order_id account : Z)
    (details : OrderDetails) (validSince : Z) (side : TradeType) : list Z :=
  [exchange; order_id; account;
   tokenSId details; tokenBId details; amountS details; amountB details;
   0;                                   (* allOrNone *)
   validSince; validSince + 604800 * 5;
   63;                                  (* maxFeeBips *)
   match side with BUY => 1 | SELL => 0 end;
   20].                                 (* label *)


(** A statement that triggers nothing, or else returns normally having
    triggered just one order-failure event for [id]. *)
Definition at_most_one_failure (id : string) (type : OrderType) (m : M unit) : Prop :=
  forall w,
    events (snd (m w)) = events w \/
    (fst (m w) = Ok tt /\
     exists ts, events (snd (m w)) =
                  (events w ++ [(ORDER_FAILURE_EVENT, MarketOrderFailureEvent ts id type)])%list).

(** A method leaves a component of the state as it was, however it ends. *)
Definition preserves {A X} (f : World -> X) (m : M A) : Prop :=
  forall w, f (snd (m w)) = f w.

End Vocabulary.

(** ** Vocabulary of the further properties *)

Section FurtherVocabulary.
Context {C : Collaborators}.
Local Open Scope stmt_scope.

(** A body is posted: the headers start afresh from the content type. *)
Definition posts_body (method : string) (data : option (Dict string PyVal)) : bool :=
  match data with Some _ => String.eqb method "POST" | None => false end.

(** The call works on the shared default dictionary of headers. *)
Definition shares_headers (method : string) (data : option (Dict string PyVal))
    (headers : option (Dict string string)) : bool :=
  negb (posts_body method data) &&
  match headers with None => true | Some _ => false end.

(** The headers of an unsigned request. *)
Definition unsigned_headers (w : World) (method : string)
    (data : option (Dict string PyVal)) (headers : option (Dict string string))
    : Dict string string :=
  dict_update
    (if posts_body method data then [("Content-Type", "application/json")]
     else match headers with Some h => h | None => default_headers w end)
    generate_auth_dict.

(** The request an unsigned call of [api_request] sends. *)
Definition unsigned_request (w : World) (method url : string)
    (data params : option (Dict string PyVal)) (headers : option (Dict string string))
    : Request :=
  mkRequest method (API_REST_ENDPOINT ++ url) data params
    (unsigned_headers w method data headers).

(** The state once that request is out. *)
Definition after_unsigned_request (w : World) (method url : string)
    (data params : option (Dict string PyVal)) (headers : option (Dict string string))
    : World :=
  with_requests (requests w ++ [unsigned_request w method url data params headers])
    (if shares_headers method data headers
     then with_default_headers (unsigned_headers w method data headers) w
     else w).

(** One call of [api_request], as its caller writes it. *)
Record ApiCall : Type := mkApiCall {
  call_method : string;
  call_url : string;
  call_data : option (Dict string PyVal);
  call_params : option (Dict string PyVal);
  call_headers : option (Dict string string);
  call_secure : bool
}.

Definition run_call (c : ApiCall) : M PyVal :=
  api_request (call_method c) (call_url c) (call_data c) (call_params c)
    (call_headers c) (call_secure c).

(** The state after a run of calls, one after the other, whatever each of
    them returned or raised. *)
Fixpoint after_calls (calls : list ApiCall) (w : World) : World :=
  match calls with
  | [] => w
  | c :: rest => after_calls rest (snd (run_call c w))
  end.

(** The call signs, and works on the shared default dictionary. *)
Definition signs_shared_headers (c : ApiCall) : bool :=
  call_secure c && shares_headers (call_method c) (call_data c) (call_headers c).

(** The value of the [X-API-SIG] header for a signature. *)
Definition signature_of (rx ry s : Z) : string :=
  join "," [str_of_Z rx; str_of_Z ry; str_of_Z s].

(** The hash that is signed for a request. *)
Definition request_hash (method url : string) (params : Dict string PyVal) : Z :=
  sha256_int (canonical_string method (API_REST_ENDPOINT ++ url) params)
    mod SNARK_SCALAR_FIELD.

(** The headers of a signed request made without [headers] and without a
    body: the shared dictionary with the authentication entries and the
    signature. *)
Definition signed_headers (w : World) (signature : string) : Dict string string :=
  dict_update (dict_update (default_headers w) generate_auth_dict)
    [("X-API-SIG", signature)].

Definition signed_request (w : World) (method url : string)
    (params : Dict string PyVal) (signature : string) : Request :=
  mkRequest method (API_REST_ENDPOINT ++ url) None (Some params)
    (signed_headers w signature).

(** The state once that request is out. *)
Definition after_signed_request (w : World) (method url : string)
    (params : Dict string PyVal) (key : Z) (signature : string) : World :=
  with_requests (requests w ++ [signed_request w method url params signature])
    (with_default_headers (signed_headers w signature)
       (with_crypto_calls
          (crypto_calls w
           ++ [Sha256Hash (canonical_string method (API_REST_ENDPOINT ++ url) params);
               EdDSASign (request_hash method url params) key])
          w)).

(** The log line of [api_request] for a status other than 200. *)
Definition issue_line (method url : string) : LogLevel * Msg :=
  (INFO, [FStr "Issue with Loopring API "; FStr method; FStr " to "; FStr url;
          FStr ", response: "]).

(** The exchange answered with status 200 and a body that decodes. *)
Definition answers_ok (o : NetOutcome) : bool :=
  match o with
  | Http status (Ok _) => status =? 200
  | _ => false
  end.

(** The message of the error that [await response.text] ends in. *)
Definition await_method_error : Exn :=
  TypeError "object method can't be used in 'await' expression".

(** The events among [evs] with the tag [tag]. *)
Definition events_tagged (tag : MarketEvent) (evs : list (MarketEvent * EventObj))
    : list (MarketEvent * EventObj) :=
  filter (fun ev => MarketEvent_eqb (fst ev) tag) evs.

(** The cancellation event of [cancel_order] for [id] at state [w]. *)
Definition cancellation_of (w : World) (id : string) : MarketEvent * EventObj :=
  (ORDER_CANCELLED_EVENT, OrderCancelledEvent (clock w * 1000) id).

(** An order passes the checks of [execute_order] for the rule [rule], with
    [qa] and [qp] the quantized amount and price. *)
Definition passes_checks (rule : TradingRule) (order_type : OrderType)
    (amount price qa qp : Decimal) : Prop :=
  quantize_down amount (min_base_amount_increment rule) = Ok qa /\
  quantize_down price (min_price_increment rule) = Ok qp /\
  (OrderType_eqb order_type LIMIT && negb (supports_limit_orders rule) = false) /\
  (OrderType_eqb order_type MARKET && negb (supports_market_orders rule) = false) /\
  dec_lt qa (min_order_size rule) = Ok false /\
  dec_gt qa (max_order_size rule) = Ok false /\
  exists notional,
    dec_mul qa qp = Ok notional /\
    dec_lt notional (min_notional_size rule) = Ok false.

(** The order dictionary of [place_order] once the hash and the signature
    are in it. *)
Definition signed_order (w : World) (order_id : Z) (order_side : TradeType)
    (client_order_id : string) (order_details : OrderDetails)
    (msgHash rx ry s : Z) : Dict string PyVal :=
  dict_update
    (order_dict (loopring_exchangeid w) (loopring_accountid w) (PInt order_id)
       (clock w - 3600) order_side client_order_id order_details)
    [("hash", PStr (str_of_Z msgHash));
     ("signatureRx", PStr (str_of_Z rx));
     ("signatureRy", PStr (str_of_Z ry));
     ("signatureS", PStr (str_of_Z s))].

(** The token whose counter [execute_order] resyncs after a failure. *)
Definition resync_token (order_side : TradeType) (pair : string) : Res Z :=
  match split_pair pair with
  | Raise e => Raise e
  | Ok (base, quote) =>
      match order_side with
      | SELL => get_tokenid base
      | BUY => get_tokenid quote
      end
  end.

(** The name under which a market entry of the markets table would be
    written, if it is enabled and names a string. *)
Definition enabled_name (market : PyVal) : option string :=
  match py_getitem market "enabled", py_getitem market "market" with
  | Ok enabled, Ok (PStr name) => if py_eq_True enabled then Some name else None
  | _, _ => None
  end.

(** What one round of [_update_inflight_order] triggers for an order that is
    done and has not failed: the fill, then the completion. *)
Definition fill_and_completion (ts : Z) (o : InFlightOrder)
    (issuable : MarketEvent * Decimal * Decimal * Decimal)
    : list (MarketEvent * EventObj) :=
  let '(_, new_amount, new_price, new_fee) := issuable in
  let id := io_client_order_id o in
  let fee_asset :=
    match io_fee_asset o with
    | Some (String c r) => String c r
    | _ => io_quote_asset o
    end in
  [(ORDER_FILLED_EVENT,
    OrderFilledEvent ts id (io_trading_pair o) (io_trade_type o) (io_order_type o)
      new_price new_amount (io_quote_asset o) new_fee id);
   match io_trade_type o with
   | BUY =>
       (BUY_ORDER_COMPLETED_EVENT,
        BuyOrderCompletedEvent ts id (io_base_asset o) (io_quote_asset o) fee_asset
          (io_executed_amount_base o) (io_executed_amount_quote o) (io_fee_paid o)
          (io_order_type o))
   | SELL =>
       (SELL_ORDER_COMPLETED_EVENT,
        SellOrderCompletedEvent ts id (io_base_asset o) (io_quote_asset o) fee_asset
          (io_executed_amount_base o) (io_executed_amount_quote o) (io_fee_paid o)
          (io_order_type o))
   end].

(** The keys of a dictionary are pairwise different, as a Python [dict]
    has them. *)
Definition unique_keys {V} (d : Dict string V) : Prop := NoDup (dict_keys d).

(** The order-cancelled events triggered so far. *)
Definition cancellations (w : World) : list (MarketEvent * EventObj) :=
  events_tagged OrderCancelled (events w).

(** What identifies a request: method, URL and query parameters. *)
Definition request_line (rq : Request)
    : string * string * option (Dict string PyVal) :=
  (rq_method rq, rq_url rq, rq_params rq).

(** The status query for a tracked order. *)
Definition status_query (w : World) (o : InFlightOrder)
    : string * string * option (Dict string PyVal) :=
  ("GET", API_REST_ENDPOINT ++ GET_ORDER_ROUTE,
   Some [("accountId", PInt (loopring_accountid w));
         ("orderHash", PStr (io_exchange_order_id o))]).

End FurtherVocabulary.

(** * Properties *)

(** ** Dictionaries *)

Section DictFacts.
Context {K V : Type} `{EqKey K}.
Hypothesis keqb_refl : forall k : K, keqb k k = true.
Hypothesis keqb_true : forall a b : K, keqb a b = true -> a = b.

Lemma dict_get_set_same (d : Dict K V) k v : dict_get (dict_set d k v) k = Some v.
Proof.
  induction d as [|[k' v'] r IH]; simpl.
  - now rewrite keqb_refl.
  - destruct (keqb k k') eqn:E; simpl.
    + now rewrite keqb_refl.
    + now rewrite E.
Qed.

Lemma dict_get_set_other (d : Dict K V) k k' v :
  keqb k' k = false -> dict_get (dict_set d k v) k' = dict_get d k'.
Proof.
  intros Hne. induction d as [|[k0 v0] r IH]; simpl.
  - now rewrite Hne.
  - destruct (keqb k k0) eqn:E; simpl.
    + apply keqb_true in E. subst k0. now rewrite Hne.
    + destruct (keqb k' k0); [reflexivity | exact IH].
Qed.

Lemma dict_set_keys_present (d : Dict K V) k v v0 :
  dict_get d k = Some v0 -> dict_keys (dict_set d k v) = dict_keys d.
Proof.
  unfold dict_keys.
  induction d as [|[k' v'] r IH]; simpl; [discriminate|].
  destruct (keqb k k') eqn:E; simpl.
  - apply keqb_true in E. now subst.
  - intros Hg. f_equal. now apply IH.
Qed.

End DictFacts.

Lemma string_keqb_true (a b : string) : keqb a b = true -> a = b.
Proof. apply String.eqb_eq. Qed.

Lemma Z_keqb_true (a b : Z) : keqb a b = true -> a = b.
Proof. apply Z.eqb_eq. Qed.

(** ** Statements *)

Section StatementFacts.
Context {C : Collaborators}.
Local Open Scope stmt_scope.

Lemma bind_ok {A B} (m : M A) (k : A -> M B) w a w' :
  m w = (Ok a, w') -> bind m k w = k a w'.
Proof. unfold bind. now intros ->. Qed.

Lemma bind_raise {A B} (m : M A) (k : A -> M B) w e w' :
  m w = (Raise e, w') -> bind m k w = (Raise e, w').
Proof. unfold bind. now intros ->. Qed.

Lemma try_except_ok {A} (m : M A) c h w a w' :
  m w = (Ok a, w') -> try_except m c h w = (Ok a, w').
Proof. unfold try_except. now intros ->. Qed.

Lemma try_except_caught {A} (m : M A) c h w e w' :
  m w = (Raise e, w') -> c e = true -> try_except m c h w = h e w'.
Proof. unfold try_except. now intros -> ->. Qed.

Lemma try_except_passed {A} (m : M A) c h w e w' :
  m w = (Raise e, w') -> c e = false -> try_except m c h w = (Raise e, w').
Proof. unfold try_except. now intros -> ->. Qed.

(** *** Frames: what a statement leaves alone *)

Section Frames.
Context {X : Type} (f : World -> X).

Lemma preserves_ret {A} (a : A) : preserves f (ret a).
Proof. intro w. reflexivity. Qed.

Lemma preserves_raise {A} e : preserves f (@raise C A e).
Proof. intro w. reflexivity. Qed.

Lemma preserves_lift {A} (r : Res A) : preserves f (lift r).
Proof. intro w. reflexivity. Qed.

Lemma preserves_gets {A} (g : World -> A) : preserves f (gets g).
Proof. intro w. reflexivity. Qed.

Lemma preserves_modify (g : World -> World) :
  (forall w, f (g w) = f w) -> preserves f (modify g).
Proof. intros Hg w. apply Hg. Qed.

Lemma preserves_bind {A B} (m : M A) (k : A -> M B) :
  preserves f m -> (forall a, preserves f (k a)) -> preserves f (bind m k).
Proof.
  intros Hm Hk w. unfold bind.
  specialize (Hm w). destruct (m w) as [[a|e] w']; simpl in *.
  - now rewrite Hk.
  - exact Hm.
Qed.

Lemma preserves_try_except {A} (m : M A) c h :
  preserves f m -> (forall e, preserves f (h e)) -> preserves f (try_except m c h).
Proof.
  intros Hm Hh w. unfold try_except.
  specialize (Hm w). destruct (m w) as [[a|e] w']; simpl in *.
  - exact Hm.
  - destruct (c e); [now rewrite Hh | exact Hm].
Qed.

Lemma preserves_gather2 {A B} (m1 : M A) (m2 : M B) :
  preserves f m1 -> preserves f m2 -> preserves f (gather2 m1 m2).
Proof.
  intros H1 H2 w. unfold gather2.
  specialize (H1 w). destruct (m1 w) as [r1 w1]. simpl in H1.
  specialize (H2 w1). destruct (m2 w1) as [r2 w2]. simpl in H2.
  destruct r1, r2; simpl; congruence.
Qed.

End Frames.

End StatementFacts.

Section StepFacts.
Context {C : Collaborators}.
Local Open Scope stmt_scope.

Lemma bind_lift {A B} (r : Res A) (k : A -> M B) w :
  bind (lift r) k w = match r with Ok a => k a w | Raise e => (Raise e, w) end.
Proof. unfold bind, lift. now destruct r. Qed.

Lemma bind_ret {A B} (a : A) (k : A -> M B) w : bind (ret a) k w = k a w.
Proof. reflexivity. Qed.

Lemma bind_gets {A B} (g : World -> A) (k : A -> M B) w :
  bind (gets g) k w = k (g w) w.
Proof. reflexivity. Qed.

Lemma bind_modify {B} (g : World -> World) (k : unit -> M B) w :
  bind (modify g) k w = k tt (g w).
Proof. reflexivity. Qed.

Lemma bind_bind {A B D} (m : M A) (k1 : A -> M B) (k2 : B -> M D) w :
  bind (bind m k1) k2 w = bind m (fun a => bind (k1 a) k2) w.
Proof. unfold bind. destruct (m w) as [[a|e] w']; reflexivity. Qed.

End StepFacts.

(** *** Frames of the methods *)

Ltac frame_step :=
  match goal with
  | |- preserves _ (ret _) => apply preserves_ret
  | |- preserves _ (raise _) => apply preserves_raise
  | |- preserves _ (lift _) => apply preserves_lift
  | |- preserves _ (gets _) => apply preserves_gets
  | |- preserves _ (bind _ _) => apply preserves_bind; [ | intros ? ]
  | |- preserves _ (try_except _ _ _) => apply preserves_try_except; [ | intros ? ]
  | |- preserves _ (gather2 _ _) => apply preserves_gather2
  | |- preserves _ (modify _) => apply preserves_modify; intros; try reflexivity
  | |- preserves _ (log _ _) => apply preserves_modify; intros; try reflexivity
  | |- preserves _ (c_trigger_event _ _) => apply preserves_modify; intros; try reflexivity
  | |- preserves _ (record_crypto _) => apply preserves_modify; intros; try reflexivity
  | |- preserves _ (if ?b then _ else _) => destruct b
  | |- preserves _ (match ?x with _ => _ end) => destruct x
  | |- preserves _ (let '(_, _) := ?x in _) => destruct x
  end.

Ltac frame := repeat frame_step.

Section MethodFrames.
Context {C : Collaborators}.
Local Open Scope stmt_scope.
Context {X : Type} (f : World -> X).

(** The components [f] may not depend on, one hypothesis per setter. *)
Hypothesis f_headers : forall v w, f (with_default_headers v w) = f w.
Hypothesis f_requests : forall v w, f (with_requests v w) = f w.
Hypothesis f_logs : forall v w, f (with_logs v w) = f w.

Lemma save_headers_frame b h : preserves f (save_headers b h).
Proof. unfold save_headers. destruct b; frame. apply f_headers. Qed.

Lemma send_frame rq : preserves f (send rq).
Proof. intro w. unfold send. simpl. apply f_requests. Qed.

(** Only a signed request reaches the signing engine. *)
Lemma api_request_frame m u d p h s :
  (s = true -> forall v w, f (with_crypto_calls v w) = f w) ->
  preserves f (api_request m u d p h s).
Proof.
  intros f_crypto. unfold api_request.
  apply preserves_bind; [frame|intros shared].
  destruct (match d with Some _ => (m =? "POST")%string | None => false end);
    [|destruct h]; cbv zeta beta iota.
  all: apply preserves_bind; [apply save_headers_frame | intros _].
  all: apply preserves_bind;
    [destruct s; frame; try (apply f_crypto; reflexivity); try apply save_headers_frame
    | intros hdrs].
  all: apply preserves_bind; [apply send_frame | intros outcome].
  all: frame; apply f_logs.
Qed.

Hypothesis f_counters : forall v w, f (with_next_order_id v w) = f w.

Lemma get_next_order_id_frame token force : preserves f (_get_next_order_id token force).
Proof.
  unfold _get_next_order_id.
  apply preserves_bind; [frame|intros stored].
  apply preserves_bind; [|intros r; frame].
  destruct (force || counter_missing stored).
  - apply preserves_try_except; [|intros e; frame; apply f_logs].
    apply preserves_bind; [frame|intros account].
    apply preserves_bind; [apply api_request_frame; discriminate|intros temp].
    frame. apply f_counters.
  - frame. apply f_counters.
Qed.

Hypothesis f_crypto : forall v w, f (with_crypto_calls v w) = f w.

Lemma place_order_frame id pair amount is_buy order_type price :
  preserves f (place_order id pair amount is_buy order_type price).
Proof.
  unfold place_order.
  repeat first
    [ apply get_next_order_id_frame
    | apply api_request_frame; discriminate
    | apply f_crypto
    | frame_step ].
Qed.

End MethodFrames.

(** ** The nonce allocator *)

Section NonceFacts.
Context {C : Collaborators}.
Local Open Scope stmt_scope.

(** Every call of [api_request] that signs nothing sends exactly one
    request, whatever comes back. *)
Lemma api_request_sends_one m u d p h w :
  exists rq,
    requests (snd (api_request m u d p h false w)) = (requests w ++ [rq])%list /\
    rq_method rq = m /\ rq_url rq = API_REST_ENDPOINT ++ u /\ rq_params rq = p.
Proof.
  unfold api_request, bind, gets, save_headers, send, lift, ret.
  destruct (match d with Some _ => (m =? "POST")%string | None => false end);
    [|destruct h]; cbv zeta beta iota; simpl;
  match goal with
  | |- context [remote ?w0 ?l ?rq] =>
      exists rq; destruct (remote w0 l rq) as [e|status [body|e]]; simpl;
      try (destruct (status =? 200); simpl); auto
  end.
Qed.

(** The normal path: the stored value is returned and the counter goes up
    by one, with no request. *)
Lemma warm_call token start w :
  dict_get (_next_order_id w) token = Some (PInt start) ->
  _get_next_order_id token false w =
    (Ok (PInt start),
     with_next_order_id (dict_set (_next_order_id w) token (PInt (start + 1))) w).
Proof.
  intros Hget. unfold _get_next_order_id, bind, gets. rewrite Hget. reflexivity.
Qed.

(** From an initialized counter, [n] calls without forced resync return
    [start, start + 1, ..., start + n - 1] and leave the counter at
    [start + n]; nothing is sent. *)
Lemma allocate_many_warm n : forall token start w,
  dict_get (_next_order_id w) token = Some (PInt start) ->
  exists w',
    allocate_many n token w =
      (Ok (map (fun i => PInt (start + Z.of_nat i)) (seq 0 n)), w') /\
    dict_get (_next_order_id w') token = Some (PInt (start + Z.of_nat n)) /\
    requests w' = requests w.
Proof.
  induction n as [|n IH]; intros token start w Hget.
  - exists w. simpl. rewrite Z.add_0_r. auto.
  - simpl allocate_many.
    destruct (IH token (start + 1)
                (with_next_order_id (dict_set (_next_order_id w) token (PInt (start + 1))) w))
      as (w' & Hrun & Hctr & Hreq).
    { simpl. apply dict_get_set_same. apply Z.eqb_refl. }
    exists w'. split; [|split].
    + rewrite (bind_ok _ _ _ _ _ (warm_call _ _ _ Hget)).
      rewrite (bind_ok _ _ _ _ _ Hrun). unfold ret. f_equal. f_equal.
      simpl. rewrite Z.add_0_r. f_equal.
      rewrite <- seq_shift, map_map. apply map_ext. intros i. f_equal. lia.
    + rewrite Hctr. f_equal. f_equal. lia.
    + exact Hreq.
Qed.

(** The values of the normal path are pairwise distinct. *)
Lemma warm_values_distinct start n :
  NoDup (map (fun i => PInt (start + Z.of_nat i)) (seq 0 n)).
Proof.
  apply Injective_map_NoDup; [|apply seq_NoDup].
  intros i j [= E]. lia.
Qed.

(** The cold path: the fetched id is returned and stored as it came, not
    advanced past the value just handed out. *)
Lemma cold_call_stores_unincremented token w temp v w1 :
  counter_missing (dict_get (_next_order_id w) token) = true ->
  api_request "GET" NEXT_ORDER_ID None (Some (next_id_params w token)) None false w
    = (Ok temp, w1) ->
  py_getitem temp "data" = Ok v ->
  _get_next_order_id token false w =
    (Ok v, with_next_order_id (dict_set (_next_order_id w1) token v) w1).
Proof.
  intros Hmiss Hq Hdata. unfold _get_next_order_id.
  unfold bind at 1. unfold gets at 1. rewrite Hmiss. simpl orb. cbv iota.
  unfold bind at 1.
  erewrite try_except_ok with (a := Some v)
    (w' := with_next_order_id (dict_set (_next_order_id w1) token v) w1);
    [reflexivity|].
  unfold bind at 1. unfold gets at 1. unfold next_id_params in Hq.
  erewrite bind_ok by exact Hq.
  unfold bind, lift. rewrite Hdata. reflexivity.
Qed.

(** So a cold call followed by a normal call hands out the same id twice. *)
Lemma cold_then_warm_repeat token w temp n w1 :
  counter_missing (dict_get (_next_order_id w) token) = true ->
  api_request "GET" NEXT_ORDER_ID None (Some (next_id_params w token)) None false w
    = (Ok temp, w1) ->
  py_getitem temp "data" = Ok (PInt n) ->
  exists w2, allocate_many 2 token w = (Ok [PInt n; PInt n], w2).
Proof.
  intros Hmiss Hq Hdata.
  pose proof (cold_call_stores_unincremented _ _ _ _ _ Hmiss Hq Hdata) as Hcold.
  set (wc := with_next_order_id (dict_set (_next_order_id w1) token (PInt n)) w1) in *.
  assert (Hget : dict_get (_next_order_id wc) token = Some (PInt n)).
  { simpl. apply dict_get_set_same. apply Z.eqb_refl. }
  eexists. unfold allocate_many, bind.
  rewrite Hcold, (warm_call _ _ _ Hget). reflexivity.
Qed.

(** C7 (as amended).  On the remote-query path (cold or forced), when the
    query raises an error the allocator catches it and writes it to the log
    instead of passing it on; it sends no second query, leaves the stored
    counters as they were and returns no value: the call ends in the
    unbound-local error of [next_id]. *)
Theorem remote_error_is_swallowed token force w e w1 :
  force || counter_missing (dict_get (_next_order_id w) token) = true ->
  api_request "GET" NEXT_ORDER_ID None (Some (next_id_params w token)) None false w
    = (Raise e, w1) ->
  _get_next_order_id token force w =
    (Raise (UnboundLocalError "next_id"),
     with_logs (logs w1 ++ [(INFO, exn_msg e);
                            (INFO, [FStr "Error getting the next order id from Loopring"])]) w1)
  /\ _next_order_id w1 = _next_order_id w
  /\ exists rq, requests w1 = (requests w ++ [rq])%list
                /\ rq_url rq = API_REST_ENDPOINT ++ NEXT_ORDER_ID.
Proof.
  intros Hpath Hq. split; [|split].
  - unfold _get_next_order_id.
    unfold bind at 1. unfold gets at 1. rewrite Hpath.
    unfold bind at 1.
    erewrite try_except_caught; [| |reflexivity].
    2:{ unfold bind at 1. unfold gets at 1. unfold next_id_params in Hq.
        apply bind_raise. exact Hq. }
    unfold bind, log, modify, ret, raise, with_logs. simpl.
    now rewrite <- app_assoc.
  - assert (Hf : preserves _next_order_id
                   (api_request "GET" NEXT_ORDER_ID None
                      (Some (next_id_params w token)) None false))
      by (apply api_request_frame; intros; try reflexivity; discriminate).
    specialize (Hf w).
    now rewrite Hq in Hf.
  - destruct (api_request_sends_one "GET" NEXT_ORDER_ID None
                (Some (next_id_params w token)) None w) as (rq & Hr & _ & Hu & _).
    rewrite Hq in Hr. exists rq. auto.
Qed.

End NonceFacts.

(** ** Cancellation *)

Section CancelFacts.
Context {C : Collaborators}.
Local Open Scope stmt_scope.

(** [cancel_order] handles every exception itself: it always returns. *)
Lemma cancel_order_returns id w : exists w', cancel_order id w = (Ok tt, w').
Proof.
  unfold cancel_order.
  unfold bind at 1. unfold gets at 1.
  unfold bind at 1. unfold now at 1. unfold gets at 1.
  destruct (dict_get (_in_flight_orders w) id) as [o|].
  - unfold try_except.
    match goal with
    | |- context [match ?m w with _ => _ end] => destruct (m w) as [[[]|e] w']
    end.
    + eauto.
    + simpl. eexists. reflexivity.
  - eexists. reflexivity.
Qed.

Lemma cancel_each_marks_success queue : forall results w,
  exists w',
    cancel_each queue results w =
      (Ok (results ++ map (fun kv => mkCancellationResult (fst kv) true) queue)%list, w').
Proof.
  induction queue as [|[id o] rest IH]; intros results w; simpl.
  - exists w. now rewrite app_nil_r.
  - destruct (cancel_order_returns id w) as (w1 & H1).
    destruct (IH (results ++ [mkCancellationResult id true])%list w1) as (w2 & H2).
    exists w2.
    erewrite bind_ok.
    2:{ apply try_except_ok. erewrite bind_ok by exact H1. reflexivity. }
    rewrite H2. now rewrite <- app_assoc.
Qed.

(** [cancel_all] returns one result per order of the registry as it was at
    the call, in registry order, and marks every one of them successful:
    the [success=False] branch is never taken. *)
Lemma cancel_all_marks_every_order_successful timeout_seconds w :
  exists w',
    cancel_all timeout_seconds w =
      (Ok (map (fun kv => mkCancellationResult (fst kv) true) (_in_flight_orders w)), w').
Proof.
  unfold cancel_all. unfold bind, gets.
  destruct (cancel_each_marks_success (_in_flight_orders w) [] w) as (w' & H).
  exists w'. exact H.
Qed.

(** The time-out argument is not consulted. *)
Lemma cancel_all_ignores_timeout t1 t2 : cancel_all t1 = cancel_all t2.
Proof. reflexivity. Qed.

End CancelFacts.

(** ** The user stream *)

Section StreamFacts.
Context {C : Collaborators}.
Local Open Scope stmt_scope.

(** C8.  A push message on topic [order] whose client order id is not a key
    of the registry is logged and dropped: the step returns normally and the
    state differs from the one before in the log alone, so the registry is
    unchanged (nothing added, removed or mutated) and no event is triggered.
    For an id that is a string the log gains the two debug records of the
    unrecognized order. *)
Theorem unknown_order_push_is_dropped w event_message event topic data id_val :
  json_loads event_message = Ok event ->
  py_getitem event "topic" = Ok topic ->
  py_getitem topic "topic" = Ok (PStr "order") ->
  py_getitem event "data" = Ok data ->
  py_getitem data "clientOrderId" = Ok id_val ->
  (forall id, id_val = PStr id -> dict_get (_in_flight_orders w) id = None) ->
  exists records,
    records <> [] /\
    user_stream_step event_message w = (Ok tt, with_logs (logs w ++ records) w) /\
    (forall id, id_val = PStr id ->
       records = [(DEBUG, [FStr "Unrecognized order ID from user stream: ";
                           FVal (PStr id); FStr "."]);
                  (DEBUG, [FStr "Event: "; FStr event_message])]).
Proof.
  intros Hj Ht Htt Hd Hid Hreg.
  unfold user_stream_step, try_except.
  unfold bind at 1. unfold lift at 1. rewrite Hj.
  unfold bind at 1. unfold lift at 1. rewrite Ht.
  unfold bind at 1. unfold lift at 1. rewrite Htt.
  unfold bind at 1. unfold lift at 1. simpl as_str.
  unfold bind at 1. unfold lift at 1. rewrite Hd.
  cbv iota beta.
  unfold bind at 1. unfold lift at 1. rewrite Hid.
  unfold bind at 1. unfold lift at 1.
  destruct id_val as [| b | z | id | l | d]; simpl as_str; cbv iota beta.
  - (* None *)
    eexists. split; [|split].
    2:{ unfold bind, gets, log, modify, with_logs. simpl.
        rewrite <- app_assoc. reflexivity. }
    + discriminate.
    + intros id [=].
  - eexists. split; [|split]; [|reflexivity|]; [discriminate|intros id [=]].
  - eexists. split; [|split]; [|reflexivity|]; [discriminate|intros id [=]].
  - eexists. split; [|split].
    2:{ unfold bind, gets, log, modify, with_logs. simpl.
        rewrite (Hreg id eq_refl). simpl. rewrite <- app_assoc. reflexivity. }
    + discriminate.
    + intros id' [= <-]. reflexivity.
  - eexists. split; [|split]; [|reflexivity|]; [discriminate|intros id [=]].
  - eexists. split; [|split]; [|reflexivity|]; [discriminate|intros id [=]].
Qed.

End StreamFacts.

(** ** Trading rules and order kinds *)

Section RuleFacts.
Context {C : Collaborators}.
Local Open Scope stmt_scope.

Lemma trading_rule_of_some pair w r :
  dict_get (_trading_rules w) pair = Some r -> trading_rule_of pair w = (Ok r, w).
Proof. intros H. unfold trading_rule_of, bind, gets. now rewrite H. Qed.

Lemma trading_rule_of_none pair w :
  dict_get (_trading_rules w) pair = None ->
  trading_rule_of pair w = (Raise (KeyError (PStr pair)), w).
Proof. intros H. unfold trading_rule_of, bind, gets. now rewrite H. Qed.

(** The quantization methods only read the state. *)
Lemma quantize_price_pure pair price :
  preserves (fun w => w) (c_quantize_order_price pair price).
Proof. unfold c_quantize_order_price, c_get_order_price_quantum, trading_rule_of. frame. Qed.



Lemma decimal_1e_minus_power_of_ten v d :
  decimal_1e_minus v = Ok d -> power_of_ten d.
Proof.
  assert (Hdigits : forall p, decimal_1e_minus_digits p = Ok d -> power_of_ten d).
  { intros p. unfold decimal_1e_minus_digits, power_of_ten.
    destruct (MIN_ETINY <=? - p); [|discriminate]. intros [= <-]. eauto. }
  unfold decimal_1e_minus. destruct v; try discriminate.
  - destruct (0 <=? z); [|discriminate]. apply Hdigits.
  - destruct (forallb_string is_digit _); [|discriminate].
    destruct (read_digits _ 0 false); [|discriminate]. apply Hdigits.
Qed.

(** The rule of one market, when it can be built, has the shape
    [written_rule]; building it does not touch the state. *)
Lemma market_rule_result tokens market baseid quoteid w r w' :
  market_rule tokens market baseid quoteid w = (Ok r, w') ->
  w' = w /\ forall rule, r = Some rule -> written_rule rule.
Proof.
  unfold market_rule, bind, lift, ret, raise.
  repeat match goal with
         | |- context [match ?x with Ok _ => _ | Raise _ => _ end] =>
             destruct x eqn:?; try discriminate
         end.
  destruct a; try discriminate.
  - intros [= <- <-]. split; [reflexivity|]. discriminate.
  - intros [= <- <-]. split; [reflexivity|]. intros rule [= <-].
    unfold written_rule; simpl.
    repeat split; eauto using decimal_1e_minus_power_of_ten.
Qed.

Lemma market_rule_frame tokens market baseid quoteid :
  preserves _trading_rules (market_rule tokens market baseid quoteid).
Proof. unfold market_rule. frame. Qed.

Section RuleTable.
(** A property of table entries that every written rule has. *)
Variable P : string -> TradingRule -> Prop.
Hypothesis P_written : forall pair r, written_rule r -> P pair r.




End RuleTable.



(** The table a connector starts with is empty. *)
Lemma empty_rules_written : rules_written [].
Proof. intros pair r H. discriminate. Qed.


End RuleFacts.

(** ** Validation before submission *)

Section ValidationFacts.
Context {C : Collaborators}.
Local Open Scope stmt_scope.

Lemma dict_get_del_same {V} (d : Dict string V) k : dict_get (dict_del d k) k = None.
Proof.
  unfold dict_del. induction d as [|[k' v] r IH]; simpl; [reflexivity|].
  destruct (String.eqb k k') eqn:E; simpl; [exact IH|].
  now rewrite E.
Qed.

(** A quantized amount below the minimum order size becomes the sentinel. *)
Lemma quantize_amount_below_minimum w pair rule amount price qa :
  dict_get (_trading_rules w) pair = Some rule ->
  quantize_down amount (min_base_amount_increment rule) = Ok qa ->
  dec_lt qa (min_order_size rule) = Ok true ->
  c_quantize_order_amount pair amount price w = (Ok s_decimal_0, w).
Proof.
  intros Hrule Hq Hlt.
  unfold c_quantize_order_amount, c_get_order_size_quantum.
  unfold bind, lift, ret. rewrite (trading_rule_of_some _ _ _ Hrule).
  rewrite Hq. rewrite (trading_rule_of_some _ _ _ Hrule). now rewrite Hlt.
Qed.

(** C3 (as amended).  For a buy whose quantized amount is below the pair's
    minimum order size, that size being positive, the quantization inside
    [execute_order] yields the zero-amount sentinel, and the submission then
    fails validation: [execute_buy] raises a [ValueError] to its caller
    (it does not return the sentinel), having triggered one order-failure
    event and stopped tracking the id.  The signing engine is not invoked,
    no request is sent and no nonce is consumed. *)
Theorem below_minimum_buy_is_rejected w id pair amount order_type price rule qa qp :
  dict_get (_trading_rules w) pair = Some rule ->
  quantize_down amount (min_base_amount_increment rule) = Ok qa ->
  dec_lt qa (min_order_size rule) = Ok true ->
  dec_lt s_decimal_0 (min_order_size rule) = Ok true ->
  quantize_down price (min_price_increment rule) = Ok qp ->
  c_quantize_order_amount pair amount None w = (Ok s_decimal_0, w) /\
  exists msg w',
    execute_buy id pair amount order_type price w = (Raise (ValueError msg), w') /\
    events w' =
      (events w ++ [(ORDER_FAILURE_EVENT,
                     MarketOrderFailureEvent (clock w * 1000) id order_type)])%list /\
    crypto_calls w' = crypto_calls w /\
    requests w' = requests w /\
    _next_order_id w' = _next_order_id w /\
    dict_get (_in_flight_orders w') id = None.
Proof.
  intros Hrule Hq Hlt Hpos Hp.
  pose proof (quantize_amount_below_minimum w pair rule amount None qa Hrule Hq Hlt) as Hs.
  split; [exact Hs|].
  assert (Hexec : exists msg,
             execute_order BUY id pair amount order_type price w = (Raise (ValueError msg), w)).
  { unfold execute_order.
    rewrite (bind_ok _ _ _ _ _ Hs).
    unfold c_quantize_order_price, c_get_order_price_quantum.
    unfold bind at 1. unfold bind at 1. unfold bind at 1.
    rewrite (trading_rule_of_some _ _ _ Hrule). unfold ret at 1. unfold lift at 1.
    rewrite Hp.
    unfold bind at 1. rewrite (trading_rule_of_some _ _ _ Hrule).
    unfold bind at 1.
    destruct (OrderType_eqb order_type LIMIT && negb (supports_limit_orders rule));
      [eexists; reflexivity|].
    destruct (OrderType_eqb order_type MARKET && negb (supports_market_orders rule));
      [eexists; reflexivity|].
    unfold ret at 1. unfold bind at 1. unfold lift at 1. rewrite Hpos.
    eexists; reflexivity. }
  destruct Hexec as (msg & Hexec).
  exists msg, (with_events
                 (events w ++ [(ORDER_FAILURE_EVENT,
                                MarketOrderFailureEvent (clock w * 1000) id order_type)])
                 (untracked id w)).
  split.
  - unfold execute_buy.
    rewrite (try_except_caught _ _ _ _ _ _ (bind_raise _ _ _ _ _ Hexec) eq_refl).
    unfold bind, stop_tracking, modify, now, gets, c_trigger_event, raise, untracked.
    destruct (dict_mem (_in_flight_orders w) id); reflexivity.
  - unfold untracked. destruct (dict_mem (_in_flight_orders w) id) eqn:Hm; simpl.
    + repeat split. apply dict_get_del_same.
    + repeat split. unfold dict_mem in Hm.
      destruct (dict_get (_in_flight_orders w) id); [discriminate|reflexivity].
Qed.

End ValidationFacts.

Section FailureEventFacts.
Context {C : Collaborators}.
Local Open Scope stmt_scope.

Lemma at_most_one_failure_bind {A} id type (m : M A) (k : A -> M unit) :
  preserves events m ->
  (forall a, at_most_one_failure id type (k a)) ->
  at_most_one_failure id type (bind m k).
Proof.
  intros Hm Hk w. unfold bind. specialize (Hm w).
  destruct (m w) as [[a|e] w1]; simpl in Hm; [|now left].
  rewrite <- Hm. apply Hk.
Qed.

Lemma at_most_one_failure_preserves id type (m : M unit) :
  preserves events m -> at_most_one_failure id type m.
Proof. intros Hm w. left. apply Hm. Qed.

Lemma at_most_one_failure_try id type (body : M unit) c h :
  preserves events body ->
  (forall e, at_most_one_failure id type (h e)) ->
  at_most_one_failure id type (try_except body c h).
Proof.
  intros Hb Hh w. unfold try_except. specialize (Hb w).
  destruct (body w) as [[a|e] w1]; simpl in Hb; [now left|].
  destruct (c e); [|now left].
  rewrite <- Hb. apply Hh.
Qed.

Lemma stop_tracking_frame id : preserves events (stop_tracking id).
Proof. intro w. unfold stop_tracking, modify. simpl. now destruct (dict_mem _ _). Qed.

Lemma quantize_amount_frame {X} (f : World -> X) pair amount price :
  preserves f (c_quantize_order_amount pair amount price).
Proof.
  unfold c_quantize_order_amount, c_get_order_size_quantum, trading_rule_of. frame.
Qed.

Lemma quantize_price_frame {X} (f : World -> X) pair price :
  preserves f (c_quantize_order_price pair price).
Proof. unfold c_quantize_order_price, c_get_order_price_quantum, trading_rule_of. frame. Qed.

Lemma trading_rule_of_frame {X} (f : World -> X) pair : preserves f (trading_rule_of pair).
Proof. unfold trading_rule_of. frame. Qed.

(** [execute_order] triggers nothing, or else it returns normally having
    triggered one order-failure event. *)
Lemma execute_order_failure_events side id pair amount type price :
  at_most_one_failure id type (execute_order side id pair amount type price).
Proof.
  unfold execute_order.
  apply at_most_one_failure_bind; [apply quantize_amount_frame|intros qa].
  apply at_most_one_failure_bind; [apply quantize_price_frame|intros qp].
  apply at_most_one_failure_bind; [apply trading_rule_of_frame|intros rule].
  do 8 (apply at_most_one_failure_bind; [frame|intros ?]).
  apply at_most_one_failure_try.
  { unfold start_tracking.
    repeat first [ apply place_order_frame; intros; reflexivity | frame_step ]. }
  intros e.
  do 2 (apply at_most_one_failure_bind; [frame|intros ?]).
  apply at_most_one_failure_bind; [frame|intros [base quote]].
  apply at_most_one_failure_bind; [frame|intros token].
  apply at_most_one_failure_bind;
    [apply get_next_order_id_frame; intros; reflexivity|intros ?].
  apply at_most_one_failure_bind; [apply stop_tracking_frame|intros ?].
  intros w2. right. split; [reflexivity|]. eexists. reflexivity.
Qed.

(** No run of [execute_buy] triggers two order-failure events; what it
    triggers is at most one of them, and possibly the created event. *)
Lemma execute_buy_failure_events id pair amount type price w :
  exists added,
    events (snd (execute_buy id pair amount type price w)) = (events w ++ added)%list /\
    (List.length (failure_events id added) <= 1)%nat.
Proof.
  unfold execute_buy, try_except. unfold bind at 1.
  pose proof (execute_order_failure_events BUY id pair amount type price w) as Ho.
  destruct (execute_order BUY id pair amount type price w) as [[[]|e] w1]; simpl in Ho.
  - unfold bind, now, gets, c_trigger_event, modify. simpl.
    destruct Ho as [Ho|(_ & ts & Ho)]; rewrite Ho.
    + eexists. split; [reflexivity|]. simpl. lia.
    + eexists. split; [rewrite <- app_assoc; reflexivity|].
      simpl. destruct (String.eqb id id); simpl; lia.
  - destruct Ho as [Ho|(Hbad & _)]; [|discriminate].
    destruct (is_ValueError e).
    + unfold bind, now, gets, c_trigger_event, stop_tracking, modify, raise. simpl.
      assert (He : events (if dict_mem (_in_flight_orders w1) id
                           then with_in_flight_orders (dict_del (_in_flight_orders w1) id) w1
                           else w1) = events w)
        by (destruct (dict_mem _ _); exact Ho).
      rewrite He.
      eexists. split; [reflexivity|].
      simpl. destruct (String.eqb id id); simpl; lia.
    + exists []. split; [simpl; now rewrite app_nil_r|]. simpl. lia.
Qed.

End FailureEventFacts.

(** ** Quantization *)

Section DecimalFacts.

Lemma inject_Z_nonneg z : 0 <= z -> (0 <= inject_Z z)%Q.
Proof. intros Hz. change 0%Q with (inject_Z 0). now rewrite <- Zle_Qle. Qed.

Lemma ten_power_pos e : (0 < ten_to e)%Q.
Proof. unfold ten_to. apply Qpower_0_lt. reflexivity. Qed.

Lemma ten_power_plus a b : (ten_to (a + b) == ten_to a * ten_to b)%Q.
Proof. unfold ten_to. apply Qpower_plus. intro H. discriminate H. Qed.

Lemma ten_power_of_Z k : 0 <= k -> (inject_Z (10 ^ k) == ten_to k)%Q.
Proof. unfold ten_to. apply Zpower_Qpower. Qed.

Lemma pow10_Z k : 0 <= k -> Z.of_N (pow10 k) = 10 ^ k.
Proof. intros Hk. unfold pow10. apply Z2N.id. now apply Z.pow_nonneg. Qed.

Lemma signed_abs s c : Z.abs (signed s c) = Z.of_N c.
Proof. unfold signed. destruct s; lia. Qed.

Lemma abs_dec_Q s c e : (Qabs (dec_Q (Fin s c e)) == inject_Z (Z.of_N c) * ten_to e)%Q.
Proof.
  unfold dec_Q. rewrite Qabs_Qmult.
  rewrite (Qabs_pos (ten_to e)) by (apply Qlt_le_weak, ten_power_pos).
  apply Qmult_comp; [|reflexivity].
  unfold signed. destruct s.
  - rewrite inject_Z_opp, Qabs_opp. apply Qabs_pos, inject_Z_nonneg. lia.
  - apply Qabs_pos, inject_Z_nonneg. lia.
Qed.

(** The coefficient that [ROUND_DOWN] keeps, against the original one, at
    the finer of the two exponents. *)
Lemma rescale_down_bounds c e t :
  let m := Z.min e t in
  let kept := Z.of_N (rescale_down c e t) * 10 ^ (t - m) in
  let full := Z.of_N c * 10 ^ (e - m) in
  kept <= full < kept + 10 ^ (t - m).
Proof.
  unfold rescale_down. cbv zeta.
  destruct (Z.leb_spec t e) as [Hle|Hlt].
  - rewrite Z.min_r by lia. rewrite Z.sub_diag, Z.pow_0_r.
    rewrite N2Z.inj_mul, pow10_Z by lia. lia.
  - rewrite Z.min_l by lia. rewrite Z.sub_diag, Z.pow_0_r.
    rewrite N2Z.inj_div, pow10_Z by lia.
    assert (Hp : 0 < 10 ^ (t - e)) by (apply Z.pow_pos_nonneg; lia).
    pose proof (Z.div_mod (Z.of_N c) (10 ^ (t - e)) ltac:(lia)) as Hdm.
    pose proof (Z.mod_pos_bound (Z.of_N c) (10 ^ (t - e)) Hp) as Hmod.
    nia.
Qed.

Lemma dec_Q_at_scale s c e m :
  m <= e -> (dec_Q (Fin s c e) == inject_Z (signed s c * 10 ^ (e - m)) * ten_to m)%Q.
Proof.
  intros Hm. unfold dec_Q. rewrite inject_Z_mult, ten_power_of_Z by lia.
  rewrite <- Qmult_assoc, <- ten_power_plus.
  now replace (e - m + m) with e by lia.
Qed.

Lemma abs_dec_Q_at_scale s c e m :
  m <= e -> (Qabs (dec_Q (Fin s c e)) == inject_Z (Z.of_N c * 10 ^ (e - m)) * ten_to m)%Q.
Proof.
  intros Hm. rewrite abs_dec_Q. rewrite inject_Z_mult, ten_power_of_Z by lia.
  rewrite <- Qmult_assoc, <- ten_power_plus.
  now replace (e - m + m) with e by lia.
Qed.

(** Rounding down to exponent [t] is rounding toward zero to a multiple of
    [10^t]. *)
Lemma rescale_down_toward_zero s c e t :
  toward_zero (Fin s c e) (Fin false 1 t) (Fin s (rescale_down c e t) t).
Proof.
  set (rd := rescale_down c e t).
  set (m := Z.min e t).
  pose proof (rescale_down_bounds c e t) as Hb. cbv zeta in Hb. fold rd m in Hb.
  assert (Hme : m <= e) by (unfold m; lia).
  assert (Hmt : m <= t) by (unfold m; lia).
  assert (Hstep : (dec_Q (Fin false 1 t) == inject_Z (10 ^ (t - m)) * ten_to m)%Q).
  { rewrite (dec_Q_at_scale false 1 t m Hmt). simpl signed.
    now rewrite Z.mul_1_l. }
  unfold toward_zero. repeat split.
  - exists (signed s rd). unfold dec_Q.
    change (inject_Z (signed false 1)) with 1%Q. ring.
  - rewrite (abs_dec_Q_at_scale s rd t m Hmt), (abs_dec_Q_at_scale s c e m Hme).
    apply Qmult_le_compat_r; [|apply Qlt_le_weak, ten_power_pos].
    rewrite <- Zle_Qle. lia.
  - rewrite (abs_dec_Q_at_scale s rd t m Hmt), (abs_dec_Q_at_scale s c e m Hme), Hstep.
    setoid_replace (inject_Z (Z.of_N c * 10 ^ (e - m)) * ten_to m
                    - inject_Z (Z.of_N rd * 10 ^ (t - m)) * ten_to m)%Q
      with (inject_Z (Z.of_N c * 10 ^ (e - m) - Z.of_N rd * 10 ^ (t - m)) * ten_to m)%Q.
    2:{ unfold Z.sub. rewrite inject_Z_plus, inject_Z_opp. ring. }
    apply Qmult_lt_compat_r; [apply ten_power_pos|].
    rewrite <- Zlt_Qlt. lia.
  - rewrite (dec_Q_at_scale s c e m Hme), (dec_Q_at_scale s rd t m Hmt).
    setoid_replace (inject_Z (signed s c * 10 ^ (e - m)) * ten_to m
                    * (inject_Z (signed s rd * 10 ^ (t - m)) * ten_to m))%Q
      with (inject_Z ((signed s c * 10 ^ (e - m)) * (signed s rd * 10 ^ (t - m)))
            * (ten_to m * ten_to m))%Q.
    2:{ rewrite (inject_Z_mult (signed s c * 10 ^ (e - m)) (signed s rd * 10 ^ (t - m))).
        ring. }
    apply Qmult_le_0_compat.
    + apply inject_Z_nonneg.
      assert (0 <= 10 ^ (e - m)) by (apply Z.pow_nonneg; lia).
      assert (0 <= 10 ^ (t - m)) by (apply Z.pow_nonneg; lia).
      unfold signed. destruct s; nia.
    + apply Qlt_le_weak, Qmult_lt_0_compat; apply ten_power_pos.
Qed.

(** On finite operands [quantize], when it goes through, is that rounding. *)
Lemma quantize_down_finite s c e s' c' t q :
  quantize_down (Fin s c e) (Fin s' c' t) = Ok q ->
  q = Fin s (rescale_down c e t) t.
Proof.
  unfold quantize_down.
  destruct (negb _); [discriminate|].
  destruct (N.eqb_spec c 0) as [->|Hc].
  - intros [= <-]. f_equal. unfold rescale_down.
    destruct (t <=? e); [reflexivity|]. symmetry. apply N.Div0.div_0_l.
  - repeat (match goal with |- context [if ?b then _ else _] => destruct b end;
            try discriminate).
    now intros [= <-].
Qed.

(** [quantize] with a power-of-ten increment rounds a finite operand toward
    zero to a multiple of the increment. *)
Lemma quantize_down_toward_zero x step q :
  finite x -> power_of_ten step ->
  quantize_down x step = Ok q ->
  toward_zero x step q.
Proof.
  intros Hx [t ->] Hq. destruct x as [s c e| |]; try contradiction.
  apply quantize_down_finite in Hq. subst q.
  apply rescale_down_toward_zero.
Qed.

End DecimalFacts.

Section QuantizationFacts.
Context {C : Collaborators}.
Local Open Scope stmt_scope.

Lemma quantize_price_run w pair rule price qp :
  dict_get (_trading_rules w) pair = Some rule ->
  quantize_down price (min_price_increment rule) = Ok qp ->
  c_quantize_order_price pair price w = (Ok qp, w).
Proof.
  intros Hrule Hq. unfold c_quantize_order_price, c_get_order_price_quantum.
  unfold bind, lift, ret. rewrite (trading_rule_of_some _ _ _ Hrule). now rewrite Hq.
Qed.

Lemma quantize_amount_no_price w pair rule amount qa :
  dict_get (_trading_rules w) pair = Some rule ->
  quantize_down amount (min_base_amount_increment rule) = Ok qa ->
  dec_lt qa (min_order_size rule) = Ok false ->
  c_quantize_order_amount pair amount None w = (Ok qa, w).
Proof.
  intros Hrule Hq Hmin.
  unfold c_quantize_order_amount, c_get_order_size_quantum.
  unfold bind, lift, ret. rewrite (trading_rule_of_some _ _ _ Hrule).
  rewrite Hq. rewrite (trading_rule_of_some _ _ _ Hrule). now rewrite Hmin.
Qed.

Lemma quantize_amount_price_not_positive w pair rule amount p qa :
  dict_get (_trading_rules w) pair = Some rule ->
  quantize_down amount (min_base_amount_increment rule) = Ok qa ->
  dec_lt qa (min_order_size rule) = Ok false ->
  dec_gt p (Fin false 0 0) = Ok false ->
  c_quantize_order_amount pair amount (Some p) w = (Ok qa, w).
Proof.
  intros Hrule Hq Hmin Hp.
  unfold c_quantize_order_amount, c_get_order_size_quantum.
  unfold bind, lift, ret. rewrite (trading_rule_of_some _ _ _ Hrule).
  rewrite Hq. rewrite (trading_rule_of_some _ _ _ Hrule). now rewrite Hmin, Hp.
Qed.

Lemma quantize_amount_price_positive w pair rule amount p qa n below :
  dict_get (_trading_rules w) pair = Some rule ->
  quantize_down amount (min_base_amount_increment rule) = Ok qa ->
  dec_lt qa (min_order_size rule) = Ok false ->
  dec_gt p (Fin false 0 0) = Ok true ->
  dec_mul p qa = Ok n ->
  dec_lt n (min_notional_size rule) = Ok below ->
  c_quantize_order_amount pair amount (Some p) w =
    (Ok (if below then s_decimal_0 else qa), w).
Proof.
  intros Hrule Hq Hmin Hp Hn Hb.
  unfold c_quantize_order_amount, c_get_order_size_quantum.
  unfold bind, lift, ret. rewrite (trading_rule_of_some _ _ _ Hrule).
  rewrite Hq. rewrite (trading_rule_of_some _ _ _ Hrule). rewrite Hmin, Hp, Hn, Hb.
  destruct below; reflexivity.
Qed.

(** C2 (as amended).  For a pair with a rule as [_update_trading_rules]
    writes it, [c_quantize_order_amount] rounds the amount toward zero to the
    amount increment and [c_quantize_order_price] rounds the price toward
    zero to the price increment.  The result of the amount quantization is
    the sentinel [Decimal(0)] when the quantized amount is below the minimum
    order size, or when a price greater than zero was passed and that price
    times the quantized amount is below the minimum notional; without a
    price, or with one that is not greater than zero, the notional is not
    looked at and the quantized amount is returned.  [0.12345] with
    increment [0.01] quantizes to [0.12]. *)
Theorem quantization_rounds_toward_zero w pair rule amount price qa qp :
  dict_get (_trading_rules w) pair = Some rule ->
  written_rule rule ->
  finite amount -> finite price ->
  quantize_down amount (min_base_amount_increment rule) = Ok qa ->
  quantize_down price (min_price_increment rule) = Ok qp ->
  toward_zero amount (min_base_amount_increment rule) qa /\
  toward_zero price (min_price_increment rule) qp /\
  c_quantize_order_price pair price w = (Ok qp, w) /\
  (dec_lt qa (min_order_size rule) = Ok true ->
   forall p, c_quantize_order_amount pair amount p w = (Ok s_decimal_0, w)) /\
  (dec_lt qa (min_order_size rule) = Ok false ->
   c_quantize_order_amount pair amount None w = (Ok qa, w) /\
   (forall p, dec_gt p (Fin false 0 0) = Ok false ->
              c_quantize_order_amount pair amount (Some p) w = (Ok qa, w)) /\
   (forall p n below,
       dec_gt p (Fin false 0 0) = Ok true ->
       dec_mul p qa = Ok n ->
       dec_lt n (min_notional_size rule) = Ok below ->
       c_quantize_order_amount pair amount (Some p) w =
         (Ok (if below then s_decimal_0 else qa), w))) /\
  quantize_down (Fin false 12345 (-5)) (Fin false 1 (-2)) = Ok (Fin false 12 (-2)).
Proof.
  intros Hrule (_ & _ & Hpi & Hai & _) Ha Hp Hqa Hqp.
  split; [now apply quantize_down_toward_zero|].
  split; [now apply quantize_down_toward_zero|].
  split; [now apply quantize_price_run with rule|].
  split; [intros Hlt p; now apply quantize_amount_below_minimum with rule qa|].
  split; [|reflexivity].
  intros Hmin. split; [|split].
  - now apply quantize_amount_no_price with rule.
  - intros p Hgt. now apply quantize_amount_price_not_positive with rule.
  - intros p n below Hgt Hn Hb. now apply quantize_amount_price_positive with rule n.
Qed.

End QuantizationFacts.

(** ** The signed payloads *)

Section SerializationFacts.
Context {C : Collaborators}.
Local Open Scope stmt_scope.


Lemma serialize_placed_order exchange account order_id oid validSince side cid details :
  py_int order_id = Ok oid ->
  _serialize_order (order_dict exchange account order_id validSince side cid details)
  = Ok (canonical_order_record exchange oid account details validSince side).
Proof.
  intros Hid. unfold _serialize_order, order_dict, canonical_order_record.
  cbn. rewrite Hid. destruct side; reflexivity.
Qed.

Lemma serialize_needs_order_id exchange account order_id validSince side cid details e :
  py_int order_id = Raise e ->
  _serialize_order (order_dict exchange account order_id validSince side cid details)
  = Raise e.
Proof.
  intros Hid. unfold _serialize_order, order_dict. cbn. now rewrite Hid.
Qed.



End SerializationFacts.

Section CanonicalStringFacts.
Context {C : Collaborators}.
Local Open Scope stmt_scope.

Lemma split_on_nonempty sep s : split_on sep s <> [].
Proof.
  destruct s as [|c r]; simpl; [discriminate|].
  destruct (Ascii.eqb c sep); [discriminate|].
  destruct (split_on sep r); discriminate.
Qed.

Lemma split_on_app sep a b :
  split_on sep (a ++ String sep b) = (split_on sep a ++ split_on sep b)%list.
Proof.
  induction a as [|c a IH]; simpl.
  - now rewrite Ascii.eqb_refl.
  - destruct (Ascii.eqb c sep); [now rewrite IH|].
    rewrite IH. destruct (split_on sep a) eqn:E; [|reflexivity].
    now apply split_on_nonempty in E.
Qed.

Lemma split_on_absent sep s :
  forallb_string (fun c => negb (Ascii.eqb c sep)) s = true -> split_on sep s = [s].
Proof.
  induction s as [|c r IH]; simpl; [reflexivity|].
  intros H. apply andb_prop in H. destruct H as [Hc Hr].
  apply negb_true_iff in Hc. rewrite Hc, (IH Hr). reflexivity.
Qed.


Lemma save_headers_step {B} b h (k : unit -> M B) w0 :
  bind (save_headers b h) k w0 = k tt (if b then with_default_headers h w0 else w0).
Proof. destruct b; reflexivity. Qed.


End CanonicalStringFacts.

(** ** Rendering and reading, on examples *)

Example str_of_Z_examples :
  str_of_Z 0 = "0" /\ str_of_Z 1234 = "1234" /\ str_of_Z (-63) = "-63".
Proof. repeat split; reflexivity. Qed.

Example int_of_string_examples :
  int_of_string " 42 " = Ok 42 /\ int_of_string "-1_000" = Ok (-1000)
  /\ int_of_string "0x10" = Raise (ValueError [FStr "invalid literal for int() with base 10: "; FVal (PStr "0x10")]).
Proof. repeat split; reflexivity. Qed.

Example split_on_examples :
  split_on "-" "LRC-ETH" = ["LRC"; "ETH"] /\ split_on "-" "LRCETH" = ["LRCETH"]
  /\ split_on "-" "A-B-C" = ["A"; "B"; "C"].
Proof. repeat split; reflexivity. Qed.

(** [Decimal(f"1e-{p}")]: digits with underscores and trailing white space
    are read; the exponent is held exactly down to [MIN_ETINY] and refused
    below it; a rendering that is not a run of digits is refused. *)
Example decimal_1e_minus_examples :
  decimal_1e_minus (PInt 6) = Ok (Fin false 1 (-6))
  /\ decimal_1e_minus (PStr "1_8 ") = Ok (Fin false 1 (-18))
  /\ decimal_1e_minus (PInt 1999999999999999997) = Ok (Fin false 1 (-1999999999999999997))
  /\ decimal_1e_minus (PInt 1999999999999999998) = Raise (InvalidOperation "InvalidOperation")
  /\ decimal_1e_minus (PInt (10 ^ 19)) = Raise (InvalidOperation "InvalidOperation")
  /\ decimal_1e_minus (PStr "6.0") = Raise (InvalidOperation "ConversionSyntax")
  /\ decimal_1e_minus (PInt (-6)) = Raise (InvalidOperation "ConversionSyntax")
  /\ decimal_1e_minus (PBool true) = Raise (InvalidOperation "ConversionSyntax").
Proof. repeat split; reflexivity. Qed.

(** A run is its result and the state it leaves. *)
Lemma result_with_state {C : Collaborators} {A} (x : Res A * World) a :
  fst x = a -> x = (a, snd x).
Proof. destruct x. simpl. now intros ->. Qed.

(** ** Worked runs

    The statements above at concrete inputs, and the inputs on which the
    code departs from its specification.  The setting is the one of
    [demo]: pair LRC-ETH with the rule [lrc_eth_rule]. *)

Section Runs.
#[local] Existing Instance demo.
Local Open Scope stmt_scope.

Lemma lrc_eth_rule_written : written_rule lrc_eth_rule.
Proof. unfold written_rule, power_of_ten. simpl. repeat split; eexists; reflexivity. Defined.

(** C1, where the code departs from it.  A connector without a counter for
    token 3 and an exchange that reports 7 as the next order id: two calls in
    a row, neither forcing a resync, both return 7.  The first takes the cold
    path and stores the fetched 7 as it is; the second returns the stored 7
    and only then moves the counter to 8. *)
Lemma cold_path_hands_out_the_same_id_twice :
  let w := demo_world [] [] [] (remote_data (PInt 7)) in
  fst (allocate_many 2 3 w) = Ok [PInt 7; PInt 7] /\
  _next_order_id (snd (allocate_many 2 3 w)) = [(3, PInt 8)] /\
  List.length (requests (snd (allocate_many 2 3 w))) = 1%nat.
Proof. repeat split. Qed.

(** C2, the counterexample.  Minimum notional 0.01: the amount 5 quantized
    to 5.00 with price 0 has notional 0, below the minimum, and yet the
    result is 5.00 and not the sentinel; the same holds when no price is
    passed, which is how [execute_order] calls it. *)
Lemma zero_price_skips_notional_check :
  let w := demo_world [("LRC-ETH", lrc_eth_rule)] [] [] remote_down in
  c_quantize_order_amount "LRC-ETH" (Fin false 5 0) (Some (Fin false 0 0)) w
    = (Ok (Fin false 500 (-2)), w) /\
  dec_mul (Fin false 0 0) (Fin false 500 (-2)) = Ok (Fin false 0 (-2)) /\
  dec_lt (Fin false 0 (-2)) (min_notional_size lrc_eth_rule) = Ok true /\
  c_quantize_order_amount "LRC-ETH" (Fin false 5 0) None w
    = (Ok (Fin false 500 (-2)), w) /\
  Fin false 500 (-2) <> s_decimal_0.
Proof. repeat split. discriminate. Qed.

(** C2 as amended, at amount 12.345 and price 0.0012345678. *)
Lemma quantization_rounds_toward_zero_witness :
  let w := demo_world [("LRC-ETH", lrc_eth_rule)] [] [] remote_down in
  toward_zero (Fin false 12345 (-3)) (Fin false 1 (-2)) (Fin false 1234 (-2)) /\
  toward_zero (Fin false 12345678 (-10)) (Fin false 1 (-6)) (Fin false 1234 (-6)) /\
  c_quantize_order_amount "LRC-ETH" (Fin false 12345 (-3)) None w
    = (Ok (Fin false 1234 (-2)), w) /\
  c_quantize_order_amount "LRC-ETH" (Fin false 12345 (-3)) (Some (Fin false 1 (-6))) w
    = (Ok s_decimal_0, w).
Proof.
  intros w.
  destruct (quantization_rounds_toward_zero w "LRC-ETH" lrc_eth_rule
              (Fin false 12345 (-3)) (Fin false 12345678 (-10))
              (Fin false 1234 (-2)) (Fin false 1234 (-6))
              eq_refl lrc_eth_rule_written I I eq_refl eq_refl)
    as (Ha & Hp & _ & _ & Hrest & _).
  destruct (Hrest eq_refl) as (Hnone & _ & Hpos).
  split; [exact Ha|]. split; [exact Hp|]. split; [exact Hnone|].
  exact (Hpos (Fin false 1 (-6)) (Fin false 1234 (-8)) true eq_refl eq_refl eq_refl).
Defined.

(** C3, the counterexample.  A buy of 0.5 LRC, below the minimum order
    size 1: the submission path does not return the sentinel, it raises the
    validation error and triggers the failure event. *)
Lemma below_minimum_buy_raises :
  let w := demo_world [("LRC-ETH", lrc_eth_rule)] [] [(0, PInt 7)] remote_down in
  let run := execute_buy "buy-LRC-ETH-1" "LRC-ETH" (Fin false 5 (-1)) LIMIT (Fin false 1 (-2)) w in
  fst run =
    Raise (ValueError [FStr "Order amount("; FDec (Fin false 0 0);
                       FStr ") is less than the minimum allowable amount(";
                       FDec (Fin false 1000000000000000000 (-18)); FStr ")"]) /\
  events (snd run) =
    [(OrderFailure, MarketOrderFailureEvent 1600000000000 "buy-LRC-ETH-1" LIMIT)].
Proof. repeat split. Qed.

(** C3 as amended, at that input. *)
Lemma below_minimum_buy_is_rejected_witness :
  let w := demo_world [("LRC-ETH", lrc_eth_rule)] [] [(0, PInt 7)] remote_down in
  c_quantize_order_amount "LRC-ETH" (Fin false 5 (-1)) None w = (Ok s_decimal_0, w) /\
  exists msg w',
    execute_buy "buy-LRC-ETH-1" "LRC-ETH" (Fin false 5 (-1)) LIMIT (Fin false 1 (-2)) w
      = (Raise (ValueError msg), w') /\
    events w' =
      (events w ++ [(ORDER_FAILURE_EVENT,
                     MarketOrderFailureEvent (clock w * 1000) "buy-LRC-ETH-1" LIMIT)])%list /\
    crypto_calls w' = crypto_calls w /\
    requests w' = requests w /\
    _next_order_id w' = _next_order_id w /\
    dict_get (_in_flight_orders w') "buy-LRC-ETH-1" = None.
Proof.
  intros w.
  exact (below_minimum_buy_is_rejected w "buy-LRC-ETH-1" "LRC-ETH" (Fin false 5 (-1))
           LIMIT (Fin false 1 (-2)) lrc_eth_rule (Fin false 50 (-2)) (Fin false 10000 (-6))
           eq_refl eq_refl eq_refl eq_refl eq_refl).
Defined.

(** The canonical string of the cancellation of order [o1]. *)
Example cancel_request_canonical_string :
  canonical_string "DELETE" (API_REST_ENDPOINT ++ ORDER_CANCEL_ROUTE)
    [("accountId", PInt 1234); ("clientOrderId", PStr "o1")]
  = "DELETE&https%3A%2F%2Fapi.loopring.io%2Fapi%2Fv2%2Forders&accountId%3D1234%26clientOrderId%3Do1".
Proof. reflexivity. Qed.

(** C6, where the code departs from it.  A LIMIT buy of 5 LRC at 0.01 that
    passes validation while the exchange is unreachable: the POST times out,
    the handler's resync query times out as well, the allocator swallows
    that error and ends in the unbound-local error, and the handler is left
    before it reaches the failure event.  The submission has failed and no
    order-failure event was triggered. *)
Lemma failed_submission_without_failure_event :
  let w := demo_world [("LRC-ETH", lrc_eth_rule)] [] [(0, PInt 7)] remote_down in
  let run := execute_buy "buy-LRC-ETH-1" "LRC-ETH" (Fin false 5 0) LIMIT (Fin false 1 (-2)) w in
  fst run = Raise (UnboundLocalError "next_id") /\
  events (snd run) = [] /\
  map rq_method (requests (snd run)) = ["POST"; "GET"] /\
  _next_order_id (snd run) = [(0, PInt 8)].
Proof. repeat split. Qed.

(** C7, the counterexample.  The exchange is unreachable, the query raises
    the time-out; what the caller of the allocator gets is not that error. *)
Lemma remote_error_is_not_reported :
  let w := demo_world [] [] [] remote_down in
  fst (api_request "GET" NEXT_ORDER_ID None (Some (next_id_params w 3)) None false w)
    = Raise (IOError "timeout") /\
  fst (_get_next_order_id 3 false w) = Raise (UnboundLocalError "next_id") /\
  fst (_get_next_order_id 3 false w) <> Raise (IOError "timeout").
Proof. repeat split. discriminate. Qed.

(** C7 as amended, at that input. *)
Lemma remote_error_is_swallowed_witness :
  let w := demo_world [] [] [] remote_down in
  fst (_get_next_order_id 3 false w) = Raise (UnboundLocalError "next_id") /\
  logs (snd (_get_next_order_id 3 false w)) =
    [(INFO, [FStr "timeout"]);
     (INFO, [FStr "Error getting the next order id from Loopring"])] /\
  _next_order_id (snd (_get_next_order_id 3 false w)) = [].
Proof.
  intros w.
  destruct (remote_error_is_swallowed 3 false w (IOError "timeout")
              (snd (api_request "GET" NEXT_ORDER_ID None (Some (next_id_params w 3))
                      None false w))
              eq_refl eq_refl) as (Hrun & Hctr & _).
  rewrite Hrun. repeat split.
Defined.

(** C8, at the push message for the unknown id [buy-LRC-ETH-9] while the
    registry holds [o1]. *)
Lemma unknown_order_push_is_dropped_witness :
  let w := demo_world [] [("o1", demo_order "o1")] [] remote_down in
  user_stream_step demo_push_message w =
    (Ok tt,
     with_logs [(DEBUG, [FStr "Unrecognized order ID from user stream: ";
                         FVal (PStr "buy-LRC-ETH-9"); FStr "."]);
                (DEBUG, [FStr "Event: "; FStr demo_push_message])] w) /\
  _in_flight_orders (snd (user_stream_step demo_push_message w)) = [("o1", demo_order "o1")] /\
  events (snd (user_stream_step demo_push_message w)) = [].
Proof.
  intros w.
  destruct (unknown_order_push_is_dropped w demo_push_message demo_push_event
              (PDict [("topic", PStr "order"); ("market", PStr "LRC-ETH")])
              (PDict [("clientOrderId", PStr "buy-LRC-ETH-9"); ("status", PStr "processing")])
              (PStr "buy-LRC-ETH-9") eq_refl eq_refl eq_refl eq_refl eq_refl
              ltac:(intros id [= <-]; reflexivity))
    as (records & _ & Hrun & Hrec).
  rewrite Hrun, (Hrec _ eq_refl). repeat split.
Defined.

(** C9, where the code departs from it.  Two tracked orders and an
    unreachable exchange: both cancellations fail (each is logged as
    failed, both orders stay in the registry, no cancellation event is
    triggered), and [cancel_all] reports success for both. *)
Lemma cancel_all_reports_failed_cancellations_as_successful :
  let w := demo_world [] [("o1", demo_order "o1"); ("o2", demo_order "o2")] [] remote_down in
  let run := cancel_all 10%Q w in
  fst run = Ok [mkCancellationResult "o1" true; mkCancellationResult "o2" true] /\
  dict_keys (_in_flight_orders (snd run)) = ["o1"; "o2"] /\
  events (snd run) = [] /\
  logs (snd run) =
    [(INFO, [FStr "Failed to cancel order "; FStr "o1"]); (DEBUG, [FStr "timeout"]);
     (INFO, [FStr "Failed to cancel order "; FStr "o2"]); (DEBUG, [FStr "timeout"])].
Proof. repeat split. Qed.



(** The normal path at token 3 with the counter at 7: three calls return
    7, 8, 9 and leave the counter at 10. *)
Lemma allocate_many_warm_witness :
  let w := demo_world [] [] [(3, PInt 7)] remote_down in
  fst (allocate_many 3 3 w) = Ok [PInt 7; PInt 8; PInt 9] /\
  dict_get (_next_order_id (snd (allocate_many 3 3 w))) 3 = Some (PInt 10).
Proof.
  intros w.
  destruct (allocate_many_warm 3 3 7 w eq_refl) as (w' & Hrun & Hctr & _).
  rewrite Hrun. split; [reflexivity|exact Hctr].
Defined.

(** The repeat after a cold call, at token 3 and an exchange that reports
    7. *)
Lemma cold_then_warm_repeat_witness :
  let w := demo_world [] [] [] (remote_data (PInt 7)) in
  exists w2, allocate_many 2 3 w = (Ok [PInt 7; PInt 7], w2).
Proof.
  intros w.
  exact (cold_then_warm_repeat 3 w (PDict [("data", PInt 7)]) 7 _
           eq_refl eq_refl eq_refl).
Defined.

End Runs.

(** * Further properties

    What the methods do beyond the statements above: the outcomes of
    requests, cancellations and submissions case by case, order updates,
    the stream listener and the status poll, the refresh of the trading
    rules, the registry, and the helpers of the module. *)

(** ** Requests *)

Section RequestFacts.
Context {C : Collaborators}.
Local Open Scope stmt_scope.

(** An unsigned call: the headers are put together, the request goes out,
    and the answer decides. *)
Lemma api_request_unsigned method url data params headers w :
  api_request method url data params headers false w =
    let w1 := after_unsigned_request w method url data params headers in
    match remote w (requests w) (unsigned_request w method url data params headers) with
    | Transport e => (Raise e, w1)
    | Http status body =>
        if status =? 200 then (body, w1)
        else (Raise await_method_error,
              with_logs (logs w ++ [issue_line method url]) w1)
    end.
Proof.
  unfold api_request, after_unsigned_request, unsigned_request, unsigned_headers,
    shares_headers, posts_body, issue_line.
  unfold bind, gets, save_headers, modify, ret, send.
  destruct (match data with Some _ => (method =? "POST")%string | None => false end);
    [|destruct headers]; simpl;
  match goal with
  | |- context [remote ?w0 ?l ?rq] => destruct (remote w0 l rq) as [e|status body]
  end; try reflexivity; destruct (status =? 200); reflexivity.
Qed.

(** On a status other than 200 the call does not end in the [IOError] that
    names the status: reading the body for the log fails first, with a
    [TypeError], after the request went out and one line was logged. *)
Theorem error_status_raises_type_error method url data params headers w status body :
  remote w (requests w) (unsigned_request w method url data params headers)
    = Http status body ->
  status <> 200 ->
  api_request method url data params headers false w =
    (Raise await_method_error,
     with_logs (logs w ++ [issue_line method url])
       (after_unsigned_request w method url data params headers)).
Proof.
  intros Hout Hst. rewrite api_request_unsigned. cbv zeta. rewrite Hout.
  destruct (Z.eqb_spec status 200); [contradiction|reflexivity].
Qed.

(** [check_network] never raises, sends the one request for the exchange's
    time stamp, and says [CONNECTED] exactly when the answer has status 200
    and a body that decodes; registry, events and counters stay as they
    were. *)
Theorem check_network_reports_reachability w :
  exists w',
    check_network w =
      (Ok (if answers_ok (remote w (requests w)
                            (unsigned_request w "GET" EXCHANGE_INFO_ROUTE None None None))
           then CONNECTED else NOT_CONNECTED), w') /\
    requests w' =
      (requests w ++ [unsigned_request w "GET" EXCHANGE_INFO_ROUTE None None None])%list /\
    events w' = events w /\
    _in_flight_orders w' = _in_flight_orders w /\
    _next_order_id w' = _next_order_id w /\
    _trading_rules w' = _trading_rules w.
Proof.
  unfold check_network, try_except. unfold bind at 1. unfold bind at 1.
  rewrite api_request_unsigned. cbv zeta.
  destruct (remote w (requests w) _) as [e|status [body|e]]; simpl.
  - eexists. split; [reflexivity|]. simpl. auto.
  - destruct (status =? 200); simpl; eexists; (split; [reflexivity|]); simpl; auto.
  - destruct (status =? 200); simpl; eexists; (split; [reflexivity|]); simpl; auto.
Qed.

End RequestFacts.
Section SignedFacts.
Context {C : Collaborators}.
Local Open Scope stmt_scope.

(** A signed call without a body and without [headers], when the key reads
    as an integer and the signing succeeds. *)
Lemma api_request_signed method url params w key rx ry s :
  int_of_string (loopring_private_key w) = Ok key ->
  eddsa_sign (request_hash method url params) key = Ok (rx, ry, s) ->
  api_request method url None (Some params) None true w =
    let w1 := after_signed_request w method url params key (signature_of rx ry s) in
    match remote w (requests w)
            (signed_request w method url params (signature_of rx ry s)) with
    | Transport e => (Raise e, w1)
    | Http status body =>
        if status =? 200 then (body, w1)
        else (Raise await_method_error,
              with_logs (logs w ++ [issue_line method url]) w1)
    end.
Proof.
  intros Hkey Hsign. unfold api_request. rewrite bind_gets.
  cbv beta iota zeta. rewrite save_headers_step.
  rewrite bind_bind.
  change (_encode_request (API_REST_ENDPOINT ++ url) method (Some params))
    with (Ok (canonical_string method (API_REST_ENDPOINT ++ url) params)).
  rewrite bind_lift.
  rewrite bind_bind. unfold record_crypto at 1. rewrite bind_modify.
  rewrite bind_bind, bind_bind, bind_gets, bind_lift.
  simpl loopring_private_key. rewrite Hkey.
  rewrite bind_bind. unfold record_crypto at 1. rewrite bind_modify.
  rewrite bind_bind, bind_lift.
  fold (request_hash method url params). rewrite Hsign.
  rewrite bind_bind, save_headers_step, bind_ret.
  match goal with
  | |- bind (send ?rq) ?k ?w0 = _ =>
      change (bind (send rq) k w0)
        with (k (remote w (requests w)
                   (signed_request w method url params (signature_of rx ry s)))
                (with_requests
                   (requests w ++ [signed_request w method url params (signature_of rx ry s)])
                   w0))
  end.
  cbv zeta.
  destruct (remote w (requests w) _) as [e|status body].
  - unfold raise, after_signed_request.
    unfold with_requests, with_default_headers, with_crypto_calls. simpl.
    rewrite <- app_assoc. reflexivity.
  - destruct (status =? 200); unfold lift, log, raise, bind, modify, after_signed_request;
      unfold with_logs, with_requests, with_default_headers, with_crypto_calls; simpl;
      rewrite <- app_assoc; reflexivity.
Qed.

Lemma dict_get_update_absent {V} (e d : Dict string V) k :
  dict_get e k = None -> dict_get (dict_update d e) k = dict_get d k.
Proof.
  unfold dict_update. revert d.
  induction e as [|[k' v] r IH]; intros d He; simpl in *; [reflexivity|].
  destruct (String.eqb k k') eqn:E; [discriminate|].
  rewrite (IH _ He).
  apply dict_get_set_other; [apply string_keqb_true|exact E].
Qed.

Lemma requests_after_unsigned w method url data params headers :
  requests (snd (api_request method url data params headers false w)) =
    (requests w ++ [unsigned_request w method url data params headers])%list.
Proof.
  rewrite api_request_unsigned. cbv zeta.
  destruct (remote w (requests w) _) as [e|status body]; [reflexivity|].
  destruct (status =? 200); reflexivity.
Qed.

(** A call that brings its own headers, or posts a body, leaves the shared
    dictionary alone. *)
Lemma api_request_own_headers m u d p h s w :
  shares_headers m d h = false ->
  default_headers (snd (api_request m u d p h s w)) = default_headers w.
Proof.
  unfold shares_headers, posts_body. intros Hown.
  assert (Hp : preserves default_headers (api_request m u d p h s)).
  { unfold api_request.
    apply preserves_bind; [frame|intros shared].
    destruct (match d with Some _ => (m =? "POST")%string | None => false end);
      [|destruct h; [|discriminate]]; cbv zeta beta iota.
    all: apply preserves_bind; [unfold save_headers; frame | intros _].
    all: apply preserves_bind;
      [destruct s; unfold save_headers; frame | intros hdrs].
    all: apply preserves_bind; [intro w0; reflexivity | intros outcome].
    all: frame. }
  apply Hp.
Qed.

(** Only a call that signs on the shared dictionary changes the signature
    that is kept there. *)
Lemma api_request_keeps_signature c w :
  dict_get generate_auth_dict "X-API-SIG" = None ->
  signs_shared_headers c = false ->
  dict_get (default_headers (snd (run_call c w))) "X-API-SIG"
    = dict_get (default_headers w) "X-API-SIG".
Proof.
  intros Hauth Hc. unfold run_call, signs_shared_headers in *.
  destruct c as [m u d p h s]. simpl in *.
  destruct (shares_headers m d h) eqn:Hshare.
  2:{ now rewrite api_request_own_headers. }
  rewrite andb_true_r in Hc. subst s.
  rewrite api_request_unsigned. cbv zeta.
  assert (Hw1 : dict_get (default_headers (after_unsigned_request w m u d p h)) "X-API-SIG"
                = dict_get (default_headers w) "X-API-SIG").
  { unfold after_unsigned_request. rewrite Hshare. simpl.
    unfold unsigned_headers. unfold shares_headers in Hshare.
    destruct (posts_body m d); [discriminate|]. destruct h; [discriminate|].
    now apply dict_get_update_absent. }
  destruct (remote w (requests w) _) as [e|status body]; [exact Hw1|].
  destruct (status =? 200); exact Hw1.
Qed.

Lemma after_calls_keep_signature calls : forall w,
  dict_get generate_auth_dict "X-API-SIG" = None ->
  Forall (fun c => signs_shared_headers c = false) calls ->
  dict_get (default_headers (after_calls calls w)) "X-API-SIG"
    = dict_get (default_headers w) "X-API-SIG".
Proof.
  induction calls as [|c rest IH]; intros w Hauth Hall; [reflexivity|].
  inversion Hall as [|? ? Hc Hrest]; subst. simpl.
  rewrite IH by assumption. now apply api_request_keeps_signature.
Qed.

(** The default [headers={}] of [api_request] is one dictionary for all
    calls.  A signed call made without [headers] writes its signature into
    it, and the signature stays there until another call signs on the
    shared dictionary: through any run of calls that do not, whatever they
    return or raise, and then a call made without [headers] (and without a
    body to post) sends that signature along, though it is not signed. *)
Theorem signature_header_outlives_its_request w m1 u1 p1 key rx ry s later m2 u2 d2 p2 :
  int_of_string (loopring_private_key w) = Ok key ->
  eddsa_sign (request_hash m1 u1 p1) key = Ok (rx, ry, s) ->
  dict_get generate_auth_dict "X-API-SIG" = None ->
  Forall (fun c => signs_shared_headers c = false) later ->
  posts_body m2 d2 = false ->
  let w1 := snd (api_request m1 u1 None (Some p1) None true w) in
  let w2 := after_calls later w1 in
  exists rq2,
    requests (snd (api_request m2 u2 d2 p2 None false w2)) = (requests w2 ++ [rq2])%list /\
    dict_get (rq_headers rq2) "X-API-SIG" = Some (signature_of rx ry s).
Proof.
  intros Hkey Hsign Hauth Hlater Hpost w1 w2.
  assert (Hshared : default_headers w1 = signed_headers w (signature_of rx ry s)).
  { unfold w1. rewrite (api_request_signed _ _ _ _ _ _ _ _ Hkey Hsign). cbv zeta.
    destruct (remote w (requests w) _) as [e|status body]; [reflexivity|].
    destruct (status =? 200); reflexivity. }
  exists (unsigned_request w2 m2 u2 d2 p2 None). split.
  - apply requests_after_unsigned.
  - unfold unsigned_request, unsigned_headers. simpl rq_headers.
    rewrite Hpost.
    rewrite (dict_get_update_absent _ _ _ Hauth).
    unfold w2. rewrite (after_calls_keep_signature later w1 Hauth Hlater), Hshared.
    unfold signed_headers, dict_update at 1. simpl fold_left.
    apply dict_get_set_same. apply String.eqb_refl.
Qed.
End SignedFacts.

(** ** Cancellation, case by case *)

Section CancelOutcomes.
Context {C : Collaborators}.
Local Open Scope stmt_scope.

Lemma dict_mem_false_get {V} (d : Dict string V) k :
  dict_mem d k = false -> dict_get d k = None.
Proof. unfold dict_mem. destruct (dict_get d k); [discriminate|reflexivity]. Qed.

(** [cancel_order] never raises, and it keeps the event stream in step with
    the registry: either the id is not tracked afterwards and the one
    cancellation event for it was triggered, or the id was tracked and
    still is, with registry and events as they were.  The first is the case
    also for an id that was never tracked: no request is needed for that. *)
Theorem cancel_order_event_matches_registry id w :
  exists w',
    cancel_order id w = (Ok tt, w') /\
    ((dict_get (_in_flight_orders w') id = None /\
      events w' = (events w ++ [cancellation_of w id])%list /\
      (dict_get (_in_flight_orders w) id = None -> requests w' = requests w)) \/
     (dict_get (_in_flight_orders w) id <> None /\
      _in_flight_orders w' = _in_flight_orders w /\
      events w' = events w)).
Proof.
  unfold cancel_order.
  rewrite bind_gets. unfold now. rewrite bind_gets.
  destruct (dict_get (_in_flight_orders w) id) as [o|] eqn:Hget.
  - unfold try_except. rewrite bind_gets.
    set (call := api_request "DELETE" ORDER_CANCEL_ROUTE None
                   (Some [("accountId", PInt (loopring_accountid w));
                          ("clientOrderId", PStr id)]) None true).
    assert (Hev : events (snd (call w)) = events w)
      by (apply (api_request_frame events); intros; reflexivity).
    assert (Hreg : _in_flight_orders (snd (call w)) = _in_flight_orders w)
      by (apply (api_request_frame _in_flight_orders); intros; reflexivity).
    unfold bind at 1.
    destruct (call w) as [[v|e] w1]; simpl in Hev, Hreg.
    + eexists. split; [reflexivity|]. left.
      unfold log, stop_tracking, c_trigger_event, bind, modify. simpl.
      destruct (dict_mem (_in_flight_orders w1) id) eqn:Hm; simpl.
      * split; [apply dict_get_del_same|]. split; [now rewrite Hev|discriminate].
      * split; [now apply dict_mem_false_get|]. split; [now rewrite Hev|discriminate].
    + eexists. split; [reflexivity|]. right.
      split; [discriminate|]. simpl. auto.
  - eexists. split; [reflexivity|]. left. simpl. auto.
Qed.

(** For a tracked order, one signed DELETE goes out, and the order leaves
    the registry exactly when the answer has status 200 and a body that
    decodes; what the body says is not looked at. *)
Theorem cancel_order_follows_the_answer id o w key rx ry s :
  dict_get (_in_flight_orders w) id = Some o ->
  let params := [("accountId", PInt (loopring_accountid w)); ("clientOrderId", PStr id)] in
  int_of_string (loopring_private_key w) = Ok key ->
  eddsa_sign (request_hash "DELETE" ORDER_CANCEL_ROUTE params) key = Ok (rx, ry, s) ->
  let rq := signed_request w "DELETE" ORDER_CANCEL_ROUTE params (signature_of rx ry s) in
  let w' := snd (cancel_order id w) in
  requests w' = (requests w ++ [rq])%list /\
  (dict_get (_in_flight_orders w') id = None <->
   answers_ok (remote w (requests w) rq) = true).
Proof.
  intros Hget params Hkey Hsign rq w'. unfold w', cancel_order.
  rewrite bind_gets. unfold now. rewrite bind_gets. rewrite Hget.
  unfold try_except. rewrite bind_gets. cbv zeta.
  pose proof (api_request_signed "DELETE" ORDER_CANCEL_ROUTE params w key rx ry s Hkey Hsign)
    as Hcall.
  cbv zeta in Hcall. fold rq in Hcall. unfold answers_ok.
  destruct (remote w (requests w) rq) as [e|status [body|e]].
  - rewrite (bind_raise _ _ _ _ _ Hcall).
    simpl. split; [reflexivity|]. rewrite Hget. split; discriminate.
  - destruct (Z.eqb_spec status 200) as [->|Hne].
    + rewrite (bind_ok _ _ _ _ _ Hcall).
      unfold log, stop_tracking, c_trigger_event, bind, modify. simpl.
      unfold dict_mem. rewrite Hget. simpl. split; [reflexivity|].
      split; [reflexivity|intros _; apply dict_get_del_same].
    + rewrite (bind_raise _ _ _ _ _ Hcall).
      simpl. split; [reflexivity|]. rewrite Hget. split; discriminate.
  - destruct (Z.eqb_spec status 200) as [->|Hne];
      rewrite (bind_raise _ _ _ _ _ Hcall);
      simpl; (split; [reflexivity|]); rewrite Hget; split; discriminate.
Qed.

End CancelOutcomes.

(** ** Submission, case by case *)

Section SubmissionOutcomes.
Context {C : Collaborators}.
Local Open Scope stmt_scope.

(** An order for a pair without a trading rule ends in a [KeyError], which
    is not a [ValueError]: neither [execute_buy] nor [execute_sell] handles
    it, so no failure event is triggered and the state is as before. *)
Theorem order_for_unknown_pair_raises_key_error w id pair amount order_type price :
  dict_get (_trading_rules w) pair = None ->
  execute_buy id pair amount order_type price w = (Raise (KeyError (PStr pair)), w) /\
  execute_sell id pair amount order_type price w = (Raise (KeyError (PStr pair)), w).
Proof.
  intros Hrule.
  assert (Hq : c_quantize_order_amount pair amount None w = (Raise (KeyError (PStr pair)), w)).
  { unfold c_quantize_order_amount, c_get_order_size_quantum.
    unfold bind at 1. unfold bind at 1.
    now rewrite (trading_rule_of_none _ _ Hrule). }
  assert (Hx : forall side,
             execute_order side id pair amount order_type price w
               = (Raise (KeyError (PStr pair)), w)).
  { intros side. unfold execute_order. now rewrite (bind_raise _ _ _ _ _ Hq). }
  split.
  - unfold execute_buy.
    now rewrite (try_except_passed _ _ _ _ _ _ (bind_raise _ _ _ _ _ (Hx BUY)) eq_refl).
  - unfold execute_sell.
    now rewrite (try_except_passed _ _ _ _ _ _ (bind_raise _ _ _ _ _ (Hx SELL)) eq_refl).
Qed.

Lemma getitem_has_key v k x : py_getitem v k = Ok x -> py_has_key v k = Ok true.
Proof.
  destruct v; simpl; try discriminate.
  unfold dict_mem. destruct (dict_get d k); [reflexivity|discriminate].
Qed.

Lemma place_order_keeps_clock id pair amount is_buy order_type price w :
  clock (snd (place_order id pair amount is_buy order_type price w)) = clock w.
Proof. apply (place_order_frame clock); intros; reflexivity. Qed.

(** An order that passes the checks of [execute_order] is submitted; when
    the exchange's answer has a [data] entry, [execute_buy] returns normally,
    the order built from the answer is tracked under its own client order
    id, and one created event is triggered.  The tracked order is built from
    the quantized amount and price; the event carries the amount and price
    as they were passed in. *)
Theorem accepted_buy_is_tracked_and_announced
    w id pair amount order_type price rule qa qp response loopring_order order w1 :
  dict_get (_trading_rules w) pair = Some rule ->
  passes_checks rule order_type amount price qa qp ->
  place_order id pair qa true order_type qp w = (Ok response, w1) ->
  py_getitem response "data" = Ok loopring_order ->
  from_loopring_order BUY id (clock w) loopring_order pair qp qa = Ok order ->
  exists w',
    execute_buy id pair amount order_type price w = (Ok tt, w') /\
    _in_flight_orders w' =
      dict_set (_in_flight_orders w) (io_client_order_id order) order /\
    events w' =
      (events w ++ [(BUY_ORDER_CREATED_EVENT,
                     BuyOrderCreatedEvent (clock w * 1000) order_type pair amount price id)])%list /\
    requests w' = requests w1 /\
    _next_order_id w' = _next_order_id w1.
Proof.
  intros Hrule (Hqa & Hqp & Hlimit & Hmarket & Hmin & Hmax & notional & Hmul & Hnot)
    Hplace Hdata Horder.
  pose proof (place_order_frame events (fun _ _ => eq_refl) (fun _ _ => eq_refl)
                (fun _ _ => eq_refl) (fun _ _ => eq_refl) (fun _ _ => eq_refl)
                id pair qa true order_type qp w) as Hev.
  pose proof (place_order_frame _in_flight_orders (fun _ _ => eq_refl) (fun _ _ => eq_refl)
                (fun _ _ => eq_refl) (fun _ _ => eq_refl) (fun _ _ => eq_refl)
                id pair qa true order_type qp w) as Hreg.
  pose proof (place_order_keeps_clock id pair qa true order_type qp w) as Hclock.
  rewrite Hplace in Hev, Hreg, Hclock. simpl in Hev, Hreg, Hclock.
  eexists. split.
  - unfold execute_buy, try_except. unfold bind at 1. unfold execute_order.
    rewrite (bind_ok _ _ _ _ _ (quantize_amount_no_price _ _ _ _ _ Hrule Hqa Hmin)).
    rewrite (bind_ok _ _ _ _ _ (quantize_price_run _ _ _ _ _ Hrule Hqp)).
    rewrite (bind_ok _ _ _ _ _ (trading_rule_of_some _ _ _ Hrule)).
    rewrite Hlimit, Hmarket. rewrite bind_ret.
    rewrite bind_lift, Hmin, bind_ret.
    rewrite bind_lift, Hmax, bind_ret.
    rewrite bind_lift, Hmul, bind_lift, Hnot, bind_ret.
    unfold try_except at 1.
    rewrite bind_gets. simpl TradeType_eqb.
    rewrite (bind_ok _ _ _ _ _ Hplace).
    rewrite bind_lift, (getitem_has_key _ _ _ Hdata). simpl negb. cbv iota.
    rewrite bind_ret, bind_lift, Hdata, bind_lift, Horder.
    unfold start_tracking, log, now, c_trigger_event, bind, modify, gets. simpl.
    reflexivity.
  - simpl. rewrite Hreg, Hev, Hclock. auto.
Qed.

Lemma resync_keeps_clock token force w :
  clock (snd (_get_next_order_id token force w)) = clock w.
Proof. apply (get_next_order_id_frame clock); intros; reflexivity. Qed.

Lemma resync_keeps_events token force w :
  events (snd (_get_next_order_id token force w)) = events w.
Proof. apply (get_next_order_id_frame events); intros; reflexivity. Qed.

(** When the submission of a checked order fails, whatever the reason,
    [execute_order] handles the failure itself.  If the handler gets
    through, [execute_sell] goes on as after a success: the failure event is
    followed by a created event for the same id, and the call returns
    normally.  If the handler fails in turn, the call raises; the failure
    event was triggered only if that second error is a [ValueError]. *)
Theorem failed_sell_submission_events
    w id pair amount order_type price rule qa qp e w1 :
  dict_get (_trading_rules w) pair = Some rule ->
  passes_checks rule order_type amount price qa qp ->
  place_order id pair qa false order_type qp w = (Raise e, w1) ->
  let failure :=
    (ORDER_FAILURE_EVENT, MarketOrderFailureEvent (clock w * 1000) id order_type) in
  let created :=
    (SELL_ORDER_CREATED_EVENT,
     SellOrderCreatedEvent (clock w * 1000) order_type pair amount price id) in
  let out := execute_sell id pair amount order_type price w in
  match fst out with
  | Ok _ => events (snd out) = (events w ++ [failure; created])%list
  | Raise e' =>
      events (snd out) = (events w ++ (if is_ValueError e' then [failure] else []))%list
  end.
Proof.
  intros Hrule (Hqa & Hqp & Hlimit & Hmarket & Hmin & Hmax & notional & Hmul & Hnot)
    Hplace failure created out.
  pose proof (place_order_frame events (fun _ _ => eq_refl) (fun _ _ => eq_refl)
                (fun _ _ => eq_refl) (fun _ _ => eq_refl) (fun _ _ => eq_refl)
                id pair qa false order_type qp w) as Hev.
  pose proof (place_order_keeps_clock id pair qa false order_type qp w) as Hclock.
  rewrite Hplace in Hev, Hclock. simpl in Hev, Hclock.
  unfold out. clear out.
  pattern (execute_sell id pair amount order_type price w).
  match goal with |- ?G _ => set (P := G) end.
  unfold execute_sell, try_except. unfold bind at 1. unfold execute_order.
  rewrite (bind_ok _ _ _ _ _ (quantize_amount_no_price _ _ _ _ _ Hrule Hqa Hmin)).
  rewrite (bind_ok _ _ _ _ _ (quantize_price_run _ _ _ _ _ Hrule Hqp)).
  rewrite (bind_ok _ _ _ _ _ (trading_rule_of_some _ _ _ Hrule)).
  rewrite Hlimit, Hmarket. rewrite bind_ret.
  rewrite bind_lift, Hmin, bind_ret.
  rewrite bind_lift, Hmax, bind_ret.
  rewrite bind_lift, Hmul, bind_lift, Hnot, bind_ret.
  unfold try_except at 1.
  rewrite bind_gets. simpl TradeType_eqb.
  rewrite (bind_raise _ _ _ _ _ Hplace). simpl any_Exception. cbv iota.
  unfold log at 1. rewrite bind_modify. unfold log at 1. rewrite bind_modify.
  rewrite bind_lift.
  destruct (split_pair pair) as [[base quote]|e1].
  2:{ simpl. destruct (is_ValueError e1) eqn:Hv; unfold P; simpl.
      - unfold stop_tracking, now, c_trigger_event, raise, bind, modify, gets. simpl.
        rewrite Hv.
        destruct (dict_mem (_in_flight_orders w1) id); simpl; now rewrite Hev, Hclock.
      - rewrite Hv. simpl. now rewrite Hev, app_nil_r. }
  rewrite bind_lift.
  destruct (get_tokenid base) as [token|e1].
  2:{ simpl. destruct (is_ValueError e1) eqn:Hv; unfold P; simpl.
      - unfold stop_tracking, now, c_trigger_event, raise, bind, modify, gets. simpl.
        rewrite Hv.
        destruct (dict_mem (_in_flight_orders w1) id); simpl; now rewrite Hev, Hclock.
      - rewrite Hv. simpl. now rewrite Hev, app_nil_r. }
  unfold bind, stop_tracking, now, c_trigger_event, modify, gets, raise.
  set (wl := with_logs _ _).
  assert (Hwl : events wl = events w /\ clock wl = clock w)
    by (unfold wl; simpl; now rewrite Hev, Hclock).
  destruct Hwl as [Hevl Hclockl]. clearbody wl.
  pose proof (resync_keeps_clock token true wl) as Hc2.
  pose proof (resync_keeps_events token true wl) as He2.
  destruct (_get_next_order_id token true wl) as [[v|e2] w2]; simpl in Hc2, He2.
  - unfold P. simpl.
    destruct (dict_mem (_in_flight_orders w2) id); simpl;
      rewrite He2, Hc2, Hevl, Hclockl, <- app_assoc; reflexivity.
  - destruct (is_ValueError e2) eqn:Hv; unfold P; simpl; rewrite ?Hv; simpl.
    + destruct (dict_mem (_in_flight_orders w2) id); simpl;
        now rewrite Hv, He2, Hc2, Hevl, Hclockl.
    + now rewrite Hv, He2, Hevl, app_nil_r.
Qed.

End SubmissionOutcomes.

(** ** Placing an order *)

Section PlacementFacts.
Context {C : Collaborators}.
Local Open Scope stmt_scope.

(** Placing an order from an initialized counter [n], when the
    collaborators deliver: the order that goes out carries the id [n], and
    the counter stands at [n + 1] afterwards, whatever the exchange answers.
    The order is sent in one POST, as the query parameters and as the body
    alike, under fresh headers: the shared default headers stay as they
    were. *)
Theorem placed_order_consumes_one_nonce
    id pair amount (is_buy : bool) order_type price w base quote baseid quoteid details n
    msgHash key rx ry s :
  let side := if is_buy then BUY else SELL in
  split_pair pair = Ok (base, quote) ->
  get_tokenid base = Ok baseid ->
  get_tokenid quote = Ok quoteid ->
  sell_buy_amounts baseid quoteid amount price side = Ok details ->
  dict_get (_next_order_id w) (tokenSId details) = Some (PInt n) ->
  poseidon (canonical_order_record (loopring_exchangeid w) n (loopring_accountid w)
              details (clock w - 3600) side) = Ok msgHash ->
  int_of_string (loopring_private_key w) = Ok key ->
  eddsa_sign msgHash key = Ok (rx, ry, s) ->
  let order := signed_order w n side id details msgHash rx ry s in
  let w' := snd (place_order id pair amount is_buy order_type price w) in
  requests w' =
    (requests w
     ++ [mkRequest "POST" (API_REST_ENDPOINT ++ ORDER_ROUTE) (Some order) (Some order)
           (dict_update [("Content-Type", "application/json")] generate_auth_dict)])%list /\
  _next_order_id w' = dict_set (_next_order_id w) (tokenSId details) (PInt (n + 1)) /\
  default_headers w' = default_headers w /\
  dict_get order "orderId" = Some (PInt n) /\
  dict_get order "clientOrderId" = Some (PStr id).
Proof.
  intros side Hsplit Hbase Hquote Hdetails Hctr Hhash Hkey Hsign order w'.
  assert (Hrun : exists w1,
             place_order id pair amount is_buy order_type price w =
               api_request "POST" ORDER_ROUTE (Some order) (Some order) None false w1 /\
             requests w1 = requests w /\
             _next_order_id w1 = dict_set (_next_order_id w) (tokenSId details) (PInt (n + 1)) /\
             default_headers w1 = default_headers w).
  { eexists. split.
    - unfold place_order. fold side.
      rewrite bind_lift, Hsplit. cbv beta iota.
      rewrite bind_lift, Hbase, bind_lift, Hquote, bind_gets, bind_lift, Hdetails.
      rewrite (bind_ok _ _ _ _ _ (warm_call _ _ _ Hctr)).
      rewrite bind_gets, bind_gets. simpl loopring_exchangeid. simpl loopring_accountid.
      simpl clock.
      rewrite bind_lift.
      rewrite (serialize_placed_order _ _ (PInt n) n _ _ _ _ eq_refl).
      unfold record_crypto at 1. rewrite bind_modify.
      rewrite bind_lift, Hhash.
      rewrite bind_bind, bind_gets, bind_lift. simpl loopring_private_key. rewrite Hkey.
      unfold record_crypto at 1. rewrite bind_modify.
      rewrite bind_lift, Hsign. cbv beta iota zeta.
      fold (signed_order w n side id details msgHash rx ry s). fold order.
      reflexivity.
    - simpl. auto. }
  destruct Hrun as (w1 & Hrun & Hrq & Hctr1 & Hhd).
  unfold w'. rewrite Hrun.
  assert (Hshare : shares_headers "POST" (Some order) None = false) by reflexivity.
  split; [|split; [|split; [|split; reflexivity]]].
  - rewrite requests_after_unsigned, Hrq. reflexivity.
  - rewrite api_request_unsigned. cbv zeta.
    unfold after_unsigned_request. rewrite Hshare, <- Hctr1.
    match goal with
    | |- context [remote ?a ?b ?c] => destruct (remote a b c) as [e|status body]
    end; [reflexivity|destruct (status =? 200); reflexivity].
  - rewrite api_request_unsigned. cbv zeta.
    unfold after_unsigned_request. rewrite Hshare, <- Hhd.
    match goal with
    | |- context [remote ?a ?b ?c] => destruct (remote a b c) as [e|status body]
    end; [reflexivity|destruct (status =? 200); reflexivity].
Qed.

End PlacementFacts.

(** ** Order updates *)

Section UpdateFacts.
Context {C : Collaborators}.
Local Open Scope stmt_scope.

Lemma cancelled_after_trigger tag obj w :
  MarketEvent_eqb tag OrderCancelled = false ->
  cancellations (with_events (events w ++ [(tag, obj)]) w) = cancellations w.
Proof.
  intros Htag. unfold cancellations, events_tagged. simpl.
  rewrite filter_app. simpl. rewrite Htag. apply app_nil_r.
Qed.

Lemma issue_event_no_cancellation o ev : preserves cancellations (issue_event o ev).
Proof.
  unfold issue_event. destruct ev as [[[market_event a] p] f].
  unfold c_stop_tracking_order.
  frame; try (apply cancelled_after_trigger; reflexivity);
    try (destruct (dict_mem _ _); reflexivity).
Qed.

Lemma issue_events_no_cancellation o evs : preserves cancellations (issue_events o evs).
Proof.
  induction evs as [|ev rest IH]; simpl; [frame|].
  apply preserves_bind; [apply issue_event_no_cancellation|intros _; exact IH].
Qed.

Lemma update_inflight_order_no_cancellation key o event :
  preserves cancellations (_update_inflight_order key o event).
Proof.
  unfold _update_inflight_order.
  apply preserves_bind; [frame|intros [evs o']].
  apply preserves_bind; [|intros _; apply issue_events_no_cancellation].
  apply preserves_modify. intros w. destruct (dict_mem _ _); reflexivity.
Qed.

(** Neither the stream listener nor the status poll ever triggers an
    order-cancelled event, whatever the exchange reports: an update that
    says so ends in a [NameError] before the event is built.  Cancellation
    events come from [cancel_order] alone. *)
Theorem status_updates_never_announce_cancellation event_message :
  preserves cancellations (user_stream_step event_message) /\
  preserves cancellations _update_order_status.
Proof.
  split.
  - unfold user_stream_step.
    apply preserves_try_except; [|intros e; frame].
    do 5 (apply preserves_bind; [frame|intros ?]).
    repeat match goal with
           | |- preserves _ (match ?x with _ => _ end) => destruct x
           end; try solve [frame].
    all: apply preserves_bind; [frame|intros ?].
    all: apply preserves_bind; [frame|intros ?].
    all: apply preserves_bind; [frame|intros ?].
    all: repeat match goal with
           | |- preserves _ (match ?x with _ => _ end) => destruct x
           end; try solve [frame].
    all: apply update_inflight_order_no_cancellation.
  - unfold _update_order_status.
    apply preserves_bind; [frame|intros tracked].
    induction tracked as [|[id o] rest IH]; simpl; [frame|].
    apply preserves_bind.
    + apply preserves_try_except; [|intros e; frame].
      apply preserves_bind; [frame|intros account].
      apply preserves_bind; [|intros r; frame].
      apply (api_request_frame cancellations); intros; reflexivity || discriminate.
    + intros data. apply preserves_bind; [|intros _; exact IH].
      destruct data as [data|]; [|frame].
      apply preserves_try_except; [|intros e; frame].
      apply update_inflight_order_no_cancellation.
Qed.

(** An update whose first issuable event is a cancellation ends in the
    [NameError] of [client_order_id]: no event is triggered, the later
    issuable events are not looked at, and the order is tracked as before
    (with what [update] changed in it). *)
Theorem cancelled_update_ends_in_name_error key o event w a p f rest o' :
  io_update o event = Ok ((OrderCancelled, a, p, f) :: rest, o') ->
  exists w',
    _update_inflight_order key o event w = (Raise (NameError "client_order_id"), w') /\
    events w' = events w /\
    dict_keys (_in_flight_orders w') = dict_keys (_in_flight_orders w) /\
    (dict_mem (_in_flight_orders w) key = true ->
     dict_get (_in_flight_orders w') key = Some o').
Proof.
  intros Hup. unfold _update_inflight_order. rewrite bind_lift, Hup.
  cbv beta iota. rewrite bind_modify. simpl issue_events.
  unfold issue_event. rewrite bind_bind, bind_gets. simpl MarketEvent_eqb. cbv iota.
  eexists. split; [reflexivity|].
  unfold dict_mem.
  destruct (dict_get (_in_flight_orders w) key) as [old|] eqn:Hget; simpl.
  - split; [reflexivity|]. split.
    + eapply dict_set_keys_present; [apply string_keqb_true|exact Hget].
    + intros _. apply dict_get_set_same. apply String.eqb_refl.
  - split; [reflexivity|]. split; [reflexivity|discriminate].
Qed.

Lemma stop_tracking_order_absent id w :
  dict_get (_in_flight_orders w) id = None ->
  c_stop_tracking_order id w = (Ok tt, w).
Proof.
  intros Hget. unfold c_stop_tracking_order, modify, dict_mem. now rewrite Hget.
Qed.

(** One round of the loop for a fill of an order that is done and has not
    failed. *)
Lemma issue_fill_of_done_order o a p f w :
  io_is_done o = true ->
  io_is_failure o = false ->
  exists w',
    issue_event o (OrderFilled, a, p, f) w = (Ok tt, w') /\
    events w' =
      (events w ++ fill_and_completion (_current_timestamp w) o (OrderFilled, a, p, f))%list /\
    _current_timestamp w' = _current_timestamp w /\
    dict_get (_in_flight_orders w') (io_client_order_id o) = None.
Proof.
  intros Hdone Hfail. unfold issue_event. rewrite bind_gets. simpl MarketEvent_eqb.
  cbv iota. rewrite Hdone, Hfail. simpl negb. cbv iota.
  unfold fill_and_completion.
  destruct (io_trade_type o);
    unfold c_trigger_event, log, c_stop_tracking_order, bind, modify; simpl;
    eexists; (split; [reflexivity|]);
    destruct (dict_mem (_in_flight_orders w) (io_client_order_id o)) eqn:Hm; simpl;
    rewrite <- app_assoc; simpl;
    (split; [reflexivity|split; [reflexivity|]]);
    first [apply dict_get_del_same | now apply dict_mem_false_get].
Qed.

Lemma issue_fills_of_done_order o fills : forall w,
  Forall (fun ev => fst (fst (fst ev)) = OrderFilled) fills ->
  io_is_done o = true ->
  io_is_failure o = false ->
  exists w',
    issue_events o fills w = (Ok tt, w') /\
    events w' =
      (events w ++ flat_map (fill_and_completion (_current_timestamp w) o) fills)%list /\
    (fills <> [] -> dict_get (_in_flight_orders w') (io_client_order_id o) = None).
Proof.
  induction fills as [|[[[tag a] p] f] rest IH]; intros w Hall Hdone Hfail.
  - exists w. simpl. rewrite app_nil_r. repeat split. congruence.
  - inversion Hall as [|? ? Htag Hrest]; subst. simpl in Htag. subst tag.
    destruct (issue_fill_of_done_order o a p f w Hdone Hfail)
      as (w1 & Hrun1 & Hev1 & Hts1 & Hgone1).
    destruct (IH w1 Hrest Hdone Hfail) as (w2 & Hrun2 & Hev2 & Hgone2).
    exists w2. simpl issue_events. rewrite (bind_ok _ _ _ _ _ Hrun1).
    split; [exact Hrun2|]. split.
    + rewrite Hev2, Hev1, Hts1. simpl flat_map. now rewrite <- app_assoc.
    + intros _. destruct rest as [|ev rest'].
      * simpl in Hrun2. injection Hrun2 as <-. exact Hgone1.
      * apply Hgone2. discriminate.
Qed.

(** When an update reports fills of an order that is thereby done and has
    not failed, every fill is followed by a completion event of its own:
    two fills in one update complete the order twice.  The order leaves the
    registry with the first of them; without any issuable event it stays,
    done as it is. *)
Theorem done_order_completes_once_per_fill key o event w fills o' :
  io_update o event = Ok (fills, o') ->
  Forall (fun ev => fst (fst (fst ev)) = OrderFilled) fills ->
  io_is_done o' = true ->
  io_is_failure o' = false ->
  exists w',
    _update_inflight_order key o event w = (Ok tt, w') /\
    events w' =
      (events w ++ flat_map (fill_and_completion (_current_timestamp w) o') fills)%list /\
    (fills <> [] -> dict_get (_in_flight_orders w') (io_client_order_id o') = None) /\
    (fills = [] -> dict_keys (_in_flight_orders w') = dict_keys (_in_flight_orders w)).
Proof.
  intros Hup Hall Hdone Hfail.
  unfold _update_inflight_order. rewrite bind_lift, Hup. cbv beta iota.
  rewrite bind_modify.
  set (w0 := if dict_mem (_in_flight_orders w) key then _ else w).
  assert (H0 : events w0 = events w /\ _current_timestamp w0 = _current_timestamp w /\
               dict_keys (_in_flight_orders w0) = dict_keys (_in_flight_orders w)).
  { unfold w0, dict_mem.
    destruct (dict_get (_in_flight_orders w) key) as [old|] eqn:Hget; simpl; auto.
    repeat split. eapply dict_set_keys_present; [apply string_keqb_true|exact Hget]. }
  destruct H0 as (Hev0 & Hts0 & Hkeys0). clearbody w0.
  destruct (issue_fills_of_done_order o' fills w0 Hall Hdone Hfail)
    as (w' & Hrun & Hev & Hgone).
  exists w'. split; [exact Hrun|]. split; [now rewrite Hev, Hev0, Hts0|].
  split; [exact Hgone|].
  intros ->. simpl in Hrun. injection Hrun as <-. exact Hkeys0.
Qed.

End UpdateFacts.

(** ** The stream listener and the status poll *)

Section ListenerFacts.
Context {C : Collaborators}.
Local Open Scope stmt_scope.

Section UpdateFrame.
Context {X : Type} (f : World -> X).
Hypothesis f_events : forall v w, f (with_events v w) = f w.
Hypothesis f_logs : forall v w, f (with_logs v w) = f w.
Hypothesis f_registry : forall v w, f (with_in_flight_orders v w) = f w.

Lemma update_inflight_order_frame key o event :
  preserves f (_update_inflight_order key o event).
Proof.
  unfold _update_inflight_order.
  apply preserves_bind; [frame|intros [evs o']].
  apply preserves_bind.
  - apply preserves_modify. intros w. destruct (dict_mem _ _); [apply f_registry|reflexivity].
  - intros _. induction evs as [|[[[tag a] p] g] rest IH]; simpl; [frame|].
    apply preserves_bind; [|intros _; exact IH].
    unfold issue_event, c_stop_tracking_order.
    frame; try apply f_events; try apply f_logs;
      try (destruct (dict_mem _ _); [apply f_registry|reflexivity]).
Qed.

Lemma user_stream_step_frame event_message : preserves f (user_stream_step event_message).
Proof.
  unfold user_stream_step.
  apply preserves_try_except; [|intros e; frame; apply f_logs].
  do 5 (apply preserves_bind; [frame|intros ?]).
  repeat match goal with
         | |- preserves _ (match ?x with _ => _ end) => destruct x
         end; try solve [frame; apply f_logs].
  all: apply preserves_bind; [frame|intros ?].
  all: apply preserves_bind; [frame|intros ?].
  all: apply preserves_bind; [frame|intros ?].
  all: repeat match goal with
         | |- preserves _ (match ?x with _ => _ end) => destruct x
         end; try solve [frame; apply f_logs].
  all: apply update_inflight_order_frame.
Qed.

End UpdateFrame.

(** The listener outlives every message: whatever arrives, one step returns
    normally, and it sends nothing and leaves the nonce counters, the
    trading rules and the shared headers alone. *)
Theorem listener_survives_every_message event_message w :
  let w' := snd (user_stream_step event_message w) in
  fst (user_stream_step event_message w) = Ok tt /\
  requests w' = requests w /\
  _next_order_id w' = _next_order_id w /\
  _trading_rules w' = _trading_rules w /\
  crypto_calls w' = crypto_calls w.
Proof.
  cbv zeta. split.
  - unfold user_stream_step, try_except.
    match goal with
    | |- fst (match ?m w with _ => _ end) = _ => destruct (m w) as [[[]|e] w1]
    end; reflexivity.
  - repeat split.
    + apply (user_stream_step_frame requests); intros; reflexivity.
    + apply (user_stream_step_frame _next_order_id); intros; reflexivity.
    + apply (user_stream_step_frame _trading_rules); intros; reflexivity.
    + apply (user_stream_step_frame crypto_calls); intros; reflexivity.
Qed.

End ListenerFacts.

Section PollFacts.
Context {C : Collaborators}.
Local Open Scope stmt_scope.

Lemma api_request_keeps_account m u d p h s w :
  loopring_accountid (snd (api_request m u d p h s w)) = loopring_accountid w.
Proof. apply (api_request_frame loopring_accountid); intros; reflexivity. Qed.

(** The loop of the status poll: it gets through every order, with one
    query each. *)
Lemma update_status_each_run tracked : forall w,
  exists w' added,
    update_status_each tracked w = (Ok tt, w') /\
    requests w' = (requests w ++ added)%list /\
    map request_line added = map (fun kv => status_query w (snd kv)) tracked /\
    loopring_accountid w' = loopring_accountid w.
Proof.
  induction tracked as [|[id o] rest IH]; intros w.
  - exists w, []. simpl. rewrite app_nil_r. auto.
  - simpl update_status_each.
    set (params := Some [("accountId", PInt (loopring_accountid w));
                         ("orderHash", PStr (io_exchange_order_id o))]).
    (* the query *)
    assert (Hquery : exists data w1,
               try_except
                 (account <- gets loopring_accountid ;;
                  loopring_order_request <-
                    api_request "GET" GET_ORDER_ROUTE None
                      (Some [("accountId", PInt account);
                             ("orderHash", PStr (io_exchange_order_id o))]) None false ;;
                  data <- lift (py_getitem loopring_order_request "data") ;;
                  ret (Some data))
                 any_Exception
                 (fun _ =>
                    log WARNING [FStr "Failed to fetch tracked Loopring order ";
                                 FStr (io_exchange_order_id o); FStr " from api"] ;;
                    ret None) w = (Ok data, w1) /\
               requests w1 =
                 (requests w ++ [unsigned_request w "GET" GET_ORDER_ROUTE None params None])%list /\
               loopring_accountid w1 = loopring_accountid w).
    { unfold try_except. rewrite bind_gets. fold params. unfold bind at 1.
      pose proof (requests_after_unsigned w "GET" GET_ORDER_ROUTE None params None) as Hrq.
      pose proof (api_request_keeps_account "GET" GET_ORDER_ROUTE None params None false w)
        as Hacc.
      destruct (api_request "GET" GET_ORDER_ROUTE None params None false w) as [[r|e] wa];
        simpl in Hrq, Hacc.
      - rewrite bind_lift. destruct (py_getitem r "data") as [data|e].
        + exists (Some data), wa. auto.
        + eexists None, _. simpl. split; [reflexivity|]. simpl. auto.
      - eexists None, _. simpl. split; [reflexivity|]. simpl. auto. }
    destruct Hquery as (data & w1 & Hrun1 & Hrq1 & Hacc1).
    rewrite (bind_ok _ _ _ _ _ Hrun1).
    (* the update *)
    assert (Hupdate : exists w2,
               match data with
               | None => ret tt
               | Some data =>
                   try_except (_update_inflight_order id o data) any_Exception
                     (fun e =>
                        let after :=
                          match io_update o data with
                          | Ok (_, updated) => updated
                          | Raise _ => o
                          end in
                        log WARNING [FStr "Failed to update Loopring order ";
                                     FStr (io_exchange_order_id after)] ;;
                        log ERROR (exn_msg e))
               end w1 = (Ok tt, w2) /\
               requests w2 = requests w1 /\
               loopring_accountid w2 = loopring_accountid w1).
    { destruct data as [data|]; [|exists w1; auto].
      unfold try_except.
      pose proof (update_inflight_order_frame requests
                    (fun _ _ => eq_refl) (fun _ _ => eq_refl) (fun _ _ => eq_refl)
                    id o data w1) as Hrq.
      pose proof (update_inflight_order_frame loopring_accountid
                    (fun _ _ => eq_refl) (fun _ _ => eq_refl) (fun _ _ => eq_refl)
                    id o data w1) as Hacc.
      destruct (_update_inflight_order id o data w1) as [[[]|e] wu]; simpl in Hrq, Hacc.
      - exists wu. auto.
      - eexists. simpl. split; [reflexivity|]. simpl. auto. }
    destruct Hupdate as (w2 & Hrun2 & Hrq2 & Hacc2).
    rewrite (bind_ok _ _ _ _ _ Hrun2).
    destruct (IH w2) as (w' & added & Hrun & Hrq & Hlines & Hacc).
    exists w', (unsigned_request w "GET" GET_ORDER_ROUTE None params None :: added).
    split; [exact Hrun|]. split; [|split].
    + rewrite Hrq, Hrq2, Hrq1, <- app_assoc. reflexivity.
    + simpl map. f_equal. rewrite Hlines. apply map_ext. intros kv.
      unfold status_query. now rewrite Hacc2, Hacc1.
    + now rewrite Hacc, Hacc2, Hacc1.
Qed.

(** The status poll never raises: a query that fails and an update that
    fails are logged, and the loop goes on.  It asks the exchange once per
    order of the registry as it was at the start, in registry order, each
    time with the account id and the order's exchange id.  The route starts
    with a slash and the endpoint ends in one, so the URL has both. *)
Theorem status_poll_asks_once_per_order w :
  exists w' added,
    _update_order_status w = (Ok tt, w') /\
    requests w' = (requests w ++ added)%list /\
    map request_line added =
      map (fun kv => status_query w (snd kv)) (_in_flight_orders w) /\
    API_REST_ENDPOINT ++ GET_ORDER_ROUTE = "https://api.loopring.io//api/v2/order".
Proof.
  unfold _update_order_status. rewrite bind_gets.
  destruct (update_status_each_run (_in_flight_orders w) w)
    as (w' & added & Hrun & Hrq & Hlines & _).
  exists w', added. auto.
Qed.

End PollFacts.

(** ** Refreshing the trading rules, entry by entry *)

Section RefreshFacts.
Context {C : Collaborators}.
Local Open Scope stmt_scope.

(** A rule that can be built is filed under the name of its market. *)
Lemma market_rule_name tokens market baseid quoteid w r w' :
  market_rule tokens market baseid quoteid w = (Ok (Some r), w') ->
  py_getitem market "market" = Ok (PStr (trading_pair r)).
Proof.
  unfold market_rule, bind, lift, ret, raise.
  repeat match goal with
         | |- context [match ?x with Ok _ => _ | Raise _ => _ end] =>
             destruct x eqn:?; try discriminate
         end.
  destruct a; try discriminate.
  now intros [= <- <-].
Qed.

(** The loop changes at most the rules of the pairs that enabled entries of
    the markets table name. *)
Lemma update_rules_each_other_pairs tokens pair markets : forall w,
  (forall m, In m markets -> enabled_name m <> Some pair) ->
  dict_get (_trading_rules (snd (update_rules_each tokens markets w))) pair
    = dict_get (_trading_rules w) pair.
Proof.
  induction markets as [|market rest IH]; intros w Hnames; [reflexivity|].
  assert (Hname : enabled_name market <> Some pair) by (apply Hnames; now left).
  assert (Hrest : forall w0,
             dict_get (_trading_rules (snd (update_rules_each tokens rest w0))) pair
               = dict_get (_trading_rules w0) pair)
    by (intros w0; apply IH; intros m Hm; apply Hnames; now right).
  simpl update_rules_each. rewrite bind_lift.
  unfold enabled_name in Hname.
  destruct (py_getitem market "enabled") as [enabled|e]; [|reflexivity].
  destruct (py_eq_True enabled); [|rewrite bind_ret; apply Hrest].
  rewrite bind_bind, bind_lift.
  destruct (py_getitem market "baseTokenId") as [baseid|e]; [|reflexivity].
  rewrite bind_bind, bind_lift.
  destruct (py_getitem market "quoteTokenId") as [quoteid|e]; [|reflexivity].
  unfold bind at 1. unfold try_except. unfold bind at 1.
  destruct (market_rule tokens market baseid quoteid w) as [[[r|]|e] w1] eqn:Hrule.
  2:{ apply market_rule_result in Hrule as [-> _]. apply Hrest. }
  - pose proof (market_rule_name _ _ _ _ _ _ _ Hrule) as Hmarket.
    apply market_rule_result in Hrule as [-> _].
    unfold modify. rewrite Hrest. simpl.
    apply dict_get_set_other; [apply string_keqb_true|].
    destruct (String.eqb_spec pair (trading_pair r)) as [->|Hne].
    + rewrite Hmarket in Hname. now elim Hname.
    + apply String.eqb_neq in Hne. exact Hne.
  - pose proof (market_rule_frame tokens market baseid quoteid w) as Hframe.
    rewrite Hrule in Hframe. simpl in Hframe.
    unfold any_Exception, log, bind, modify. simpl. rewrite Hrest. simpl.
    now rewrite Hframe.
Qed.

Lemma bind_ext {A B} (m : M A) (k1 k2 : A -> M B) w :
  (forall a w', k1 a w' = k2 a w') -> bind m k1 w = bind m k2 w.
Proof. intros H. unfold bind. destruct (m w) as [[a|e] w']; [apply H|reflexivity]. Qed.

Lemma update_rules_each_app tokens l1 l2 : forall w,
  update_rules_each tokens (l1 ++ l2) w =
    (update_rules_each tokens l1 ;; update_rules_each tokens l2) w.
Proof.
  induction l1 as [|m rest IH]; intros w; [reflexivity|].
  simpl app. simpl update_rules_each.
  rewrite bind_bind. apply bind_ext. intros enabled w1.
  rewrite bind_bind. apply bind_ext. intros _ w2.
  apply IH.
Qed.

Lemma api_request_keeps_rules m u d p h s w :
  _trading_rules (snd (api_request m u d p h s w)) = _trading_rules w.
Proof. apply (api_request_frame _trading_rules); intros; reflexivity. Qed.

(** What a refresh changes and what it leaves: a pair that no enabled entry
    of the markets table names keeps the rule it had, or stays without one,
    however the refresh ends.  So the rule of a market that the exchange has
    dropped or disabled stays in force. *)
Theorem refresh_leaves_unlisted_pairs w pair :
  (forall body data markets,
     remote w (requests w) (unsigned_request w "GET" MARKETS_INFO_ROUTE None None None)
       = Http 200 (Ok body) ->
     py_getitem body "data" = Ok data ->
     py_iter data = Ok markets ->
     forall m, In m markets -> enabled_name m <> Some pair) ->
  dict_get (_trading_rules (snd (_update_trading_rules w))) pair
    = dict_get (_trading_rules w) pair.
Proof.
  intros Hnames. unfold _update_trading_rules.
  unfold bind at 1. unfold gather2.
  pose proof (api_request_unsigned "GET" MARKETS_INFO_ROUTE None None None w) as Hcall.
  pose proof (api_request_keeps_rules "GET" MARKETS_INFO_ROUTE None None None false w) as Hr1.
  cbv zeta in Hcall.
  destruct (api_request "GET" MARKETS_INFO_ROUTE None None None false w) as [r1 w1].
  simpl in Hr1.
  pose proof (api_request_keeps_rules "GET" TOKENS_INFO_ROUTE None None None false w1) as Hr2.
  destruct (api_request "GET" TOKENS_INFO_ROUTE None None None false w1) as [r2 w2].
  simpl in Hr2.
  destruct r1 as [body|e]; [|simpl; now rewrite Hr2, Hr1].
  destruct r2 as [tokens_body|e]; [|simpl; now rewrite Hr2, Hr1].
  assert (Hanswer : remote w (requests w)
                      (unsigned_request w "GET" MARKETS_INFO_ROUTE None None None)
                    = Http 200 (Ok body)).
  { destruct (remote w (requests w) _) as [e|status [b|e]]; try discriminate.
    - destruct (Z.eqb_spec status 200) as [->|]; [|discriminate].
      now injection Hcall as -> _.
    - destruct (status =? 200); discriminate. }
  rewrite bind_lift.
  destruct (py_getitem body "data") as [data|e] eqn:Hdata; [|simpl; now rewrite Hr2, Hr1].
  rewrite bind_lift.
  destruct (py_getitem tokens_body "data") as [tdata|e]; [|simpl; now rewrite Hr2, Hr1].
  rewrite bind_lift.
  destruct (py_iter tdata) as [tokens|e]; [|simpl; now rewrite Hr2, Hr1].
  rewrite bind_lift.
  destruct (tokens_by_id tokens []) as [table|e]; [|simpl; now rewrite Hr2, Hr1].
  rewrite bind_lift.
  destruct (py_iter data) as [markets|e] eqn:Hiter; [|simpl; now rewrite Hr2, Hr1].
  rewrite (update_rules_each_other_pairs table pair markets w2
             (Hnames body data markets Hanswer Hdata Hiter)).
  now rewrite Hr2, Hr1.
Qed.

(** The rule on file after a refresh that got through is the one built from
    the last enabled entry that names the pair. *)
Theorem refresh_files_the_last_enabled_entry
    tokens before market after w enabled baseid quoteid r :
  py_getitem market "enabled" = Ok enabled ->
  py_eq_True enabled = true ->
  py_getitem market "baseTokenId" = Ok baseid ->
  py_getitem market "quoteTokenId" = Ok quoteid ->
  (forall w0, market_rule tokens market baseid quoteid w0 = (Ok (Some r), w0)) ->
  (forall m, In m after -> enabled_name m <> Some (trading_pair r)) ->
  fst (update_rules_each tokens (before ++ market :: after) w) = Ok tt ->
  dict_get (_trading_rules (snd (update_rules_each tokens (before ++ market :: after) w)))
    (trading_pair r) = Some r.
Proof.
  intros Hen Htrue Hbase Hquote Hrule Hafter.
  rewrite update_rules_each_app. unfold bind at 1 2.
  destruct (update_rules_each tokens before w) as [[[]|e] w1]; [|discriminate].
  intros _. simpl update_rules_each.
  rewrite bind_lift, Hen, Htrue.
  rewrite bind_bind, bind_lift, Hbase, bind_bind, bind_lift, Hquote.
  unfold bind at 1. unfold try_except. unfold bind at 1. rewrite Hrule.
  unfold modify.
  rewrite (update_rules_each_other_pairs _ _ _ _ Hafter). simpl.
  apply dict_get_set_same. apply String.eqb_refl.
Qed.

Lemma rule_stays_on_file tokens pair markets : forall w,
  dict_mem (_trading_rules w) pair = true ->
  dict_mem (_trading_rules (snd (update_rules_each tokens markets w))) pair = true.
Proof.
  induction markets as [|market rest IH]; intros w Hmem; [exact Hmem|].
  simpl update_rules_each. rewrite bind_lift.
  destruct (py_getitem market "enabled") as [enabled|e]; [|exact Hmem].
  destruct (py_eq_True enabled); [|rewrite bind_ret; now apply IH].
  rewrite bind_bind, bind_lift.
  destruct (py_getitem market "baseTokenId") as [baseid|e]; [|exact Hmem].
  rewrite bind_bind, bind_lift.
  destruct (py_getitem market "quoteTokenId") as [quoteid|e]; [|exact Hmem].
  unfold bind at 1. unfold try_except. unfold bind at 1.
  destruct (market_rule tokens market baseid quoteid w) as [[[r|]|e] w1] eqn:Hrule.
  2:{ apply market_rule_result in Hrule as [-> _]. now apply IH. }
  - apply market_rule_result in Hrule as [-> _].
    unfold modify. apply IH. simpl. unfold dict_mem.
    destruct (String.eqb_spec pair (trading_pair r)) as [->|Hne].
    + rewrite dict_get_set_same; [reflexivity|apply String.eqb_refl].
    + rewrite dict_get_set_other;
        [exact Hmem|apply string_keqb_true|now apply String.eqb_neq].
  - pose proof (market_rule_frame tokens market baseid quoteid w) as Hframe.
    rewrite Hrule in Hframe. simpl in Hframe.
    unfold any_Exception, log, bind, modify. simpl. apply IH. simpl.
    now rewrite Hframe.
Qed.

(** A refresh never takes a rule off the table: a pair that has a rule
    before has one after, whether the refresh gets through or fails; and if
    the markets table cannot be fetched, the whole table is as it was. *)
Theorem refresh_never_drops_a_rule w :
  (forall pair,
     dict_mem (_trading_rules w) pair = true ->
     dict_mem (_trading_rules (snd (_update_trading_rules w))) pair = true) /\
  (answers_ok (remote w (requests w)
                 (unsigned_request w "GET" MARKETS_INFO_ROUTE None None None)) = false ->
   (exists e, fst (_update_trading_rules w) = Raise e) /\
   _trading_rules (snd (_update_trading_rules w)) = _trading_rules w).
Proof.
  split.
  - intros pair Hmem. unfold _update_trading_rules.
    unfold bind at 1. unfold gather2.
    pose proof (api_request_keeps_rules "GET" MARKETS_INFO_ROUTE None None None false w) as Hr1.
    destruct (api_request "GET" MARKETS_INFO_ROUTE None None None false w) as [r1 w1].
    simpl in Hr1.
    pose proof (api_request_keeps_rules "GET" TOKENS_INFO_ROUTE None None None false w1) as Hr2.
    destruct (api_request "GET" TOKENS_INFO_ROUTE None None None false w1) as [r2 w2].
    simpl in Hr2.
    destruct r1 as [body|e]; [|simpl; now rewrite Hr2, Hr1].
    destruct r2 as [tokens_body|e]; [|simpl; now rewrite Hr2, Hr1].
    rewrite bind_lift.
    destruct (py_getitem body "data") as [data|e]; [|simpl; now rewrite Hr2, Hr1].
    rewrite bind_lift.
    destruct (py_getitem tokens_body "data") as [tdata|e]; [|simpl; now rewrite Hr2, Hr1].
    rewrite bind_lift.
    destruct (py_iter tdata) as [tokens|e]; [|simpl; now rewrite Hr2, Hr1].
    rewrite bind_lift.
    destruct (tokens_by_id tokens []) as [table|e]; [|simpl; now rewrite Hr2, Hr1].
    rewrite bind_lift.
    destruct (py_iter data) as [markets|e]; [|simpl; now rewrite Hr2, Hr1].
    apply rule_stays_on_file. now rewrite Hr2, Hr1.
  - intros Hbad.
    assert (Hrun : exists e w2,
               _update_trading_rules w = (Raise e, w2) /\ _trading_rules w2 = _trading_rules w).
    { unfold _update_trading_rules. unfold bind at 1. unfold gather2.
      pose proof (api_request_unsigned "GET" MARKETS_INFO_ROUTE None None None w) as Hcall.
      pose proof (api_request_keeps_rules "GET" MARKETS_INFO_ROUTE None None None false w)
        as Hr1.
      cbv zeta in Hcall.
      destruct (api_request "GET" MARKETS_INFO_ROUTE None None None false w) as [r1 w1].
      simpl in Hr1.
      pose proof (api_request_keeps_rules "GET" TOKENS_INFO_ROUTE None None None false w1)
        as Hr2.
      destruct (api_request "GET" TOKENS_INFO_ROUTE None None None false w1) as [r2 w2].
      simpl in Hr2.
      unfold answers_ok in Hbad.
      destruct (remote w (requests w) _) as [e|status [b|e]].
      - injection Hcall as -> _. exists e, w2. split; [reflexivity|now rewrite Hr2, Hr1].
      - rewrite Hbad in Hcall. injection Hcall as -> _.
        eexists _, w2. split; [reflexivity|now rewrite Hr2, Hr1].
      - destruct (status =? 200); injection Hcall as -> _;
          eexists _, w2; (split; [reflexivity|now rewrite Hr2, Hr1]). }
    destruct Hrun as (e & w2 & -> & Hrules). simpl. eauto.
Qed.

End RefreshFacts.

(** ** The registry *)

Section RegistryFacts.
Context {C : Collaborators}.
Local Open Scope stmt_scope.

Lemma dict_set_fresh {V} (d : Dict string V) k v :
  dict_get d k = None -> dict_set d k v = (d ++ [(k, v)])%list.
Proof.
  induction d as [|[k' v'] r IH]; simpl; [reflexivity|].
  destruct (String.eqb k k'); [discriminate|].
  intros Hget. now rewrite IH.
Qed.

Lemma dict_del_absent {V} (d : Dict string V) k :
  dict_get d k = None -> dict_del d k = d.
Proof.
  unfold dict_del. induction d as [|[k' v'] r IH]; simpl; [reflexivity|].
  destruct (String.eqb k k'); [discriminate|].
  intros Hget. simpl. f_equal. now apply IH.
Qed.

Lemma dict_del_set_fresh {V} (d : Dict string V) k v :
  dict_get d k = None -> dict_del (dict_set d k v) k = d.
Proof.
  intros Hget. rewrite (dict_set_fresh _ _ _ Hget).
  unfold dict_del. rewrite filter_app. simpl. rewrite String.eqb_refl. simpl.
  rewrite app_nil_r. now apply dict_del_absent.
Qed.

Lemma dict_get_del_other {V} (d : Dict string V) k k' :
  String.eqb k' k = false -> dict_get (dict_del d k) k' = dict_get d k'.
Proof.
  intros Hne. unfold dict_del. induction d as [|[k0 v0] r IH]; simpl; [reflexivity|].
  destruct (String.eqb_spec k k0) as [->|Hk]; simpl.
  - rewrite Hne. exact IH.
  - destruct (String.eqb k' k0); [reflexivity|exact IH].
Qed.

Lemma with_in_flight_orders_same w : with_in_flight_orders (_in_flight_orders w) w = w.
Proof. now destruct w. Qed.

(** The registry as a store.  A tracked order is found under its client
    order id.  [stop_tracking] never raises, takes exactly that id off and
    leaves every other id as it was; for an id that is not tracked it does
    nothing.  Tracking an order under a fresh id and untracking it gives the
    state back. *)
Theorem tracking_is_a_faithful_store o id w :
  dict_get (_in_flight_orders (snd (start_tracking o w))) (io_client_order_id o) = Some o /\
  fst (stop_tracking id w) = Ok tt /\
  dict_get (_in_flight_orders (snd (stop_tracking id w))) id = None /\
  (forall other, other <> id ->
     dict_get (_in_flight_orders (snd (stop_tracking id w))) other
       = dict_get (_in_flight_orders w) other) /\
  (dict_get (_in_flight_orders w) id = None -> stop_tracking id w = (Ok tt, w)) /\
  (dict_get (_in_flight_orders w) (io_client_order_id o) = None ->
   (start_tracking o ;; stop_tracking (io_client_order_id o)) w = (Ok tt, w)).
Proof.
  split; [|split; [|split; [|split; [|split]]]].
  - unfold start_tracking, modify. simpl. apply dict_get_set_same. apply String.eqb_refl.
  - reflexivity.
  - unfold stop_tracking, modify. simpl.
    destruct (dict_mem (_in_flight_orders w) id) eqn:Hm; simpl.
    + apply dict_get_del_same.
    + now apply dict_mem_false_get.
  - intros other Hne. unfold stop_tracking, modify. simpl.
    destruct (dict_mem (_in_flight_orders w) id); simpl; [|reflexivity].
    apply dict_get_del_other. now apply String.eqb_neq.
  - intros Hget. unfold stop_tracking, modify, dict_mem. now rewrite Hget.
  - intros Hget. unfold start_tracking, stop_tracking, bind, modify. simpl.
    unfold dict_mem. rewrite dict_get_set_same by apply String.eqb_refl.
    rewrite (dict_del_set_fresh _ _ _ Hget). f_equal.
    unfold with_in_flight_orders. simpl. now destruct w.
Qed.

Section SavedStates.
Context {Json : Type}.
Variable to_json : InFlightOrder -> Json.
Variable from_json : Json -> Res InFlightOrder.

Lemma dict_get_app_fresh {V} (d : Dict string V) k v k' :
  dict_get d k' = None -> k' <> k -> dict_get (d ++ [(k, v)])%list k' = None.
Proof.
  intros Hget Hne. induction d as [|[k0 v0] r IH]; simpl in *.
  - apply String.eqb_neq in Hne. now rewrite Hne.
  - destruct (String.eqb k' k0); [discriminate|]. now apply IH.
Qed.

(** Saving a registry with pairwise different keys, on top of entries with
    other keys, appends its entries in order. *)
Lemma save_each_appends (registry : Dict string InFlightOrder) : forall acc,
  NoDup (dict_keys registry) ->
  (forall k, In k (dict_keys registry) -> dict_get acc k = None) ->
  fold_left (fun acc kv => dict_set acc (fst kv) (to_json (snd kv))) registry acc
    = (acc ++ map (fun kv => (fst kv, to_json (snd kv))) registry)%list.
Proof.
  induction registry as [|[k o] rest IH]; intros acc Hnd Hfresh; simpl.
  - now rewrite app_nil_r.
  - inversion Hnd as [|? ? Hnotin Hnd']; subst.
    rewrite (dict_set_fresh acc k (to_json o)) by (apply Hfresh; now left).
    rewrite IH; [now rewrite <- app_assoc|exact Hnd'|].
    intros k' Hin. apply dict_get_app_fresh.
    + apply Hfresh. now right.
    + intros ->. contradiction.
Qed.

Lemma restore_each_appends (registry : Dict string InFlightOrder) : forall w,
  NoDup (dict_keys registry) ->
  (forall k, In k (dict_keys registry) -> dict_get (_in_flight_orders w) k = None) ->
  Forall (fun kv => from_json (to_json (snd kv)) = Ok (snd kv)) registry ->
  exists w',
    restore_each from_json (map (fun kv => (fst kv, to_json (snd kv))) registry) w
      = (Ok tt, w') /\
    _in_flight_orders w' = (_in_flight_orders w ++ registry)%list.
Proof.
  induction registry as [|[k o] rest IH]; intros w Hnd Hfresh Hinv; simpl.
  - exists w. now rewrite app_nil_r.
  - inversion Hnd as [|? ? Hnotin Hnd']; subst.
    inversion Hinv as [|? ? Hko Hinv']; subst. simpl in Hko.
    rewrite bind_lift, Hko, bind_modify.
    destruct (IH (with_in_flight_orders (dict_set (_in_flight_orders w) k o) w) Hnd')
      as (w' & Hrun & Hreg).
    + intros k' Hin. simpl.
      rewrite (dict_set_fresh (_in_flight_orders w) k o) by (apply Hfresh; now left).
      apply dict_get_app_fresh.
      * apply Hfresh. now right.
      * intros ->. contradiction.
    + exact Hinv'.
    + exists w'. split; [exact Hrun|]. rewrite Hreg. simpl.
      rewrite (dict_set_fresh (_in_flight_orders w) k o) by (apply Hfresh; now left).
      now rewrite <- app_assoc.
Qed.

(** Saving and restoring.  [tracking_states] only reads; what it returns,
    handed to [restore_tracking_states] on a connector that tracks nothing,
    brings back the registry, order by order, provided that [from_json]
    reads what [to_json] writes for the orders concerned. *)
Theorem saved_states_restore_the_registry w w0 :
  unique_keys (_in_flight_orders w) ->
  Forall (fun kv => from_json (to_json (snd kv)) = Ok (snd kv)) (_in_flight_orders w) ->
  _in_flight_orders w0 = [] ->
  exists saved w1,
    tracking_states to_json w = (Ok saved, w) /\
    restore_tracking_states from_json saved w0 = (Ok tt, w1) /\
    _in_flight_orders w1 = _in_flight_orders w.
Proof.
  intros Hnd Hinv Hempty.
  destruct (restore_each_appends (_in_flight_orders w) w0 Hnd) as (w1 & Hrun & Hreg).
  - intros k _. now rewrite Hempty.
  - exact Hinv.
  - exists (map (fun kv => (fst kv, to_json (snd kv))) (_in_flight_orders w)), w1.
    split; [|split].
    + unfold tracking_states. rewrite bind_gets. unfold ret.
      rewrite (save_each_appends _ [] Hnd); [reflexivity|reflexivity].
    + exact Hrun.
    + now rewrite Hreg, Hempty.
Qed.

End SavedStates.

End RegistryFacts.

(** ** Quantizing twice *)

Section QuantizeTwice.
Context {C : Collaborators}.
Local Open Scope stmt_scope.

Lemma rescale_down_same c t : rescale_down c t t = c.
Proof.
  unfold rescale_down. rewrite Z.leb_refl, Z.sub_diag.
  unfold pow10. simpl. apply N.mul_1_r.
Qed.

(** [quantize] leaves what it has produced as it is. *)
Lemma quantize_down_idempotent x q r :
  quantize_down x q = Ok r -> quantize_down r q = Ok r.
Proof.
  destruct x as [s c e|s|[|]], q as [qs qc t|qs|[|]]; simpl; try discriminate;
    try (intros [= <-]; reflexivity).
  destruct (negb ((Etiny <=? t) && (t <=? Emax))) eqn:Hb; [discriminate|].
  destruct (c =? 0)%N eqn:Hc.
  - intros [= <-]. simpl. now rewrite Hb.
  - destruct (adjusted c e >? Emax); [discriminate|].
    destruct (adjusted c e - t + 1 >? prec); [discriminate|].
    destruct (adjusted (rescale_down c e t) t >? Emax) eqn:Ha; [discriminate|].
    destruct (ndigits (rescale_down c e t) >? prec) eqn:Hn; [discriminate|].
    intros [= <-]. simpl. rewrite Hb.
    destruct (rescale_down c e t =? 0)%N eqn:Hz.
    + apply N.eqb_eq in Hz. now rewrite Hz.
    + rewrite Ha, rescale_down_same, Ha, Hn.
      replace (adjusted (rescale_down c e t) t - t + 1) with (ndigits (rescale_down c e t))
        by (unfold adjusted; lia).
      now rewrite Hn.
Qed.

(** A price that [c_quantize_order_price] has returned, and an amount that
    [c_quantize_order_amount] has returned other than the sentinel, come
    back unchanged when they are quantized again for the same pair. *)
Theorem quantizing_twice_changes_nothing pair w :
  (forall price q w',
     c_quantize_order_price pair price w = (Ok q, w') ->
     c_quantize_order_price pair q w = (Ok q, w)) /\
  (forall amount q w',
     c_quantize_order_amount pair amount None w = (Ok q, w') ->
     q <> s_decimal_0 ->
     c_quantize_order_amount pair q None w = (Ok q, w)).
Proof.
  split.
  - intros price q w'.
    unfold c_quantize_order_price, c_get_order_price_quantum.
    unfold bind, lift, ret.
    destruct (trading_rule_of pair w) as [[rule|e] w1] eqn:Hrule; [|discriminate].
    assert (w1 = w) as ->.
    { pose proof (trading_rule_of_frame (fun x => x) pair w) as H. now rewrite Hrule in H. }
    destruct (quantize_down price (min_price_increment rule)) as [r|e] eqn:Hq;
      [|discriminate].
    intros [= <- <-]. now rewrite (quantize_down_idempotent _ _ _ Hq).
  - intros amount q w'.
    unfold c_quantize_order_amount, c_get_order_size_quantum.
    unfold bind, lift, ret.
    destruct (trading_rule_of pair w) as [[rule|e] w1] eqn:Hrule; [|discriminate].
    assert (w1 = w) as ->.
    { pose proof (trading_rule_of_frame (fun x => x) pair w) as H. now rewrite Hrule in H. }
    destruct (quantize_down amount (min_base_amount_increment rule)) as [r|e] eqn:Hq;
      [|discriminate].
    rewrite Hrule.
    destruct (dec_lt r (min_order_size rule)) as [[|]|e] eqn:Hlt; try discriminate.
    + intros [= <- <-] Hne. now elim Hne.
    + intros [= <- <-] _.
      now rewrite (quantize_down_idempotent _ _ _ Hq), Hlt.
Qed.

End QuantizeTwice.

(** ** The canonical string, read backwards *)

Section CanonicalAmbiguity.
Context {C : Collaborators}.

Lemma string_app_assoc (a b c : string) : (a ++ b) ++ c = a ++ (b ++ c).
Proof. induction a as [|x a IH]; simpl; [reflexivity|now rewrite IH]. Qed.

(** The canonical string does not tell the parameters apart: a value that
    contains ["&name=value"] yields the same string, and so the same hash to
    sign, as a second parameter of that name would. *)
Theorem canonical_string_merges_parameters url method k1 v1 k2 v2 :
  _encode_request url method (Some [(k1, PStr (v1 ++ "&" ++ k2 ++ "=" ++ v2))]) =
  _encode_request url method (Some [(k1, PStr v1); (k2, PStr v2)]).
Proof.
  unfold _encode_request. simpl map. simpl join. do 3 f_equal.
  simpl py_str. now rewrite !string_app_assoc.
Qed.

End CanonicalAmbiguity.

(** ** Client order ids *)

Section ClientOrderIds.
Context {C : Collaborators}.

Lemma digit_char_facts d :
  0 <= d < 10 ->
  is_digit (digit_char d) = true /\
  Z.of_nat (nat_of_ascii (digit_char d)) - 48 = d /\
  Ascii.eqb (digit_char d) "-" = false.
Proof.
  intros Hd.
  assert (H : d = 0 \/ d = 1 \/ d = 2 \/ d = 3 \/ d = 4 \/ d = 5 \/ d = 6 \/ d = 7
              \/ d = 8 \/ d = 9) by lia.
  repeat (destruct H as [->|H]; [vm_compute; auto|]). subst. vm_compute. auto.
Qed.

Lemma read_one_digit d acc a b :
  0 <= d < 10 ->
  read_digits (String (digit_char d) acc) a b = read_digits acc (10 * a + d) true.
Proof.
  intros Hd. destruct (digit_char_facts d Hd) as (Hdig & Hval & _).
  simpl. now rewrite Hdig, Hval.
Qed.

Lemma render_digits_step f n acc :
  render_digits (S f) n acc =
    if n <? 10 then String (digit_char (n mod 10)) acc
    else render_digits f (n / 10) (String (digit_char (n mod 10)) acc).
Proof. reflexivity. Qed.

(** Reading back what was rendered: the digits of [n], then the rest. *)
Lemma read_rendered_digits f : forall n acc b,
  0 <= n < 2 ^ Z.of_nat (S f) ->
  read_digits (render_digits (S f) n acc) 0 b = read_digits acc n true.
Proof.
  induction f as [|f IH]; intros n acc b Hn.
  - change (2 ^ Z.of_nat 1) with 2 in Hn.
    rewrite render_digits_step. destruct (Z.ltb_spec n 10); [|lia].
    rewrite Z.mod_small by lia. rewrite read_one_digit by lia. f_equal; lia.
  - rewrite render_digits_step. destruct (Z.ltb_spec n 10).
    + rewrite Z.mod_small by lia. rewrite read_one_digit by lia. f_equal; lia.
    + rewrite IH.
      * rewrite read_one_digit by (apply Z.mod_pos_bound; lia).
        f_equal; pose proof (Z.div_mod n 10); lia.
      * split; [apply Z.div_pos; lia|].
        apply Z.div_lt_upper_bound; [lia|].
        rewrite (Nat2Z.inj_succ (S f)), Z.pow_succ_r in Hn by lia. lia.
Qed.

Lemma render_digits_no_dash fuel : forall n acc,
  0 <= n ->
  forallb_string (fun c => negb (Ascii.eqb c "-")) acc = true ->
  forallb_string (fun c => negb (Ascii.eqb c "-")) (render_digits fuel n acc) = true.
Proof.
  induction fuel as [|f IH]; intros n acc Hn Hacc; [exact Hacc|].
  rewrite render_digits_step.
  assert (Hstep : forallb_string (fun c => negb (Ascii.eqb c "-"))
                    (String (digit_char (n mod 10)) acc) = true).
  { destruct (digit_char_facts (n mod 10)) as (_ & _ & Hd);
      [apply Z.mod_pos_bound; lia|].
    simpl. now rewrite Hd, Hacc. }
  destruct (n <? 10); [exact Hstep|].
  apply IH; [apply Z.div_pos; lia|exact Hstep].
Qed.

Lemma str_of_Z_reads_back n : 0 <= n -> read_digits (str_of_Z n) 0 false = Some n.
Proof.
  intros Hn. unfold str_of_Z. destruct (Z.ltb_spec n 0); [lia|].
  rewrite read_rendered_digits; [reflexivity|].
  split; [exact Hn|].
  rewrite Nat2Z.inj_succ, Z2Nat.id by apply Z.log2_nonneg.
  destruct (Z.eq_dec n 0) as [->|Hne]; [reflexivity|].
  apply Z.log2_spec. lia.
Qed.

Lemma str_of_Z_no_dash n :
  0 <= n -> forallb_string (fun c => negb (Ascii.eqb c "-")) (str_of_Z n) = true.
Proof.
  intros Hn. unfold str_of_Z. destruct (Z.ltb_spec n 0); [lia|].
  now apply render_digits_no_dash.
Qed.

Lemma string_length_app (a b : string) :
  String.length (a ++ b) = (String.length a + String.length b)%nat.
Proof. induction a as [|x a IH]; simpl; [reflexivity|now rewrite IH]. Qed.

Lemma string_app_inv_head (c a b : string) : c ++ a = c ++ b -> a = b.
Proof. induction c as [|x c IH]; simpl; [auto|]. intros [= H]. auto. Qed.

Lemma string_app_inv_tail (c a b : string) : a ++ c = b ++ c -> a = b.
Proof.
  revert b. induction a as [|x a IH]; intros [|y b] H; simpl in H.
  - reflexivity.
  - apply (f_equal String.length) in H. simpl in H. rewrite string_length_app in H. lia.
  - apply (f_equal String.length) in H. simpl in H. rewrite string_length_app in H. lia.
  - injection H as -> H. f_equal. now apply IH.
Qed.

(** A pair and a tracking nonce are read off the id they make. *)
Lemma pair_and_nonce_of_id pair1 pair2 n1 n2 :
  0 <= n1 -> 0 <= n2 ->
  pair1 ++ "-" ++ str_of_Z n1 = pair2 ++ "-" ++ str_of_Z n2 ->
  pair1 = pair2 /\ n1 = n2.
Proof.
  intros H1 H2 Heq.
  assert (Hn : n1 = n2).
  { pose proof (f_equal (split_on "-") Heq) as Hs.
    change ("-" ++ str_of_Z n1) with (String "-" (str_of_Z n1)) in Hs.
    change ("-" ++ str_of_Z n2) with (String "-" (str_of_Z n2)) in Hs.
    rewrite !split_on_app in Hs.
    rewrite (split_on_absent _ (str_of_Z n1)) in Hs by now apply str_of_Z_no_dash.
    rewrite (split_on_absent _ (str_of_Z n2)) in Hs by now apply str_of_Z_no_dash.
    apply app_inj_tail in Hs. destruct Hs as [_ Hd].
    pose proof (str_of_Z_reads_back n1 H1) as R1.
    rewrite Hd, (str_of_Z_reads_back n2 H2) in R1. now injection R1. }
  subst n2. split; [|reflexivity].
  now apply string_app_inv_tail in Heq.
Qed.

(** The ids that [c_buy] and [c_sell] hand out identify the order.  For
    tracking nonces from 0 up to the largest 64-bit integer both methods
    return an id and schedule the submission under that very id; two buys
    (or two sells) get the same id exactly when the pair and the nonce are
    the same, and a buy never shares its id with a sell.  A nonce that does
    not fit 64 bits ends both methods in [OverflowError]: no id, nothing
    scheduled. *)
Theorem client_order_ids_identify_the_order
    pair1 pair2 amount1 amount2 type1 type2 price1 price2 n1 n2 :
  0 <= n1 <= INT64_MAX -> 0 <= n2 <= INT64_MAX ->
  (exists b1 b2 s1 s2,
     c_buy pair1 amount1 type1 price1 n1
       = Ok (b1, execute_buy b1 pair1 amount1 type1 price1) /\
     c_buy pair2 amount2 type2 price2 n2
       = Ok (b2, execute_buy b2 pair2 amount2 type2 price2) /\
     c_sell pair1 amount1 type1 price1 n1
       = Ok (s1, execute_sell s1 pair1 amount1 type1 price1) /\
     c_sell pair2 amount2 type2 price2 n2
       = Ok (s2, execute_sell s2 pair2 amount2 type2 price2) /\
     String.eqb b1 b2 = String.eqb pair1 pair2 && (n1 =? n2) /\
     String.eqb s1 s2 = String.eqb pair1 pair2 && (n1 =? n2) /\
     String.eqb b1 s2 = false) /\
  (forall n, n < INT64_MIN \/ INT64_MAX < n ->
     exists msg,
       c_buy pair1 amount1 type1 price1 n = Raise (OverflowError msg) /\
       c_sell pair1 amount1 type1 price1 n = Raise (OverflowError msg)).
Proof.
  intros H1 H2.
  assert (Hfits : forall n, 0 <= n <= INT64_MAX -> as_int64 n = Ok n).
  { intros n Hn. unfold as_int64, INT64_MIN, INT64_MAX in *.
    destruct (Z.leb_spec (- 2 ^ 63) n); [|lia].
    destruct (Z.leb_spec n (2 ^ 63 - 1)); [reflexivity|lia]. }
  assert (Hids : forall side,
             String.eqb (side ++ pair1 ++ "-" ++ str_of_Z n1)
                        (side ++ pair2 ++ "-" ++ str_of_Z n2)
             = String.eqb pair1 pair2 && (n1 =? n2)).
  { intros side.
    destruct (String.eqb_spec (side ++ pair1 ++ "-" ++ str_of_Z n1)
                              (side ++ pair2 ++ "-" ++ str_of_Z n2)) as [Heq|Hne].
    - apply string_app_inv_head in Heq.
      apply pair_and_nonce_of_id in Heq as [-> ->]; try lia.
      now rewrite String.eqb_refl, Z.eqb_refl.
    - destruct (String.eqb_spec pair1 pair2) as [->|]; [|reflexivity].
      destruct (Z.eqb_spec n1 n2) as [->|]; [|reflexivity].
      now elim Hne. }
  split.
  - unfold c_buy, c_sell. rewrite (Hfits n1 H1), (Hfits n2 H2).
    do 4 eexists. repeat (split; [reflexivity|]).
    split; [apply (Hids "buy-")|]. split; [apply (Hids "sell-")|reflexivity].
  - intros n Hn. unfold c_buy, c_sell, as_int64.
    destruct ((INT64_MIN <=? n) && (n <=? INT64_MAX)) eqn:E.
    + apply andb_true_iff in E as [E1 E2].
      apply Z.leb_le in E1. apply Z.leb_le in E2. lia.
    + eexists. split; reflexivity.
Qed.

End ClientOrderIds.

(** ** Decimal places *)

Section DecimalPlaces.

Lemma strip_zeros_trailing k : forall fuel c e,
  (c mod 10 <> 0)%N ->
  (k <= fuel)%nat ->
  e + Z.of_nat k <= Emax ->
  strip_zeros fuel (c * 10 ^ N.of_nat k)%N e Emax = (c, e + Z.of_nat k).
Proof.
  induction k as [|k IH]; intros fuel c e Hc Hfuel He.
  - simpl N.of_nat. rewrite N.pow_0_r, N.mul_1_r, Z.add_0_r.
    destruct fuel as [|f]; [reflexivity|]. simpl.
    apply N.eqb_neq in Hc. now rewrite Hc.
  - destruct fuel as [|f]; [lia|].
    rewrite Nat2N.inj_succ, N.pow_succ_r', (N.mul_comm 10), N.mul_assoc.
    simpl strip_zeros.
    rewrite N.Div0.mod_mul, N.eqb_refl.
    destruct (Z.ltb_spec e Emax); [|lia]. simpl andb. cbv iota.
    rewrite N.div_mul by discriminate.
    rewrite IH by (auto; lia). f_equal. lia.
Qed.

Lemma size_covers_trailing_zeros c k :
  (c <> 0)%N -> (k <= N.to_nat (N.size (c * 10 ^ N.of_nat k)))%nat.
Proof.
  intros Hc.
  assert (Hpow : (2 ^ N.of_nat k <= c * 10 ^ N.of_nat k)%N).
  { transitivity (1 * 10 ^ N.of_nat k)%N.
    - rewrite N.mul_1_l. apply N.pow_le_mono_l. lia.
    - apply N.mul_le_mono_r. lia. }
  assert (Hnz : (c * 10 ^ N.of_nat k <> 0)%N).
  { intros H0. rewrite H0 in Hpow.
    assert (0 < 2 ^ N.of_nat k)%N by (apply N.neq_0_lt_0, N.pow_nonzero; discriminate).
    lia. }
  rewrite N.size_log2 by exact Hnz.
  apply N.log2_le_mono in Hpow. rewrite N.log2_pow2 in Hpow by lia. lia.
Qed.

(** [num_d] is the distance of the normalized exponent from zero.  For a
    coefficient [c] that does not end in 0, followed by [k] zeros, at
    exponent [e], that is [|e + k|]: the number of decimal places when the
    value has any, and the number of trailing zeros of a whole number such as
    [1000].  Zero has none, and an infinity makes it a [TypeError]. *)
Theorem num_d_is_the_normalized_exponent s c k e :
  (c mod 10 <> 0)%N ->
  ndigits (c * 10 ^ N.of_nat k) <= prec ->
  Etiny <= e ->
  e + Z.of_nat k <= Etop ->
  num_d (Fin s (c * 10 ^ N.of_nat k) e) = Ok (Z.abs (e + Z.of_nat k)) /\
  num_d (Fin s 0 e) = Ok 0 /\
  num_d (Inf s) = Raise (TypeError "bad operand type for abs(): 'str'").
Proof.
  intros Hc Hdigits Hlow Hhigh.
  split; [|split; reflexivity].
  assert (Hc0 : (c <> 0)%N) by (intros ->; now apply Hc).
  assert (Hnz : (c * 10 ^ N.of_nat k <> 0)%N).
  { intros H0. apply N.eq_mul_0 in H0. destruct H0 as [H0|H0]; [contradiction|].
    revert H0. apply N.pow_nonzero. discriminate. }
  unfold num_d, normalize, dec_fix.
  apply N.eqb_neq in Hnz. rewrite Hnz.
  unfold Etop, Etiny, Emax, Emin, prec in *.
  destruct (Z.gtb_spec (ndigits (c * 10 ^ N.of_nat k) + e - 28) (999999 - 28 + 1)); [lia|].
  destruct (Z.ltb_spec (ndigits (c * 10 ^ N.of_nat k) + e - 28) (-999999 - 28 + 1)).
  - destruct (Z.ltb_spec e (-999999 - 28 + 1)); [lia|].
    rewrite Hnz.
    rewrite strip_zeros_trailing;
      [reflexivity|exact Hc|now apply size_covers_trailing_zeros|unfold Emax; lia].
  - destruct (Z.ltb_spec e (ndigits (c * 10 ^ N.of_nat k) + e - 28)); [lia|].
    rewrite Hnz.
    rewrite strip_zeros_trailing;
      [reflexivity|exact Hc|now apply size_covers_trailing_zeros|unfold Emax; lia].
Qed.

End DecimalPlaces.

(** ** The limits of a rule *)

Section LimitFacts.
Context {C : Collaborators}.
Local Open Scope stmt_scope.

(** An order whose quantized amount is above the pair's maximum size, or
    whose notional value is below the pair's minimum, is turned down like
    one that is too small: [execute_sell] raises a [ValueError] after one
    failure event for the id, and nothing was signed or sent and no nonce
    consumed. *)
Theorem order_beyond_the_limits_is_rejected w id pair amount order_type price rule qa qp :
  dict_get (_trading_rules w) pair = Some rule ->
  quantize_down amount (min_base_amount_increment rule) = Ok qa ->
  quantize_down price (min_price_increment rule) = Ok qp ->
  OrderType_eqb order_type LIMIT && negb (supports_limit_orders rule) = false ->
  OrderType_eqb order_type MARKET && negb (supports_market_orders rule) = false ->
  dec_lt qa (min_order_size rule) = Ok false ->
  (dec_gt qa (max_order_size rule) = Ok true \/
   (dec_gt qa (max_order_size rule) = Ok false /\
    exists notional,
      dec_mul qa qp = Ok notional /\
      dec_lt notional (min_notional_size rule) = Ok true)) ->
  exists msg w',
    execute_sell id pair amount order_type price w = (Raise (ValueError msg), w') /\
    events w' =
      (events w ++ [(ORDER_FAILURE_EVENT,
                     MarketOrderFailureEvent (clock w * 1000) id order_type)])%list /\
    crypto_calls w' = crypto_calls w /\
    requests w' = requests w /\
    _next_order_id w' = _next_order_id w /\
    dict_get (_in_flight_orders w') id = None.
Proof.
  intros Hrule Hqa Hqp Hlimit Hmarket Hmin Hbeyond.
  assert (Hexec : exists msg,
             execute_order SELL id pair amount order_type price w
               = (Raise (ValueError msg), w)).
  { unfold execute_order.
    rewrite (bind_ok _ _ _ _ _ (quantize_amount_no_price _ _ _ _ _ Hrule Hqa Hmin)).
    rewrite (bind_ok _ _ _ _ _ (quantize_price_run _ _ _ _ _ Hrule Hqp)).
    rewrite (bind_ok _ _ _ _ _ (trading_rule_of_some _ _ _ Hrule)).
    rewrite Hlimit, Hmarket. rewrite bind_ret.
    rewrite bind_lift, Hmin, bind_ret, bind_lift.
    destruct Hbeyond as [Hmax|(Hmax & notional & Hmul & Hnot)]; rewrite Hmax.
    - eexists. reflexivity.
    - rewrite bind_ret, bind_lift, Hmul, bind_lift, Hnot. eexists. reflexivity. }
  destruct Hexec as (msg & Hexec).
  exists msg, (with_events
                 (events w ++ [(ORDER_FAILURE_EVENT,
                                MarketOrderFailureEvent (clock w * 1000) id order_type)])
                 (untracked id w)).
  split.
  - unfold execute_sell.
    rewrite (try_except_caught _ _ _ _ _ _ (bind_raise _ _ _ _ _ Hexec) eq_refl).
    unfold bind, stop_tracking, modify, now, gets, c_trigger_event, raise, untracked.
    destruct (dict_mem (_in_flight_orders w) id); reflexivity.
  - unfold untracked. destruct (dict_mem (_in_flight_orders w) id) eqn:Hm; simpl.
    + repeat split. apply dict_get_del_same.
    + repeat split. now apply dict_mem_false_get.
Qed.

End LimitFacts.

(** ** Resynchronizing a counter *)

Section ResyncFacts.
Context {C : Collaborators}.
Local Open Scope stmt_scope.

(** A forced resync asks the exchange once and adopts what it answers: the
    value under [data] is returned and stored as it comes, in place of
    whatever the local counter held, and the counters of the other tokens
    stay as they were. *)
Theorem forced_resync_adopts_the_remote_id token w temp v :
  remote w (requests w)
    (unsigned_request w "GET" NEXT_ORDER_ID None (Some (next_id_params w token)) None)
    = Http 200 (Ok temp) ->
  py_getitem temp "data" = Ok v ->
  exists w',
    _get_next_order_id token true w = (Ok v, w') /\
    dict_get (_next_order_id w') token = Some v /\
    (forall other, other <> token ->
       dict_get (_next_order_id w') other = dict_get (_next_order_id w) other) /\
    requests w' =
      (requests w
       ++ [unsigned_request w "GET" NEXT_ORDER_ID None (Some (next_id_params w token)) None])%list.
Proof.
  intros Hanswer Hdata.
  pose proof (api_request_unsigned "GET" NEXT_ORDER_ID None (Some (next_id_params w token))
                None w) as Hcall.
  cbv zeta in Hcall. rewrite Hanswer in Hcall. simpl Z.eqb in Hcall. cbv iota in Hcall.
  set (w1 := after_unsigned_request w "GET" NEXT_ORDER_ID None
               (Some (next_id_params w token)) None) in *.
  exists (with_next_order_id (dict_set (_next_order_id w1) token v) w1). split.
  - unfold _get_next_order_id. rewrite bind_gets. simpl orb. cbv iota.
    unfold bind at 1.
    erewrite try_except_ok with (a := Some v)
      (w' := with_next_order_id (dict_set (_next_order_id w1) token v) w1);
      [reflexivity|].
    rewrite bind_gets. unfold next_id_params in Hcall.
    rewrite (bind_ok _ _ _ _ _ Hcall).
    rewrite bind_lift, Hdata, bind_modify. reflexivity.
  - simpl. split; [|split; [|reflexivity]].
    + apply dict_get_set_same. apply Z.eqb_refl.
    + intros other Hne. apply dict_get_set_other; [apply Z_keqb_true|].
      now apply Z.eqb_neq.
Qed.

End ResyncFacts.

(** * Further runs *)

Section FurtherRuns.
#[local] Existing Instance demo.
Local Open Scope stmt_scope.

(** A request to an exchange that answers 500. *)
Lemma error_status_raises_type_error_witness :
  let w := demo_world [] [] [] remote_refuses in
  fst (api_request "GET" EXCHANGE_INFO_ROUTE None None None false w)
    = Raise await_method_error /\
  List.length (logs (snd (api_request "GET" EXCHANGE_INFO_ROUTE None None None false w)))
    = 1%nat.
Proof.
  intros w.
  rewrite (error_status_raises_type_error "GET" EXCHANGE_INFO_ROUTE None None None w
             500 (Ok PNone) eq_refl); [|discriminate].
  split; reflexivity.
Defined.

(** A signed cancellation; then a query of the markets, a posted order and a
    signed query under headers of its own; then the request for the
    exchange's time, which carries the signature of the cancellation. *)
Lemma signature_header_outlives_its_request_witness :
  let w := demo_world [] [] [] remote_down in
  let params := [("accountId", PInt 1234); ("clientOrderId", PStr "o1")] in
  let w1 := snd (api_request "DELETE" ORDER_CANCEL_ROUTE None (Some params) None true w) in
  let order := [("orderId", PInt 7)] in
  let w2 :=
    after_calls
      [mkApiCall "GET" MARKETS_INFO_ROUTE None None None false;
       mkApiCall "POST" ORDER_ROUTE (Some order) (Some order) None false;
       mkApiCall "GET" NEXT_ORDER_ID None (Some params) (Some []) true] w1 in
  exists rq2 signature,
    requests (snd (api_request "GET" EXCHANGE_INFO_ROUTE None None None false w2))
      = (requests w2 ++ [rq2])%list /\
    dict_get (rq_headers rq2) "X-API-SIG" = Some signature /\
    List.length (requests w2) = 4%nat.
Proof.
  intros w params w1 order w2.
  destruct (signature_header_outlives_its_request w "DELETE" ORDER_CANCEL_ROUTE params
              987654321 _ _ _
              [mkApiCall "GET" MARKETS_INFO_ROUTE None None None false;
               mkApiCall "POST" ORDER_ROUTE (Some order) (Some order) None false;
               mkApiCall "GET" NEXT_ORDER_ID None (Some params) (Some []) true]
              "GET" EXCHANGE_INFO_ROUTE None None
              eq_refl eq_refl eq_refl
              ltac:(repeat constructor) eq_refl)
    as (rq2 & Hrq & Hsig).
  exists rq2. eexists. split; [exact Hrq|]. split; [exact Hsig|reflexivity].
Defined.
(** Cancelling the tracked order [o1] at an exchange that answers 200. *)
Lemma cancel_order_follows_the_answer_witness :
  let w := demo_world [] [("o1", demo_order "o1")] [] (remote_data (PInt 0)) in
  dict_get (_in_flight_orders (snd (cancel_order "o1" w))) "o1" = None /\
  List.length (requests (snd (cancel_order "o1" w))) = 1%nat.
Proof.
  intros w.
  destruct (cancel_order_follows_the_answer (C := demo) "o1" (demo_order "o1") w 987654321 _ _ _
              eq_refl eq_refl eq_refl) as [Hrq Hgone].
  split.
  - apply Hgone. reflexivity.
  - rewrite Hrq. reflexivity.
Defined.

(** An order for a pair the connector has no rule for. *)
Lemma order_for_unknown_pair_raises_key_error_witness :
  let w := demo_world [] [] [] remote_down in
  execute_buy "buy-LRC-ETH-1" "LRC-ETH" (Fin false 5 0) LIMIT (Fin false 1 (-2)) w
    = (Raise (KeyError (PStr "LRC-ETH")), w).
Proof.
  intros w.
  exact (proj1 (order_for_unknown_pair_raises_key_error w "buy-LRC-ETH-1" "LRC-ETH"
                  (Fin false 5 0) LIMIT (Fin false 1 (-2)) eq_refl)).
Defined.

Lemma five_at_one_cent_passes :
  passes_checks lrc_eth_rule LIMIT (Fin false 5 0) (Fin false 1 (-2))
    (Fin false 500 (-2)) (Fin false 10000 (-6)).
Proof.
  unfold passes_checks.
  do 6 (split; [vm_compute; reflexivity|]).
  exists (Fin false 5000000 (-8)). split; vm_compute; reflexivity.
Defined.

(** Buying 5 LRC at 0.01 ETH at an exchange that accepts the order. *)
Lemma accepted_buy_is_tracked_and_announced_witness :
  let w := demo_world [("LRC-ETH", lrc_eth_rule)] [] [(0, PInt 7)]
             (remote_data (PStr "0xabc")) in
  let out := execute_buy "buy-LRC-ETH-1" "LRC-ETH" (Fin false 5 0) LIMIT
               (Fin false 1 (-2)) w in
  fst out = Ok tt /\
  _in_flight_orders (snd out) =
    [("buy-LRC-ETH-1",
      mkDemoOrder "buy-LRC-ETH-1" "0xabc" "LRC-ETH" BUY LIMIT
        (Fin false 10000 (-6)) (Fin false 500 (-2)))] /\
  events (snd out) =
    [(BUY_ORDER_CREATED_EVENT,
      BuyOrderCreatedEvent 1600000000000 LIMIT "LRC-ETH" (Fin false 5 0)
        (Fin false 1 (-2)) "buy-LRC-ETH-1")].
Proof.
  intros w out.
  set (w1 := snd (place_order "buy-LRC-ETH-1" "LRC-ETH" (Fin false 500 (-2)) true LIMIT
                     (Fin false 10000 (-6)) w)).
  assert (Hplace : place_order "buy-LRC-ETH-1" "LRC-ETH" (Fin false 500 (-2)) true LIMIT
                     (Fin false 10000 (-6)) w = (Ok (PDict [("data", PStr "0xabc")]), w1))
    by (apply result_with_state; vm_compute; reflexivity).
  destruct (accepted_buy_is_tracked_and_announced (C := demo) w "buy-LRC-ETH-1" "LRC-ETH"
              (Fin false 5 0) LIMIT (Fin false 1 (-2)) lrc_eth_rule
              (Fin false 500 (-2)) (Fin false 10000 (-6))
              (PDict [("data", PStr "0xabc")]) (PStr "0xabc")
              (mkDemoOrder "buy-LRC-ETH-1" "0xabc" "LRC-ETH" BUY LIMIT
                 (Fin false 10000 (-6)) (Fin false 500 (-2)))
              w1 eq_refl five_at_one_cent_passes Hplace eq_refl eq_refl)
    as (w' & Hrun & Hreg & Hev & _).
  unfold out. rewrite Hrun. simpl fst. simpl snd. rewrite Hreg, Hev.
  repeat split.
Defined.

(** Selling 5 LRC at 0.01 ETH while the exchange times out on posted
    orders and answers the resync: the call returns normally, and the
    failure event is followed by a created event. *)
Lemma failed_sell_submission_events_witness :
  let w := demo_world [("LRC-ETH", lrc_eth_rule)] [] [(2, PInt 7)] remote_rejects_orders in
  let out := execute_sell "sell-LRC-ETH-1" "LRC-ETH" (Fin false 5 0) LIMIT
               (Fin false 1 (-2)) w in
  fst out = Ok tt /\
  events (snd out) =
    [(ORDER_FAILURE_EVENT, MarketOrderFailureEvent 1600000000000 "sell-LRC-ETH-1" LIMIT);
     (SELL_ORDER_CREATED_EVENT,
      SellOrderCreatedEvent 1600000000000 LIMIT "LRC-ETH" (Fin false 5 0)
        (Fin false 1 (-2)) "sell-LRC-ETH-1")].
Proof.
  intros w out.
  assert (Hfst : fst out = Ok tt) by (vm_compute; reflexivity).
  split; [exact Hfst|].
  pose proof (failed_sell_submission_events (C := demo) w "sell-LRC-ETH-1" "LRC-ETH"
                (Fin false 5 0) LIMIT (Fin false 1 (-2)) lrc_eth_rule
                (Fin false 500 (-2)) (Fin false 10000 (-6)) (IOError "timeout") _
                eq_refl five_at_one_cent_passes
                (result_with_state _ _ ltac:(vm_compute; reflexivity))) as H.
  cbv zeta in H. fold out in H. rewrite Hfst in H. exact H.
Defined.

(** Placing a buy of 5 LRC at 0.01 ETH with the counter of ETH at 7. *)
Lemma placed_order_consumes_one_nonce_witness :
  let w := demo_world [("LRC-ETH", lrc_eth_rule)] [] [(0, PInt 7)] remote_down in
  let w' := snd (place_order "buy-LRC-ETH-1" "LRC-ETH" (Fin false 500 (-2)) true LIMIT
                   (Fin false 10000 (-6)) w) in
  _next_order_id w' = [(0, PInt 8)] /\
  List.length (requests w') = 1%nat /\
  default_headers w' = [].
Proof.
  intros w w'.
  destruct (placed_order_consumes_one_nonce (C := demo) "buy-LRC-ETH-1" "LRC-ETH"
              (Fin false 500 (-2)) true LIMIT (Fin false 10000 (-6)) w
              "LRC" "ETH" 2 0 (mkOrderDetails 0 2 50000000000000000 5000000000000000000)
              7 5050000003203018129 987654321
              5050000003203018129 987654321 5050000004190672450
              eq_refl eq_refl eq_refl ltac:(vm_compute; reflexivity) eq_refl
              ltac:(vm_compute; reflexivity) eq_refl ltac:(vm_compute; reflexivity))
    as (Hrq & Hctr & Hhd & _).
  fold w' in Hrq, Hctr, Hhd. rewrite Hrq, Hctr, Hhd. repeat split.
Defined.

(** Selling 2000000 LRC, twice the maximum size. *)
Lemma order_beyond_the_limits_is_rejected_witness :
  let w := demo_world [("LRC-ETH", lrc_eth_rule)] [] [(2, PInt 7)] remote_down in
  let out := execute_sell "sell-LRC-ETH-2" "LRC-ETH" (Fin false 2000000 0) LIMIT
               (Fin false 1 (-2)) w in
  (exists msg, fst out = Raise (ValueError msg)) /\
  events (snd out) =
    [(ORDER_FAILURE_EVENT, MarketOrderFailureEvent 1600000000000 "sell-LRC-ETH-2" LIMIT)] /\
  requests (snd out) = [] /\
  _next_order_id (snd out) = [(2, PInt 7)].
Proof.
  intros w out.
  assert (Hbeyond : dec_gt (Fin false 200000000 (-2)) (max_order_size lrc_eth_rule) = Ok true)
    by (vm_compute; reflexivity).
  destruct (order_beyond_the_limits_is_rejected (C := demo) w "sell-LRC-ETH-2" "LRC-ETH"
              (Fin false 2000000 0) LIMIT (Fin false 1 (-2)) lrc_eth_rule
              (Fin false 200000000 (-2)) (Fin false 10000 (-6))
              eq_refl ltac:(vm_compute; reflexivity) ltac:(vm_compute; reflexivity)
              eq_refl eq_refl ltac:(vm_compute; reflexivity)
              (or_introl Hbeyond))
    as (msg & w' & Hrun & Hev & _ & Hrq & Hctr & _).
  unfold out. rewrite Hrun. simpl fst. simpl snd. rewrite Hev, Hrq, Hctr.
  split; [exists msg; reflexivity|]. repeat split.
Defined.

(** A forced resync of token 3 with the local counter at 50 and the
    exchange at 7. *)
Lemma forced_resync_adopts_the_remote_id_witness :
  let w := demo_world [] [] [(3, PInt 50)] (remote_data (PInt 7)) in
  fst (_get_next_order_id 3 true w) = Ok (PInt 7) /\
  dict_get (_next_order_id (snd (_get_next_order_id 3 true w))) 3 = Some (PInt 7).
Proof.
  intros w.
  destruct (forced_resync_adopts_the_remote_id (C := demo) 3 w
              (PDict [("data", PInt 7)]) (PInt 7) eq_refl eq_refl)
    as (w' & Hrun & Hctr & _).
  rewrite Hrun. split; [reflexivity|exact Hctr].
Defined.

(** A refresh from the demo tables leaves the rule of the disabled market
    [LRC-USDT] on file. *)
Lemma refresh_leaves_unlisted_pairs_witness :
  let w := demo_world [("LRC-USDT", lrc_eth_rule)] [] [] remote_exchange_info in
  dict_get (_trading_rules (snd (_update_trading_rules w))) "LRC-USDT" = Some lrc_eth_rule.
Proof.
  intros w.
  rewrite (refresh_leaves_unlisted_pairs (C := demo) w "LRC-USDT"); [reflexivity|].
  intros body data markets Hbody Hdata Hiter m Hin.
  assert (Hb : body = demo_markets) by (vm_compute in Hbody; now injection Hbody as <-).
  subst body. vm_compute in Hdata. injection Hdata as <-.
  vm_compute in Hiter. injection Hiter as <-.
  destruct Hin as [<-|[<-|[]]]; vm_compute; discriminate.
Defined.

(** The loop over the two demo markets files the rule of [LRC-ETH]. *)
Lemma refresh_files_the_last_enabled_entry_witness :
  let w := demo_world [] [] [] remote_down in
  dict_get (_trading_rules
              (snd (update_rules_each demo_token_table
                      [demo_market_lrc_eth; demo_market_lrc_usdt] w)))
    "LRC-ETH" = Some lrc_eth_rule.
Proof.
  intros w.
  apply (refresh_files_the_last_enabled_entry (C := demo) demo_token_table []
           demo_market_lrc_eth [demo_market_lrc_usdt] w (PBool true) (PInt 2) (PInt 0)
           lrc_eth_rule eq_refl eq_refl eq_refl eq_refl).
  - intros w0. apply result_with_state. vm_compute. reflexivity.
  - intros m [<-|[]]. vm_compute. discriminate.
  - vm_compute. reflexivity.
Defined.

(** Buys with the tracking nonces 17 on LRC-ETH and 7 on a pair named
    LRC-ETH-1: the ids differ, though both read buy-LRC-ETH-1 up to their
    last dash. *)
Lemma client_order_ids_identify_the_order_witness :
  exists b1 b2,
    c_buy "LRC-ETH" (Fin false 5 0) LIMIT (Fin false 1 (-2)) 17
      = Ok (b1, execute_buy b1 "LRC-ETH" (Fin false 5 0) LIMIT (Fin false 1 (-2))) /\
    c_buy "LRC-ETH-1" (Fin false 5 0) LIMIT (Fin false 1 (-2)) 7
      = Ok (b2, execute_buy b2 "LRC-ETH-1" (Fin false 5 0) LIMIT (Fin false 1 (-2))) /\
    String.eqb b1 b2 = false.
Proof.
  destruct (proj1 (client_order_ids_identify_the_order (C := demo)
                     "LRC-ETH" "LRC-ETH-1" (Fin false 5 0) (Fin false 5 0) LIMIT LIMIT
                     (Fin false 1 (-2)) (Fin false 1 (-2)) 17 7
                     ltac:(unfold INT64_MAX; lia) ltac:(unfold INT64_MAX; lia)))
    as (b1 & b2 & s1 & s2 & Hb1 & Hb2 & _ & _ & Hb & _).
  exists b1, b2. split; [exact Hb1|]. split; [exact Hb2|exact Hb].
Defined.

(** [num_d] of 0.12300 and of 1000. *)
Lemma num_d_is_the_normalized_exponent_witness :
  num_d (Fin false 12300 (-5)) = Ok 3 /\ num_d (Fin false 1000 0) = Ok 3.
Proof.
  split.
  - exact (proj1 (num_d_is_the_normalized_exponent false 123 2 (-5)
                    ltac:(discriminate) ltac:(vm_compute; discriminate)
                    ltac:(vm_compute; discriminate) ltac:(vm_compute; discriminate))).
  - exact (proj1 (num_d_is_the_normalized_exponent false 1 3 0
                    ltac:(discriminate) ltac:(vm_compute; discriminate)
                    ltac:(vm_compute; discriminate) ltac:(vm_compute; discriminate))).
Defined.

End FurtherRuns.

Section LiveRuns.
#[local] Existing Instance live.
Local Open Scope stmt_scope.

(** The exchange reports the tracked order [o1] as cancelled. *)
Lemma cancelled_update_ends_in_name_error_witness :
  let w := live_world [("o1", live_order "o1")] remote_down in
  let out := _update_inflight_order "o1" (live_order "o1")
               (PDict [("status", PStr "cancelled")]) w in
  fst out = Raise (NameError "client_order_id") /\
  events (snd out) = [] /\
  dict_keys (_in_flight_orders (snd out)) = ["o1"].
Proof.
  intros w out.
  destruct (cancelled_update_ends_in_name_error (C := live) "o1" (live_order "o1")
              (PDict [("status", PStr "cancelled")]) w
              s_decimal_0 s_decimal_0 s_decimal_0 []
              (mkLiveOrder "o1" "0xo1" "LRC-ETH" BUY "cancelled") eq_refl)
    as (w' & Hrun & Hev & Hkeys & _).
  unfold out. rewrite Hrun. simpl fst. simpl snd. rewrite Hev, Hkeys. repeat split.
Defined.

(** The exchange reports two fills of [o1] at once, which complete it. *)
Lemma done_order_completes_once_per_fill_witness :
  let w := live_world [("o1", live_order "o1")] remote_down in
  let out := _update_inflight_order "o1" (live_order "o1")
               (PDict [("status", PStr "processed"); ("fills", PList [PInt 3; PInt 2])]) w in
  fst out = Ok tt /\
  map fst (events (snd out)) =
    [OrderFilled; BuyOrderCompleted; OrderFilled; BuyOrderCompleted] /\
  dict_get (_in_flight_orders (snd out)) "o1" = None.
Proof.
  intros w out.
  assert (Hfills : Forall (fun ev : MarketEvent * Decimal * Decimal * Decimal =>
                             fst (fst (fst ev)) = OrderFilled)
                     [live_fill (PInt 3); live_fill (PInt 2)])
    by (repeat constructor).
  destruct (done_order_completes_once_per_fill (C := live) "o1" (live_order "o1")
              (PDict [("status", PStr "processed"); ("fills", PList [PInt 3; PInt 2])]) w
              [live_fill (PInt 3); live_fill (PInt 2)]
              (mkLiveOrder "o1" "0xo1" "LRC-ETH" BUY "processed")
              eq_refl Hfills eq_refl eq_refl)
    as (w' & Hrun & Hev & Hgone & _).
  unfold out. rewrite Hrun. simpl fst. simpl snd. rewrite Hev.
  split; [reflexivity|]. split; [reflexivity|].
  apply Hgone. discriminate.
Defined.

(** Saving two tracked orders and restoring them on a fresh connector. *)
Lemma saved_states_restore_the_registry_witness :
  let w := live_world [("o1", live_order "o1"); ("o2", live_order "o2")] remote_down in
  let w0 := live_world [] remote_down in
  exists saved w1,
    tracking_states live_to_json w = (Ok saved, w) /\
    restore_tracking_states live_from_json saved w0 = (Ok tt, w1) /\
    _in_flight_orders w1 = [("o1", live_order "o1"); ("o2", live_order "o2")].
Proof.
  intros w w0.
  apply (saved_states_restore_the_registry (C := live) live_to_json live_from_json w w0).
  - unfold unique_keys. simpl.
    constructor; [intros [H|[]]; discriminate|].
    constructor; [intros []|constructor].
  - repeat constructor.
  - reflexivity.
Defined.

End LiveRuns.
